(** * Artemis Global Tracker, Example14_SimpleTracker: the sequencing state machine

    A shallow embedding of [Example14_SimpleTracker.ino]: the RTC interrupt
    routine, the voltage monitor, the GNSS power switches, [setup] and the
    switch-driven [loop], together with the properties of the power-aware
    sequencing that the specification states. *)

From Stdlib Require Import ZArith QArith Qround Qabs Qpower List String Ascii Bool.
From Stdlib Require Import Lia Lqa.
From Stdlib Require Import DecimalString RelationClasses.
Import ListNotations.

Local Open Scope Z_scope.

(** ** Floating point

    [float] and [double] values are carried as the rationals they denote.
    Every arithmetic operation rounds its exact result to the precision of its
    type, to nearest with ties to even.  The computations of the sketch stay far
    from the overflow and subnormal ranges, which are not modelled. *)

Module FP.

(** Nearest integer to [q], ties to even. *)
Definition round_half_even (q : Q) : Z :=
  let f := Qfloor q in
  let r := (q - inject_Z f)%Q in
  match (r ?= 1 # 2)%Q with
  | Lt => f
  | Gt => f + 1
  | Eq => if Z.even f then f else f + 1
  end.

(** [2^e] as a rational, for any integer [e]. *)
Definition pow2 (e : Z) : Q :=
  if 0 <=? e then inject_Z (2 ^ e) else (1 # Z.to_pos (2 ^ (- e)))%Q.

(** Exponent of the leading bit of a positive rational [n/d]:
    the [k] with [2^k <= n/d < 2^(k+1)]. *)
Definition ilog2 (n d : Z) : Z :=
  let k := Z.log2 n - Z.log2 d in
  if Qle_bool (pow2 k) (n # Z.to_pos d) then k else k - 1.

(** Rounding to a binary format with [p] significand bits. *)
Definition round (p : Z) (x : Q) : Q :=
  if Qnum x =? 0 then 0%Q
  else
    let n := Z.abs (Qnum x) in
    let d := Zpos (Qden x) in
    let e := ilog2 n d - (p - 1) in
    let m := round_half_even ((n # Qden x) / pow2 e) in
    let r := Qred (inject_Z m * pow2 e) in
    if Qnum x <? 0 then Qred (- r) else r.

Definition to_float : Q -> Q := round 24.
Definition to_double : Q -> Q := round 53.

(** A decimal literal of the source, which is a double. *)
Definition lit (x : Q) : Q := to_double x.

(** Double-precision product and quotient. *)
Definition dmul (x y : Q) : Q := to_double (x * y).
Definition ddiv (x y : Q) : Q := to_double (x / y).

(** [(float)i] for an integer [i]. *)
Definition float_of_int (i : Z) : Q := to_float (inject_Z i).

(** [x < y] on values. *)
Definition ltb (x y : Q) : bool := negb (Qle_bool y x).

End FP.

(** ** Text formatting: [sprintf] with [%d], [%02d], [%s], and [dtostrf] *)

Module Fmt.

Local Open Scope string_scope.

(** [%d] *)
Definition dec (z : Z) : string := NilZero.string_of_int (Z.to_int z).

Fixpoint repeat_char (c : ascii) (n : nat) : string :=
  match n with
  | O => EmptyString
  | S k => String c (repeat_char c k)
  end.

(** Right-justify [s] in a field of [width] characters, filling with [c]. *)
Definition pad_left (c : ascii) (width : nat) (s : string) : string :=
  repeat_char c (width - String.length s) ++ s.

(** [%02d] for a non-negative argument; a negative one prints its sign
    first and fills behind it. *)
Definition dec02 (z : Z) : string :=
  if (z <? 0)%Z then "-" ++ pad_left "0" 1 (dec (- z)) else pad_left "0" 2 (dec z).

(** [dtostrf(val, width, prec, buf)] of the platform library: [val] in
    fixed notation with [prec] digits after the decimal point (none, and no
    point, when [prec] is 0), right-justified with blanks in a field of at
    least [width] characters. *)
Definition dtostrf (val : Q) (width prec : nat) : string :=
  let scale := 10 ^ Z.of_nat prec in
  let m := FP.round_half_even (Qabs val * inject_Z scale) in
  let body :=
    if Nat.eqb prec 0 then dec m
    else dec (m / scale) ++ "." ++ pad_left "0" prec (dec (m mod scale)) in
  pad_left " " width (if Qle_bool 0 val then body else "-" ++ body).

Definition join_comma (l : list string) : string := String.concat "," l.

End Fmt.

(** ** Pins, events and the program state *)

(** Pin numbers of the Artemis tracker board. *)
Definition geofencePin : Z := 10.
Definition busVoltagePin : Z := 13.
Definition iridiumSleep : Z := 17.
Definition iridiumNA : Z := 18.
Definition LED : Z := 19.
Definition iridiumPwrEN : Z := 22.
Definition gnssEN : Z := 26.
Definition superCapChgEN : Z := 27.
Definition superCapPGOOD : Z := 28.
Definition busVoltageMonEN : Z := 34.
Definition iridiumRI : Z := 41.

Definition LOW : bool := false.
Definition HIGH : bool := true.

Inductive PinMode := INPUT | OUTPUT | INPUT_PULLUP.

(** The output level and the mode of every pin. *)
Record Pins := mkPins { level : Z -> bool; mode : Z -> PinMode }.

Definition write_level (pin : Z) (v : bool) (p : Pins) : Pins :=
  mkPins (fun q => if q =? pin then v else level p q) (mode p).

Definition write_mode (pin : Z) (m : PinMode) (p : Pins) : Pins :=
  mkPins (level p) (fun q => if q =? pin then m else mode p q).

(** What the hardware sees, in the order it happens. *)
Inductive event :=
| EvPins (p : Pins)            (* the pins after a digitalWrite or pinMode *)
| EvVbat (t : Z) (v : Q)       (* a bus-voltage sample and the clock when taken *)
| EvSend (msg : string)        (* the text handed to the modem *)
| EvDeepSleep (p : Pins).      (* the processor enters deep sleep with these pins *)

(** The GNSS fix variables of the sketch. *)
Record Fix := mkFix {
  latitude : Q; longitude : Q; altitude : Z; speed : Q; satellites : Z;
  course : Z; pdop : Z; year : Z; month : Z; day : Z; hour : Z; minute : Z;
  second : Z; milliseconds : Z }.

(** The global variables of the sketch. *)
Record Globals := mkGlobals {
  INTERVAL : Z;            (* unsigned long *)
  seconds_count : Z;       (* volatile unsigned long *)
  interval_alarm : bool;   (* volatile bool *)
  iterationCounter : Z;    (* long *)
  vbat : Q;                (* float *)
  fixrec : Fix;
  pascals : Q;             (* float *)
  tempC : Q;               (* float *)
  fixType : Z;             (* byte *)
  PGOOD : bool;
  err : Z;                 (* int *)
  loop_step : Z }.         (* int *)

(** The board: pins, the millisecond clock (advanced by [delay]), the number
    of values read from the outside world so far, and the events so far,
    newest first. *)
Record Board := mkBoard {
  pins : Pins; clock : Z; tick : nat; trace : list event }.

Record state := mkState { mem : Globals; io : Board }.

Definition set_seconds_count v g :=
  mkGlobals (INTERVAL g) v (interval_alarm g) (iterationCounter g) (vbat g) (fixrec g)
    (pascals g) (tempC g) (fixType g) (PGOOD g) (err g) (loop_step g).
Definition set_interval_alarm v g :=
  mkGlobals (INTERVAL g) (seconds_count g) v (iterationCounter g) (vbat g) (fixrec g)
    (pascals g) (tempC g) (fixType g) (PGOOD g) (err g) (loop_step g).
Definition set_iterationCounter v g :=
  mkGlobals (INTERVAL g) (seconds_count g) (interval_alarm g) v (vbat g) (fixrec g)
    (pascals g) (tempC g) (fixType g) (PGOOD g) (err g) (loop_step g).
Definition set_vbat v g :=
  mkGlobals (INTERVAL g) (seconds_count g) (interval_alarm g) (iterationCounter g) v (fixrec g)
    (pascals g) (tempC g) (fixType g) (PGOOD g) (err g) (loop_step g).
Definition set_fixrec v g :=
  mkGlobals (INTERVAL g) (seconds_count g) (interval_alarm g) (iterationCounter g) (vbat g) v
    (pascals g) (tempC g) (fixType g) (PGOOD g) (err g) (loop_step g).
Definition set_pascals v g :=
  mkGlobals (INTERVAL g) (seconds_count g) (interval_alarm g) (iterationCounter g) (vbat g) (fixrec g)
    v (tempC g) (fixType g) (PGOOD g) (err g) (loop_step g).
Definition set_tempC v g :=
  mkGlobals (INTERVAL g) (seconds_count g) (interval_alarm g) (iterationCounter g) (vbat g) (fixrec g)
    (pascals g) v (fixType g) (PGOOD g) (err g) (loop_step g).
Definition set_fixType v g :=
  mkGlobals (INTERVAL g) (seconds_count g) (interval_alarm g) (iterationCounter g) (vbat g) (fixrec g)
    (pascals g) (tempC g) v (PGOOD g) (err g) (loop_step g).
Definition set_PGOOD v g :=
  mkGlobals (INTERVAL g) (seconds_count g) (interval_alarm g) (iterationCounter g) (vbat g) (fixrec g)
    (pascals g) (tempC g) (fixType g) v (err g) (loop_step g).
Definition set_err v g :=
  mkGlobals (INTERVAL g) (seconds_count g) (interval_alarm g) (iterationCounter g) (vbat g) (fixrec g)
    (pascals g) (tempC g) (fixType g) (PGOOD g) v (loop_step g).
Definition set_loop_step v g :=
  mkGlobals (INTERVAL g) (seconds_count g) (interval_alarm g) (iterationCounter g) (vbat g) (fixrec g)
    (pascals g) (tempC g) (fixType g) (PGOOD g) (err g) v.

Definition set_pins v b := mkBoard v (clock b) (tick b) (trace b).
Definition set_clock v b := mkBoard (pins b) v (tick b) (trace b).
Definition set_tick v b := mkBoard (pins b) (clock b) v (trace b).
Definition set_trace v b := mkBoard (pins b) (clock b) (tick b) v.

Definition on_mem (f : Globals -> Globals) (s : state) : state := mkState (f (mem s)) (io s).
Definition on_io (f : Board -> Board) (s : state) : state := mkState (mem s) (f (io s)).

(** ** The outside world

    Everything the sketch reads from its peripherals.  Each field gives the
    answer to the interaction number [k] since power-on, so a world fixes one
    behaviour of the battery, the receiver, the sensor, the charger, the modem
    and the interrupt sources, and the theorems hold for every world. *)

(** Raw values of the GNSS driver's getters. *)
Record Pvt := mkPvt {
  getFixType : Z; getMillisecond : Z; getSecond : Z; getMinute : Z; getHour : Z;
  getDay : Z; getMonth : Z; getYear : Z; getLatitude : Z; getLongitude : Z;
  getAltitudeMSL : Z; getGroundSpeed : Z; getSIV : Z; getHeading : Z; getPDOP : Z }.

Record World := mkWorld {
  adc : nat -> Z;               (* analogRead(busVoltagePin), 14 bits *)
  pgood_pin : nat -> bool;      (* digitalRead(superCapPGOOD) *)
  gps_begin : nat -> bool;      (* myGPS.begin(Wire1) *)
  gps_set_model : nat -> bool;  (* myGPS.setDynamicModel(...) *)
  gps : nat -> Pvt;             (* the receiver's solution *)
  baro_begin : nat -> bool;     (* barometricSensor.begin(Wire1) *)
  baro_temperature : nat -> Q;  (* getTemperature(), degrees C *)
  baro_pressure : nat -> Q;     (* getPressure(), hPa *)
  modem_polls : nat -> nat;     (* how often a modem call runs ISBDCallback *)
  modem_onoff : nat -> bool;    (* level the modem library leaves on its ON/OFF pin *)
  modem_result : nat -> Z;      (* status a modem call returns when not cancelled *)
  wake_ticks : nat -> nat }.    (* RTC alarms serviced before a deep sleep returns;
                                   0 is a wake-up by another source *)

(** ** Constants of the sketch *)

Definition VBAT_LOW : Q := FP.lit (28 # 10).
Definition GNSS_timeout : Z := 5.
Definition CHG_timeout : Z := 2.
Definition TOPUP_timeout : Z := 10.

Definition loop_init : Z := 0.
Definition start_GPS : Z := 1.
Definition read_GPS : Z := 2.
Definition read_pressure : Z := 3.
Definition start_LTC3225 : Z := 4.
Definition wait_LTC3225 : Z := 5.
Definition start_9603 : Z := 6.
Definition zzz : Z := 7.
Definition wake : Z := 8.

Definition ISBD_SUCCESS : Z := 0.
Definition ISBD_CANCELLED : Z := 4.

(** 32-bit wrap-around of [unsigned long] and of [long]. *)
Definition wrap_ulong (z : Z) : Z := z mod 2 ^ 32.
Definition wrap_long (z : Z) : Z := (z + 2 ^ 31) mod 2 ^ 32 - 2 ^ 31.

(** The fix variables as their initialisers and both fall-back branches set them. *)
Definition default_fix : Fix := mkFix 0 0 0 0 0 0 0 1970 1 1 0 0 0 0.

(** The globals after their static initialisers. *)
Definition initial_globals : Globals :=
  mkGlobals (15 * 60) 0 false 0 (FP.to_float 5) default_fix 0 0 0 false 0 loop_init.

(** Power-on reset: no pin is an output and the output registers are clear. *)
Definition power_on : state :=
  mkState initial_globals
    (mkBoard (mkPins (fun _ => LOW) (fun _ => INPUT)) 0 0 []).

(** ** A state monad with fuel

    The sketch runs in a monad over [state]; [None] means that a loop ran out
    of the fuel it was given, so a result [Some] is a run that returned. *)

Definition M (A : Type) : Type := state -> option (A * state).

Definition ret {A} (a : A) : M A := fun s => Some (a, s).

Definition bind {A B} (m : M A) (k : A -> M B) : M B :=
  fun s => match m s with
           | Some (a, s1) => k a s1
           | None => None
           end.

Notation "x <- m ;; k" := (bind m (fun x => k))
  (at level 61, m at next level, right associativity).
Notation "m ;; k" := (bind m (fun _ => k))
  (at level 61, right associativity).

Definition gets {A} (f : state -> A) : M A := fun s => Some (f s, s).
Definition modify (f : state -> state) : M unit := fun s => Some (tt, f s).

(** Assignment to global variables. *)
Definition assign (f : Globals -> Globals) : M unit := modify (on_mem f).

(** [while (cond) { body }], where the body answers [true] when it leaves the
    loop by [break]. *)
Fixpoint while (fuel : nat) (cond : state -> bool) (body : M bool) : M unit :=
  fun s =>
    if cond s then
      match fuel with
      | O => None
      | S f =>
          match body s with
          | Some (true, s1) => Some (tt, s1)
          | Some (false, s1) => while f cond body s1
          | None => None
          end
      end
    else Some (tt, s).

(** [for (int i = 0; i < n; i++) { body }] *)
Fixpoint repeat_n (n : nat) (body : M unit) : M unit :=
  match n with
  | O => ret tt
  | S k => body ;; repeat_n k body
  end.

(** ** Platform primitives *)

Definition emit (e : event) (s : state) : state :=
  on_io (fun b => set_trace (e :: trace b) b) s.

Definition digitalWrite (pin : Z) (v : bool) : M unit :=
  modify (fun s =>
    let p := write_level pin v (pins (io s)) in
    emit (EvPins p) (on_io (set_pins p) s)).

Definition pinMode (pin : Z) (m : PinMode) : M unit :=
  modify (fun s =>
    let p := write_mode pin m (pins (io s)) in
    emit (EvPins p) (on_io (set_pins p) s)).

Definition delay (ms : Z) : M unit :=
  modify (on_io (fun b => set_clock (clock b + ms) b)).

Definition millis (s : state) : Z := wrap_ulong (clock (io s)).

(** ** The interrupt routine and the helpers of the sketch *)

(** [am_rtc_isr]: once per RTC alarm, that is once per second. *)
Definition am_rtc_isr (s : state) : state :=
  let s1 := on_mem (fun g => set_seconds_count (wrap_ulong (seconds_count g + 1)) g) s in
  if INTERVAL (mem s1) <=? seconds_count (mem s1)
  then on_mem (fun g => set_seconds_count 0 (set_interval_alarm true g)) s1
  else s1.

(** The voltage that [get_vbat] stores for an ADC reading:
    [((float)raw) * 3.0 * 1.09 * 2.0 / 16384.0], computed in double and
    stored in a float. *)
Definition vbat_of_adc (raw : Z) : Q :=
  FP.to_float
    (FP.ddiv (FP.dmul (FP.dmul (FP.dmul (FP.float_of_int raw) 3) (FP.lit (109 # 100))) 2)
       16384).

(** [v < VBAT_LOW] *)
Definition below_VBAT_LOW (v : Q) : bool := FP.ltb v VBAT_LOW.

(** [vbat < VBAT_LOW] *)
Definition low_voltage (s : state) : bool := below_VBAT_LOW (vbat (mem s)).

Arguments vbat_of_adc : simpl never.
Arguments below_VBAT_LOW : simpl never.
Arguments wrap_ulong : simpl never.
Arguments wrap_long : simpl never.
Arguments FP.to_float : simpl never.
Arguments FP.dmul : simpl never.
Arguments FP.ddiv : simpl never.
Arguments FP.float_of_int : simpl never.

Definition gnssON : M unit :=
  digitalWrite gnssEN LOW ;;
  pinMode gnssEN OUTPUT.

Definition gnssOFF : M unit :=
  pinMode gnssEN INPUT_PULLUP ;;
  digitalWrite gnssEN HIGH.

(** The LED blinks with the given half-period. *)
Definition flash_LED (half_period : Z) : M unit :=
  t <- gets millis ;;
  if (t / half_period) mod 2 =? 1 then digitalWrite LED HIGH else digitalWrite LED LOW.

Definition setup : M unit :=
  pinMode LED OUTPUT ;;
  gnssOFF ;;
  pinMode geofencePin INPUT ;;
  pinMode iridiumPwrEN OUTPUT ;;
  digitalWrite iridiumPwrEN LOW ;;
  pinMode superCapChgEN OUTPUT ;;
  digitalWrite superCapChgEN LOW ;;
  pinMode iridiumSleep OUTPUT ;;
  digitalWrite iridiumSleep LOW ;;
  pinMode iridiumRI INPUT ;;
  pinMode iridiumNA INPUT ;;
  pinMode superCapPGOOD INPUT ;;
  pinMode busVoltageMonEN OUTPUT ;;
  digitalWrite busVoltageMonEN LOW ;;
  assign (set_iterationCounter 0) ;;
  assign (set_loop_step loop_init) ;;
  assign (set_seconds_count 0) ;;
  assign (set_interval_alarm false).

(** The outbound message: the [dtostrf] conversions and the [sprintf].
    The text is that of the sketch when every conversion fits the character
    array it is written to ([fits_buffers] below); the arrays themselves are
    not modelled. *)
Definition format_message (s : state) : string :=
  let g := mem s in
  let f := fixrec g in
  let lat_str := Fmt.dtostrf (latitude f) 8 6 in
  let lon_str := Fmt.dtostrf (longitude f) 8 6 in
  let alt_str := Fmt.dtostrf (inject_Z (altitude f)) 4 2 in
  let vbat_str := Fmt.dtostrf (vbat g) 4 2 in
  let speed_str := Fmt.dtostrf (speed f) 4 2 in
  let pressure_str := Fmt.dtostrf (pascals g) 1 0 in
  let temperature_str := Fmt.dtostrf (tempC g) 3 1 in
  ((Fmt.dec (year f) ++ Fmt.dec02 (month f) ++ Fmt.dec02 (day f) ++ Fmt.dec02 (hour f)
    ++ Fmt.dec02 (minute f) ++ Fmt.dec02 (second f)) ++ ","
   ++ Fmt.join_comma
        [lat_str; lon_str; alt_str; speed_str; Fmt.dec (course f); Fmt.dec (pdop f);
         Fmt.dec (satellites f); pressure_str; temperature_str; vbat_str;
         Fmt.dec (iterationCounter g)])%string.

Arguments format_message : simpl never.

(** The arithmetic of the voltage and of the message is unfolded last when
    two terms are compared. *)
Strategy 100 [below_VBAT_LOW vbat_of_adc format_message wrap_ulong wrap_long].

Section Sketch.

Variable w : World.

(** One interaction with the outside world. *)
Definition ask {A} (f : World -> nat -> A) : M A :=
  fun s => Some (f w (tick (io s)), on_io (fun b => set_tick (S (tick b)) b) s).

Definition get_vbat : M unit :=
  digitalWrite busVoltageMonEN HIGH ;;
  delay 1 ;;
  raw <- ask adc ;;
  modify (fun s =>
    let v := vbat_of_adc raw in
    emit (EvVbat (clock (io s)) v) (on_mem (set_vbat v) s)) ;;
  digitalWrite busVoltageMonEN LOW.

(** [ISBDCallback]: [false] makes the modem library give up. *)
Definition ISBDCallback : M bool :=
  flash_LED 250 ;;
  get_vbat ;;
  low <- gets low_voltage ;;
  ret (negb low).

(** The modem library runs the callback some number of times while it
    works; [false] if a callback asked it to stop. *)
Fixpoint poll_callback (n : nat) : M bool :=
  match n with
  | O => ret true
  | S k => ok <- ISBDCallback ;; if ok then poll_callback k else ret false
  end.

(** A call into the modem library ([begin], [sendSBDText], [clearBuffers],
    [sleep]): it polls the callback, may drive its ON/OFF pin, and returns
    a status, [ISBD_CANCELLED] when the callback stopped it. *)
Definition modem_call : M Z :=
  n <- ask modem_polls ;;
  ok <- poll_callback n ;;
  lvl <- ask modem_onoff ;;
  digitalWrite iridiumSleep lvl ;;
  r <- ask modem_result ;;
  ret (if ok then r else ISBD_CANCELLED).

Definition sendSBDText (msg : string) : M Z :=
  modify (emit (EvSend msg)) ;;
  modem_call.

(** [am_hal_sysctrl_sleep(AM_HAL_SYSCTRL_SLEEP_DEEP)]: returns after a
    wake-up; the RTC alarms in between run the interrupt routine. *)
Definition deep_sleep : M unit :=
  modify (fun s => emit (EvDeepSleep (pins (io s))) s) ;;
  n <- ask wake_ticks ;;
  modify (Nat.iter n am_rtc_isr).

(** *** The cases of [loop] *)

Definition case_loop_init : M unit :=
  delay 1000 ;;
  get_vbat ;;
  low <- gets low_voltage ;;
  if low then assign (set_loop_step zzz) else assign (set_loop_step start_GPS).

Definition case_start_GPS : M unit :=
  gnssON ;;
  delay 2000 ;;
  get_vbat ;;
  low <- gets low_voltage ;;
  if low then
    gnssOFF ;;
    assign (set_loop_step zzz)
  else
    ok <- ask gps_begin ;;
    if negb ok then
      assign (set_fixrec default_fix) ;;
      gnssOFF ;;
      assign (set_loop_step read_pressure)
    else
      _ <- ask gps_set_model ;;
      assign (set_loop_step read_GPS).

(** The capture of a 3D fix, the time first. *)
Definition capture_fix : M unit :=
  ms <- ask (fun w k => getMillisecond (gps w k)) ;;
  sec <- ask (fun w k => getSecond (gps w k)) ;;
  mi <- ask (fun w k => getMinute (gps w k)) ;;
  ho <- ask (fun w k => getHour (gps w k)) ;;
  da <- ask (fun w k => getDay (gps w k)) ;;
  mo <- ask (fun w k => getMonth (gps w k)) ;;
  ye <- ask (fun w k => getYear (gps w k)) ;;
  la <- ask (fun w k => getLatitude (gps w k)) ;;
  lo <- ask (fun w k => getLongitude (gps w k)) ;;
  al <- ask (fun w k => getAltitudeMSL (gps w k)) ;;
  sp <- ask (fun w k => getGroundSpeed (gps w k)) ;;
  sv <- ask (fun w k => getSIV (gps w k)) ;;
  he <- ask (fun w k => getHeading (gps w k)) ;;
  pd <- ask (fun w k => getPDOP (gps w k)) ;;
  assign (set_fixrec
    (mkFix (FP.to_float (FP.ddiv (FP.float_of_int la) 10000000))
           (FP.to_float (FP.ddiv (FP.float_of_int lo) 10000000))
           (Z.quot al 1000)
           (FP.to_float (FP.ddiv (FP.float_of_int sp) 1000))
           sv
           (Z.quot he 10000000)
           (Z.quot pd 100)
           ye mo da ho mi sec ms)).

Definition case_read_GPS (fuel : nat) : M unit :=
  assign (set_fixType 0) ;;
  tnow <- gets millis ;;
  while fuel
    (fun s => negb (fixType (mem s) =? 3)
              && (wrap_ulong (millis s - tnow) <? GNSS_timeout * 60 * 1000))
    (ft <- ask (fun w k => getFixType (gps w k)) ;;
     assign (set_fixType ft) ;;
     get_vbat ;;
     low <- gets low_voltage ;;
     if low then ret true
     else
       flash_LED 1000 ;;
       delay 100 ;;
       ret false) ;;
  low <- gets low_voltage ;;
  (if low then assign (set_loop_step zzz)
   else
     ft <- gets (fun s => fixType (mem s)) ;;
     if ft =? 3 then
       capture_fix ;;
       assign (set_loop_step read_pressure)
     else
       assign (set_fixrec default_fix) ;;
       assign (set_loop_step read_pressure)) ;;
  gnssOFF.

Definition case_read_pressure : M unit :=
  ok1 <- ask baro_begin ;;
  ok <- (if negb ok1 then ask baro_begin else ret ok1) ;;
  (if negb ok then
     assign (set_pascals 0) ;;
     assign (set_tempC 0)
   else
     t <- ask baro_temperature ;;
     assign (set_tempC t) ;;
     p <- ask baro_pressure ;;
     assign (set_pascals (FP.to_float (FP.dmul p 100)))) ;;
  assign (set_loop_step start_LTC3225).

Definition case_start_LTC3225 (fuel : nat) : M unit :=
  digitalWrite superCapChgEN HIGH ;;
  delay 2000 ;;
  assign (set_PGOOD false) ;;
  tnow <- gets millis ;;
  while fuel
    (fun s => negb (PGOOD (mem s))
              && (wrap_ulong (millis s - tnow) <? CHG_timeout * 60 * 1000))
    (pg <- ask pgood_pin ;;
     assign (set_PGOOD pg) ;;
     get_vbat ;;
     low <- gets low_voltage ;;
     if low then ret true
     else
       flash_LED 500 ;;
       delay 100 ;;
       ret false) ;;
  low <- gets low_voltage ;;
  if low then assign (set_loop_step zzz)
  else
    pg <- gets (fun s => PGOOD (mem s)) ;;
    if pg then assign (set_loop_step wait_LTC3225)
    else assign (set_loop_step zzz).

Definition case_wait_LTC3225 (fuel : nat) : M unit :=
  tnow <- gets millis ;;
  while fuel
    (fun s => wrap_ulong (millis s - tnow) <? TOPUP_timeout * 1000)
    (get_vbat ;;
     low <- gets low_voltage ;;
     if low then ret true
     else
       flash_LED 500 ;;
       delay 100 ;;
       ret false) ;;
  low <- gets low_voltage ;;
  if low then assign (set_loop_step zzz)
  else
    pg <- gets (fun s => PGOOD (mem s)) ;;
    if pg then assign (set_loop_step start_9603)
    else assign (set_loop_step zzz).

Definition case_start_9603 : M unit :=
  digitalWrite iridiumPwrEN HIGH ;;
  delay 1000 ;;
  delay 1000 ;;
  e <- modem_call ;;                       (* modem.begin() *)
  assign (set_err e) ;;
  if negb (e =? ISBD_SUCCESS) then assign (set_loop_step zzz)
  else
    outBuffer <- gets format_message ;;
    e <- sendSBDText outBuffer ;;
    assign (set_err e) ;;
    (if negb (e =? ISBD_SUCCESS) then digitalWrite LED HIGH
     else
       repeat_n 10
         (digitalWrite LED HIGH ;;
          delay 100 ;;
          digitalWrite LED LOW ;;
          delay 100)) ;;
    e <- modem_call ;;                     (* modem.clearBuffers(ISBD_CLEAR_MO) *)
    assign (set_err e) ;;
    e <- modem_call ;;                     (* modem.sleep() *)
    assign (set_err e) ;;
    assign (fun g => set_iterationCounter (wrap_long (iterationCounter g + 1)) g) ;;
    assign (set_loop_step zzz).

(** The low-power wait of [case zzz]:
    [while (!interval_alarm) am_hal_sysctrl_sleep(AM_HAL_SYSCTRL_SLEEP_DEEP);] *)
Definition sleep_wait (fuel : nat) : M unit :=
  while fuel
    (fun s => negb (interval_alarm (mem s)))
    (deep_sleep ;;
     ret false).

(** The first half of [case zzz]: everything is turned off. *)
Definition power_down : M unit :=
  gnssOFF ;;
  digitalWrite iridiumSleep LOW ;;
  delay 1000 ;;
  digitalWrite iridiumPwrEN LOW ;;
  delay 1000 ;;
  digitalWrite superCapChgEN LOW ;;
  digitalWrite busVoltageMonEN LOW ;;
  digitalWrite LED LOW.

Definition case_zzz (fuel : nat) : M unit :=
  power_down ;;
  sleep_wait fuel ;;
  assign (set_interval_alarm false) ;;
  assign (set_loop_step wake).

(** [case wake]: of the state modelled here only [loop_step] changes.  What
    the source restores besides (memory power, the timer clock, the serial
    and debug pads, the ADC) has no counterpart in [state]. *)
Definition case_wake : M unit :=
  assign (set_loop_step loop_init).

(** [loop]: one pass through the switch. *)
Definition loop (fuel : nat) : M unit :=
  step <- gets (fun s => loop_step (mem s)) ;;
  if step =? loop_init then case_loop_init
  else if step =? start_GPS then case_start_GPS
  else if step =? read_GPS then case_read_GPS fuel
  else if step =? read_pressure then case_read_pressure
  else if step =? start_LTC3225 then case_start_LTC3225 fuel
  else if step =? wait_LTC3225 then case_wait_LTC3225 fuel
  else if step =? start_9603 then case_start_9603
  else if step =? zzz then case_zzz fuel
  else if step =? wake then case_wake
  else ret tt.

End Sketch.

(** ** Notions for reasoning about runs *)

(** [m] returns when run from [s]. *)
Definition returns {A} (m : M A) (s : state) : Prop :=
  exists a s1, m s = Some (a, s1).

(** Every run of [m] relates the state before to the state after by [R]. *)
Definition stable (R : state -> state -> Prop) {A} (m : M A) : Prop :=
  forall s a s1, m s = Some (a, s1) -> R s s1.

(** Frame relations: a run keeps the value of a projection of the state. *)
Definition keeps {X} (proj : state -> X) (s s1 : state) : Prop := proj s1 = proj s.

(** The conjunction of two such relations. *)
Definition both (R1 R2 : state -> state -> Prop) (s s1 : state) : Prop :=
  R1 s s1 /\ R2 s s1.

(** Computations that return from every state. *)
Definition total {A} (m : M A) : Prop := forall s, returns m s.

(** ** Notions used by the statements *)

(** The global variables other than the two of the interval timer agree. *)
Definition same_but_timer (g g' : Globals) : Prop :=
  INTERVAL g' = INTERVAL g /\ iterationCounter g' = iterationCounter g /\
  vbat g' = vbat g /\ fixrec g' = fixrec g /\ pascals g' = pascals g /\
  tempC g' = tempC g /\ fixType g' = fixType g /\ PGOOD g' = PGOOD g /\
  err g' = err g /\ loop_step g' = loop_step g.

(** The RTC alarms serviced during the [n] deep sleeps that start at
    interaction [k]. *)
Fixpoint ticks_within (w : World) (k : nat) (n : nat) : Z :=
  match n with
  | O => 0
  | S m => Z.of_nat (wake_ticks w k) + ticks_within w (S k) m
  end.

(** The interval timer is in its working range. *)
Definition timer_ok (s : state) : Prop :=
  0 <= seconds_count (mem s) < INTERVAL (mem s) /\ INTERVAL (mem s) < 2 ^ 32.

(** From [s] to [s1] the processor only slept: the pins and the clock are
    those of [s], and the new events are entries into deep sleep with these
    pins. *)
Definition only_slept (s s1 : state) : Prop :=
  pins (io s1) = pins (io s) /\ clock (io s1) = clock (io s) /\
  exists new, trace (io s1) = new ++ trace (io s) /\
              forall e, In e new -> e = EvDeepSleep (pins (io s)).

(** The state that [get_vbat] leaves: the monitor is switched on and off
    again, a millisecond passes, and the sample is stored and logged. *)
Definition sampled (w : World) (s : state) : state :=
  let v := vbat_of_adc (adc w (tick (io s))) in
  let p1 := write_level busVoltageMonEN HIGH (pins (io s)) in
  let p2 := write_level busVoltageMonEN LOW p1 in
  mkState (set_vbat v (mem s))
    (mkBoard p2 (clock (io s) + 1) (S (tick (io s)))
       (EvPins p2 :: EvVbat (clock (io s) + 1) v :: EvPins p1 :: trace (io s))).

(** ** Sample worlds and states *)

(** A receiver solution: 2020-12-15 09:30:00, 51.123456 N, 1.234567 W,
    123 m, 1.5 m/s, heading 90, PDOP 2.00, 8 satellites, 3D fix. *)
Definition sample_pvt : Pvt :=
  mkPvt 3 0 0 30 9 15 12 2020 511234560 (-12345670) 123000 1500 8 900000000 200.

(** A world in which everything works: 4.05 V on the bus, a 3D fix at once,
    15.5 degrees C and 1013 hPa, capacitors charged, the modem answering
    with success after two callbacks, and an RTC alarm at every wake-up. *)
Definition fair_weather : World :=
  mkWorld (fun _ => 10146) (fun _ => true) (fun _ => true) (fun _ => true)
    (fun _ => sample_pvt) (fun _ => true) (fun _ => 155 # 10) (fun _ => 1013 # 1)
    (fun _ => 2%nat) (fun _ => false) (fun _ => ISBD_SUCCESS) (fun _ => 1%nat).

(** The same world with a receiver that does not answer. *)
Definition no_gnss : World :=
  mkWorld (adc fair_weather) (pgood_pin fair_weather) (fun _ => false)
    (gps_set_model fair_weather) (gps fair_weather) (baro_begin fair_weather)
    (baro_temperature fair_weather) (baro_pressure fair_weather)
    (modem_polls fair_weather) (modem_onoff fair_weather)
    (modem_result fair_weather) (wake_ticks fair_weather).

(** The same world with a pressure sensor that answers only the second
    handshake of a cycle. *)
Definition shy_sensor : World :=
  mkWorld (adc fair_weather) (pgood_pin fair_weather) (gps_begin fair_weather)
    (gps_set_model fair_weather) (gps fair_weather) (fun k => Nat.odd k)
    (baro_temperature fair_weather) (baro_pressure fair_weather)
    (modem_polls fair_weather) (modem_onoff fair_weather)
    (modem_result fair_weather) (wake_ticks fair_weather).

(** The state after [setup], at a given step of the switch. *)
Definition at_step (step : Z) : state :=
  match setup power_on with
  | Some (_, s) => on_mem (set_loop_step step) s
  | None => power_on
  end.

(** The variables of the formatting example: each decimal is the float
    nearest to it, which is what a [float] variable can hold. *)
Definition sample_fix : Fix :=
  {| latitude := FP.to_float (51123456 # 1000000);
     longitude := FP.to_float (- 1234567 # 1000000);
     altitude := 123; speed := FP.to_float (150 # 100); satellites := 8;
     course := 90; pdop := 2; year := 2020; month := 12; day := 15;
     hour := 9; minute := 30; second := 0; milliseconds := 0 |}.

Definition sample_message_state : state :=
  mkState
    (mkGlobals (15 * 60) 0 false 7 (FP.to_float (405 # 100)) sample_fix
       (FP.to_float (101300 # 1)) (FP.to_float (155 # 10)) 3 true 0 start_9603)
    (io (at_step start_9603)).

(** The message depends on these variables only. *)
Definition same_message_fields (s1 s2 : state) : Prop :=
  fixrec (mem s1) = fixrec (mem s2) /\ pascals (mem s1) = pascals (mem s2) /\
  tempC (mem s1) = tempC (mem s2) /\ vbat (mem s1) = vbat (mem s2) /\
  iterationCounter (mem s1) = iterationCounter (mem s2).

(** Every peripheral power domain is at its off level: GNSS enable HIGH on
    a pulled-up input, modem power, modem ON/OFF, charger enable and
    bus-voltage monitor LOW. *)
Definition all_off (p : Pins) : Prop :=
  level p gnssEN = HIGH /\ mode p gnssEN = INPUT_PULLUP /\
  level p iridiumPwrEN = LOW /\ level p iridiumSleep = LOW /\
  level p superCapChgEN = LOW /\ level p busVoltageMonEN = LOW.

(** A world whose every other wake-up is not an RTC alarm. *)
Definition restless : World :=
  mkWorld (adc fair_weather) (pgood_pin fair_weather) (gps_begin fair_weather)
    (gps_set_model fair_weather) (gps fair_weather) (baro_begin fair_weather)
    (baro_temperature fair_weather) (baro_pressure fair_weather)
    (modem_polls fair_weather) (modem_onoff fair_weather)
    (modem_result fair_weather) (fun k => if Nat.even k then 0%nat else 1%nat).

(** From [s] to [s1] the trace only grew, by events that satisfy [P]. *)
Definition adds (P : event -> Prop) (s s1 : state) : Prop :=
  exists new, trace (io s1) = new ++ trace (io s) /\ Forall P new.

(** No text is handed to the modem. *)
Definition no_send (e : event) : Prop :=
  match e with
  | EvSend _ => False
  | _ => True
  end.

(** Runs that leave the iteration counter alone and send nothing. *)
Definition counter_kept : state -> state -> Prop :=
  both (keeps (fun s => iterationCounter (mem s))) (adds no_send).

(** A world whose modem never gets going: every call returns
    [ISBD_PROTOCOL_ERROR]. *)
Definition no_modem : World :=
  mkWorld (adc fair_weather) (pgood_pin fair_weather) (gps_begin fair_weather)
    (gps_set_model fair_weather) (gps fair_weather) (baro_begin fair_weather)
    (baro_temperature fair_weather) (baro_pressure fair_weather)
    (modem_polls fair_weather) (modem_onoff fair_weather)
    (fun _ => 3) (wake_ticks fair_weather).

(** One round of polling from [s] to [s1]: every voltage sample it logs is
    the one it leaves in [vbat]; it answers whether that sample is low, and
    if so no time has passed since the sample. *)
Definition polled (s : state) (b : bool) (s1 : state) : Prop :=
  exists t new,
    trace (io s1) = new ++ trace (io s) /\
    (forall t' v', In (EvVbat t' v') new -> t' = t /\ v' = vbat (mem s1)) /\
    b = low_voltage s1 /\
    (b = true -> clock (io s1) = t).

(** Since [s0] no low voltage was sampled. *)
Definition samples_ok_since (s0 s : state) : Prop :=
  exists new,
    trace (io s) = new ++ trace (io s0) /\
    forall t v, In (EvVbat t v) new -> below_VBAT_LOW v = false.

(** The voltage in [vbat] is low, and every low sample since [s0] was taken
    at the present time. *)
Definition stopped_on_low (s0 s : state) : Prop :=
  low_voltage s = true /\
  exists new,
    trace (io s) = new ++ trace (io s0) /\
    forall t v, In (EvVbat t v) new -> below_VBAT_LOW v = true -> t = clock (io s).

(** No voltage sample among the events [l]. *)
Definition no_vbat (l : list event) : Prop :=
  forall t v, ~ In (EvVbat t v) l.

(** What the specification says of a step with a bounded wait, from [s] to [s']:
    a low voltage in [vbat] at the end sends the machine to [zzz] with the
    fix variables untouched, and every low sample logged during the step
    was taken at the time the step ends, with [zzz] next. *)
Definition low_voltage_wins (s s' : state) : Prop :=
  (low_voltage s' = true ->
   loop_step (mem s') = zzz /\ fixrec (mem s') = fixrec (mem s)) /\
  exists new,
    trace (io s') = new ++ trace (io s) /\
    forall t v, In (EvVbat t v) new -> below_VBAT_LOW v = true ->
                clock (io s') = t /\ loop_step (mem s') = zzz.

(** A world whose battery is flat: 1.99 V on the bus. *)
Definition brownout : World :=
  mkWorld (fun _ => 5000) (pgood_pin fair_weather) (gps_begin fair_weather)
    (gps_set_model fair_weather) (gps fair_weather) (baro_begin fair_weather)
    (baro_temperature fair_weather) (baro_pressure fair_weather)
    (modem_polls fair_weather) (modem_onoff fair_weather)
    (modem_result fair_weather) (wake_ticks fair_weather).

(** A world whose charger never shows PGOOD: the ready signal is lost. *)
Definition charge_lost : World :=
  mkWorld (adc fair_weather) (fun _ => false) (gps_begin fair_weather)
    (gps_set_model fair_weather) (gps fair_weather) (baro_begin fair_weather)
    (baro_temperature fair_weather) (baro_pressure fair_weather)
    (modem_polls fair_weather) (modem_onoff fair_weather)
    (modem_result fair_weather) (wake_ticks fair_weather).

(** The top-up step as [start_LTC3225] enters it: [PGOOD] was seen HIGH. *)
Definition topup_entry : state :=
  on_mem (set_PGOOD true) (at_step wait_LTC3225).

(** A run returned, in a state that passes the test [P]. *)
Definition run_passes (r : option (unit * state)) (P : state -> bool) : bool :=
  match r with
  | Some (_, s') => P s'
  | None => false
  end.

(** ** The two RF power domains *)

(** Both domains asserted at once: GNSS enable LOW (it is active low) and
    modem power enable HIGH.  A pin that is not an output drives nothing, so
    levels that are never both asserted are never both driven. *)
Definition both_on (p : Pins) : bool :=
  negb (level p gnssEN) && level p iridiumPwrEN.

(** The pins an event shows. *)
Definition event_pins (e : event) : option Pins :=
  match e with
  | EvPins p => Some p
  | EvDeepSleep p => Some p
  | _ => None
  end.

Definition safe_event (e : event) : Prop :=
  match event_pins e with
  | Some p => both_on p = false
  | None => True
  end.

(** Now and at every pin operation so far, the two were not both on. *)
Definition never_both (s : state) : Prop :=
  both_on (pins (io s)) = false /\ Forall safe_event (trace (io s)).

(** The event shows [pin] at level [v], if it shows pins at all. *)
Definition level_is (pin : Z) (v : bool) (e : event) : Prop :=
  match event_pins e with
  | Some p => level p pin = v
  | None => True
  end.

(** From [s] to [s1] the level of [pin] was not changed. *)
Definition untouched (pin : Z) (s s1 : state) : Prop :=
  level (pins (io s1)) pin = level (pins (io s)) pin /\
  adds (level_is pin (level (pins (io s)) pin)) s s1.

(** The states the tracker can be in: after [setup] from power-on, after a
    pass through [loop] that returned, and after an RTC interrupt between
    passes (one during a pass touches nothing the pass reads outside the
    deep sleep, where [deep_sleep] accounts for it). *)
Inductive reachable (w : World) : state -> Prop :=
| reach_setup s :
    setup power_on = Some (tt, s) -> reachable w s
| reach_loop fuel s s' :
    reachable w s -> loop w fuel s = Some (tt, s') -> reachable w s'
| reach_tick s :
    reachable w s -> reachable w (am_rtc_isr s).

(** The invariant behind the mutual exclusion: modem power is on only on
    the way into [zzz], GNSS power only on the way into [read_GPS]. *)
Definition power_invariant (s : state) : Prop :=
  never_both s /\
  (level (pins (io s)) iridiumPwrEN = HIGH -> loop_step (mem s) = zzz) /\
  (level (pins (io s)) gnssEN = LOW -> loop_step (mem s) = read_GPS).

(** [n] passes through [loop]. *)
Fixpoint passes (w : World) (fuel n : nat) (s : state) : option state :=
  match n with
  | O => Some s
  | S k =>
      match loop w fuel s with
      | Some (_, s1) => passes w fuel k s1
      | None => None
      end
  end.

(** The boolean form of [power_invariant] without the history, and of the
    safety of the history, for checking concrete states. *)
Definition safe_eventb (e : event) : bool :=
  match event_pins e with
  | Some p => negb (both_on p)
  | None => true
  end.

Definition power_invariantb (s : state) : bool :=
  negb (both_on (pins (io s))) && forallb safe_eventb (trace (io s))
  && (negb (level (pins (io s)) iridiumPwrEN) || (loop_step (mem s) =? zzz))
  && (level (pins (io s)) gnssEN || (loop_step (mem s) =? read_GPS)).

(** ** Further notions: the rest of the sketch *)

(** The global variables other than [vbat] agree. *)
Definition same_but_vbat (g g' : Globals) : Prop :=
  INTERVAL g' = INTERVAL g /\ seconds_count g' = seconds_count g /\
  interval_alarm g' = interval_alarm g /\
  iterationCounter g' = iterationCounter g /\ fixrec g' = fixrec g /\
  pascals g' = pascals g /\ tempC g' = tempC g /\ fixType g' = fixType g /\
  PGOOD g' = PGOOD g /\ err g' = err g /\ loop_step g' = loop_step g.

(** The pins of the four peripheral power domains keep their level. *)
Definition domains_kept (p p' : Pins) : Prop :=
  level p' gnssEN = level p gnssEN /\
  level p' iridiumPwrEN = level p iridiumPwrEN /\
  level p' iridiumSleep = level p iridiumSleep /\
  level p' superCapChgEN = level p superCapChgEN.

(** From [s] to [s1] the interval is the same and the timer stays in its
    working range. *)
Definition timer_kept (s s1 : state) : Prop :=
  INTERVAL (mem s1) = INTERVAL (mem s) /\ (timer_ok s -> timer_ok s1).

(** The state machine is where the sketch expects it: [loop_step] is one of
    the nine steps, the interval is the 15 minutes of its initialiser, and
    the count of seconds is below it. *)
Definition machine_ok (s : state) : Prop :=
  loop_init <= loop_step (mem s) <= wake /\
  INTERVAL (mem s) = 15 * 60 /\
  0 <= seconds_count (mem s) < INTERVAL (mem s).

(** The variables that neither the deep sleep nor the interval timer
    touches: everything but [seconds_count], [interval_alarm] and
    [loop_step]. *)
Definition data_of (g : Globals) : Z * Z * Q * Fix * Q * Q * Z * bool * Z :=
  (INTERVAL g, iterationCounter g, vbat g, fixrec g, pascals g, tempC g,
   fixType g, PGOOD g, err g).

(** One round of a polling loop from [s] to [s1]: it answers whether the
    voltage it has sampled is low, and takes 1 ms when it is (the settling
    time of the monitor, then the [break]) and 101 ms when it is not. *)
Definition round_of (s : state) (b : bool) (s1 : state) : Prop :=
  b = low_voltage s1 /\
  clock (io s1) = clock (io s) + (if b then 1 else 101).

(** The fix variables as [read_GPS] sets them from the receiver's answers
    to the interactions [k], [k+1], ..., [k+13]: the time first, from the
    milliseconds to the year, then position, altitude, speed, satellites,
    heading and PDOP, with the conversions of the sketch. *)
Definition fix_read_at (w : World) (k : nat) : Fix :=
  {| latitude :=
       FP.to_float (FP.ddiv (FP.float_of_int (getLatitude (gps w (k + 7)))) 10000000);
     longitude :=
       FP.to_float (FP.ddiv (FP.float_of_int (getLongitude (gps w (k + 8)))) 10000000);
     altitude := Z.quot (getAltitudeMSL (gps w (k + 9))) 1000;
     speed :=
       FP.to_float (FP.ddiv (FP.float_of_int (getGroundSpeed (gps w (k + 10)))) 1000);
     satellites := getSIV (gps w (k + 11));
     course := Z.quot (getHeading (gps w (k + 12))) 10000000;
     pdop := Z.quot (getPDOP (gps w (k + 13))) 100;
     year := getYear (gps w (k + 6));
     month := getMonth (gps w (k + 5));
     day := getDay (gps w (k + 4));
     hour := getHour (gps w (k + 3));
     minute := getMinute (gps w (k + 2));
     second := getSecond (gps w (k + 1));
     milliseconds := getMillisecond (gps w k) |}.

(** The texts handed to the modem among the events [l], newest first. *)
Fixpoint sends (l : list event) : list string :=
  match l with
  | [] => []
  | EvSend msg :: rest => msg :: sends rest
  | _ :: rest => sends rest
  end.

(** From [s] to [s1] no text was handed to the modem, and the voltage in
    [vbat] is the one of [s] or a sample logged since. *)
Definition sampling (s s1 : state) : Prop :=
  exists new,
    trace (io s1) = new ++ trace (io s) /\
    Forall no_send new /\
    (vbat (mem s1) = vbat (mem s) \/ exists t, In (EvVbat t (vbat (mem s1))) new).

(** What a call into the modem library leaves alone: the variables of the
    message other than the voltage, and the modem's power. *)
Definition modem_frame (s : state) : Fix * Q * Q * Z * bool :=
  (fixrec (mem s), pascals (mem s), tempC (mem s), iterationCounter (mem s),
   level (pins (io s)) iridiumPwrEN).

(** ** The modem and its capacitors *)

(** The modem is powered while the charger of its capacitors is disabled. *)
Definition starved (p : Pins) : bool :=
  level p iridiumPwrEN && negb (level p superCapChgEN).

Definition fed_event (e : event) : Prop :=
  match event_pins e with
  | Some p => starved p = false
  | None => True
  end.

(** Now and at every pin operation so far, the modem was not powered with
    the charger disabled. *)
Definition never_starved (s : state) : Prop :=
  starved (pins (io s)) = false /\ Forall fed_event (trace (io s)).

(** The invariant behind it: the charger is enabled on the way into the
    two steps that follow a successful charge. *)
Definition supply_invariant (s : state) : Prop :=
  never_starved s /\
  (loop_step (mem s) = wait_LTC3225 \/ loop_step (mem s) = start_9603 ->
   level (pins (io s)) superCapChgEN = HIGH).

(** The boolean form, for checking concrete states. *)
Definition fed_eventb (e : event) : bool :=
  match event_pins e with
  | Some p => negb (starved p)
  | None => true
  end.

Definition supply_invariantb (s : state) : bool :=
  negb (starved (pins (io s))) && forallb fed_eventb (trace (io s))
  && (negb ((loop_step (mem s) =? wait_LTC3225) || (loop_step (mem s) =? start_9603))
      || level (pins (io s)) superCapChgEN).

(** The iteration counter is the number of texts handed to the modem so
    far, as a [long]. *)
Definition counts_messages (s : state) : Prop :=
  iterationCounter (mem s)
  = wrap_long (Z.of_nat (List.length (sends (trace (io s))))).

Definition counts_messagesb (s : state) : bool :=
  iterationCounter (mem s)
  =? wrap_long (Z.of_nat (List.length (sends (trace (io s))))).

(** The largest ADC reading that [get_vbat] turns into a voltage below
    [VBAT_LOW]. *)
Definition last_low_reading : Z := 7014.

(** The character arrays that [start_9603] prints into hold the converted
    numbers and the message, each with its terminating NUL: [lat_str[15]],
    [lon_str[15]], [alt_str[15]], [vbat_str[6]], [speed_str[8]],
    [pressure_str[8]], [temperature_str[10]] and [outBuffer[120]]. *)
Definition fits_buffers (s : state) : bool :=
  let g := mem s in
  let f := fixrec g in
  (String.length (Fmt.dtostrf (latitude f) 8 6) <? 15)%nat
  && (String.length (Fmt.dtostrf (longitude f) 8 6) <? 15)%nat
  && (String.length (Fmt.dtostrf (inject_Z (altitude f)) 4 2) <? 15)%nat
  && (String.length (Fmt.dtostrf (vbat g) 4 2) <? 6)%nat
  && (String.length (Fmt.dtostrf (speed f) 4 2) <? 8)%nat
  && (String.length (Fmt.dtostrf (pascals g) 1 0) <? 8)%nat
  && (String.length (Fmt.dtostrf (tempC g) 3 1) <? 10)%nat
  && (String.length (format_message s) <? 120)%nat.

(** A world whose modem starts and then fails: [modem.begin], the first
    modem call of a cycle that reaches [start_9603] with no interaction
    behind it, reads its status at interaction 4 (after the number of
    callbacks, their two voltage samples and the ON/OFF level); every status
    after that is 7, [ISBD_SENDRECEIVE_TIMEOUT]. *)
Definition send_fails : World :=
  mkWorld (adc fair_weather) (pgood_pin fair_weather) (gps_begin fair_weather)
    (gps_set_model fair_weather) (gps fair_weather) (baro_begin fair_weather)
    (baro_temperature fair_weather) (baro_pressure fair_weather)
    (modem_polls fair_weather) (modem_onoff fair_weather)
    (fun k => if (k <=? 4)%nat then ISBD_SUCCESS else 7) (wake_ticks fair_weather).

(** The status that [modem.begin] returns in [start_9603] entered at [s]. *)
Definition begin_status (w : World) (s : state) : option Z :=
  match (digitalWrite iridiumPwrEN HIGH ;; delay 1000 ;; delay 1000 ;; modem_call w) s with
  | Some (e, _) => Some e
  | None => None
  end.
(** ** Reasoning about runs *)

Lemma bind_Some {A B} (m : M A) (k : A -> M B) s b s2 :
  bind m k s = Some (b, s2) ->
  exists a s1, m s = Some (a, s1) /\ k a s1 = Some (b, s2).
Proof.
  unfold bind. destruct (m s) as [[a s1]|]; [|discriminate].
  intros H. exists a, s1. split; [reflexivity|exact H].
Qed.

Lemma bind_run {A B} (m : M A) (k : A -> M B) s a s1 :
  m s = Some (a, s1) -> bind m k s = k a s1.
Proof. unfold bind. intros ->. reflexivity. Qed.

Lemma while_unfold fuel cond body s :
  while fuel cond body s =
  if cond s then
    match fuel with
    | O => None
    | S f =>
        match body s with
        | Some (true, s1) => Some (tt, s1)
        | Some (false, s1) => while f cond body s1
        | None => None
        end
    end
  else Some (tt, s).
Proof. destruct fuel; reflexivity. Qed.

(** The invariant rule of [while]: the loop is left either because its
    condition failed, with the invariant [I], or through a [break], with
    what the breaking iteration establishes, [B]. *)
Lemma while_inv (I B : state -> Prop) cond body :
  (forall s (b : bool) s1, I s -> cond s = true -> body s = Some (b, s1) ->
                           if b then B s1 else I s1) ->
  forall fuel s u s', I s -> while fuel cond body s = Some (u, s') ->
                      (I s' /\ cond s' = false) \/ B s'.
Proof.
  intros Hbody fuel. induction fuel as [|f IH]; intros s u s' Hs Hrun;
    rewrite while_unfold in Hrun; destruct (cond s) eqn:Hc;
    try discriminate; try (injection Hrun as _ <-; auto).
  destruct (body s) as [[[|] s1]|] eqn:Hb; try discriminate.
  - injection Hrun as _ <-. right. exact (Hbody _ _ _ Hs Hc Hb).
  - apply (IH s1 u s'); [exact (Hbody _ _ _ Hs Hc Hb)|exact Hrun].
Qed.

(** The variant rule of [while]: with an integer measure that is
    non-negative while the loop runs and drops at every full iteration,
    more fuel than the measure is enough. *)
Lemma while_returns (I : state -> Prop) (mu : state -> Z) cond body :
  (forall s, I s -> cond s = true ->
             0 <= mu s /\
             exists b s1, body s = Some (b, s1) /\
                          (b = false -> I s1 /\ mu s1 < mu s)) ->
  forall fuel s, I s -> mu s < Z.of_nat fuel -> returns (while fuel cond body) s.
Proof.
  intros Hbody fuel. induction fuel as [|f IH]; intros s Hs Hmu;
    unfold returns; rewrite while_unfold; destruct (cond s) eqn:Hc;
    try (do 2 eexists; reflexivity).
  - destruct (Hbody s Hs Hc) as [H0 _]. simpl in Hmu. lia.
  - destruct (Hbody s Hs Hc) as [H0 (b & s1 & Hb & Hdec)]. rewrite Hb.
    destruct b; [do 2 eexists; reflexivity|].
    destruct (Hdec eq_refl) as [Hs1 Hlt]. apply IH; [exact Hs1|lia].
Qed.

(** The loop does not depend on how its body is written. *)
Lemma while_ext cond body body' :
  (forall s, body s = body' s) ->
  forall fuel s, while fuel cond body s = while fuel cond body' s.
Proof.
  intros Hb fuel. induction fuel as [|f IH]; intros s; simpl; [reflexivity|].
  rewrite Hb. destruct (cond s); [|reflexivity].
  destruct (body' s) as [[[|] s1]|]; auto.
Qed.

Section Stable.

Context (R : state -> state -> Prop) `{!PreOrder R}.

Lemma stable_ret {A} (a : A) : stable R (ret a).
Proof. intros s b s1 H. injection H as _ <-. reflexivity. Qed.

Lemma stable_gets {A} (f : state -> A) : stable R (gets f).
Proof. intros s b s1 H. injection H as _ <-. reflexivity. Qed.

Lemma stable_modify f : (forall s, R s (f s)) -> stable R (modify f).
Proof. intros Hf s b s1 H. injection H as _ <-. apply Hf. Qed.

Lemma stable_assign f : (forall s, R s (on_mem f s)) -> stable R (assign f).
Proof. apply stable_modify. Qed.

Lemma stable_bind {A B} (m : M A) (k : A -> M B) :
  stable R m -> (forall a, stable R (k a)) -> stable R (bind m k).
Proof.
  intros Hm Hk s b s2 H. apply bind_Some in H as (a & s1 & H1 & H2).
  transitivity s1; [exact (Hm _ _ _ H1)|exact (Hk _ _ _ _ H2)].
Qed.

Lemma stable_while fuel cond body : stable R body -> stable R (while fuel cond body).
Proof.
  intros Hb. induction fuel as [|f IH]; intros s u s' H;
    rewrite while_unfold in H; destruct (cond s);
    try discriminate; try (injection H as _ <-; reflexivity).
  destruct (body s) as [[[|] s1]|] eqn:E; try discriminate.
  - injection H as _ <-. exact (Hb _ _ _ E).
  - transitivity s1; [exact (Hb _ _ _ E)|exact (IH _ _ _ H)].
Qed.

Lemma stable_repeat_n n body : stable R body -> stable R (repeat_n n body).
Proof.
  intros Hb. induction n as [|n IH]; simpl.
  - apply stable_ret.
  - apply stable_bind; auto.
Qed.

End Stable.

#[export] Instance keeps_preorder {X} (proj : state -> X) : PreOrder (keeps proj).
Proof.
  split.
  - intros s. reflexivity.
  - intros s1 s2 s3 H12 H23. unfold keeps in *. congruence.
Qed.

#[export] Instance both_preorder R1 R2 `{!PreOrder R1} `{!PreOrder R2} : PreOrder (both R1 R2).
Proof.
  split.
  - intros s. split; reflexivity.
  - intros s1 s2 s3 [H1 H2] [H3 H4]. split; etransitivity; eassumption.
Qed.

Lemma total_ret {A} (a : A) : total (ret a).
Proof. intros s. do 2 eexists. reflexivity. Qed.

Lemma total_gets {A} (f : state -> A) : total (gets f).
Proof. intros s. do 2 eexists. reflexivity. Qed.

Lemma total_modify f : total (modify f).
Proof. intros s. do 2 eexists. reflexivity. Qed.

Lemma total_bind {A B} (m : M A) (k : A -> M B) :
  total m -> (forall a, total (k a)) -> total (bind m k).
Proof.
  intros Hm Hk s. destruct (Hm s) as (a & s1 & H1).
  destruct (Hk a s1) as (b & s2 & H2). exists b, s2.
  rewrite (bind_run _ _ _ _ _ H1). exact H2.
Qed.

Lemma total_repeat_n n body : total body -> total (repeat_n n body).
Proof.
  intros Hb. induction n as [|n IH]; simpl.
  - apply total_ret.
  - apply total_bind; auto.
Qed.

Lemma returns_bind {A B} (m : M A) (k : A -> M B) s :
  returns m s ->
  (forall a s1, m s = Some (a, s1) -> returns (k a) s1) ->
  returns (bind m k) s.
Proof.
  intros (a & s1 & H1) Hk. unfold returns.
  rewrite (bind_run _ _ _ _ _ H1). exact (Hk _ _ H1).
Qed.

(** Inversion of the run of a primitive. *)
Lemma ret_Some {A} (a b : A) s s1 : ret a s = Some (b, s1) -> b = a /\ s1 = s.
Proof. intros H. injection H as <- <-. auto. Qed.

Lemma gets_Some {A} (f : state -> A) b s s1 : gets f s = Some (b, s1) -> b = f s /\ s1 = s.
Proof. intros H. injection H as <- <-. auto. Qed.

Lemma modify_Some f b s s1 : modify f s = Some (b, s1) -> s1 = f s.
Proof. intros H. injection H as _ <-. reflexivity. Qed.

Lemma ask_Some {A} w (f : World -> nat -> A) b s s1 :
  ask w f s = Some (b, s1) ->
  b = f w (tick (io s)) /\ s1 = on_io (fun b => set_tick (S (tick b)) b) s.
Proof. intros H. injection H as <- <-. auto. Qed.

Lemma total_ask {A} w (f : World -> nat -> A) : total (ask w f).
Proof. intros s. do 2 eexists. reflexivity. Qed.

Lemma stable_ask R `{!PreOrder R} {A} w (f : World -> nat -> A) :
  (forall s, R s (on_io (fun b => set_tick (S (tick b)) b) s)) -> stable R (ask w f).
Proof. intros Hf s b s1 H. apply ask_Some in H as [_ ->]. apply Hf. Qed.

Lemma get_vbat_run w s : get_vbat w s = Some (tt, sampled w s).
Proof. reflexivity. Qed.

Lemma get_vbat_Some w a s s1 : get_vbat w s = Some (a, s1) -> s1 = sampled w s.
Proof. rewrite get_vbat_run. intros H. injection H as _ <-. reflexivity. Qed.

Lemma total_poll_callback w n : total (ISBDCallback w) -> total (poll_callback w n).
Proof.
  intros Hc. induction n as [|n IH]; simpl.
  - apply total_ret.
  - apply total_bind; [exact Hc|]. intros [|]; [exact IH|apply total_ret].
Qed.

Lemma stable_poll_callback R `{!PreOrder R} w n :
  stable R (ISBDCallback w) -> stable R (poll_callback w n).
Proof.
  intros Hc. induction n as [|n IH]; simpl.
  - apply stable_ret. assumption.
  - apply stable_bind; [assumption|exact Hc|].
    intros [|]; [exact IH|apply stable_ret; assumption].
Qed.

(** Replace the program of the run [H] by its definition. *)
Ltac expand_in H :=
  lazymatch type of H with
  | ?m ?s = ?r =>
      let m' := eval red in m in
      let E := fresh "E" in
      assert (E : m = m') by reflexivity; rewrite E in H; clear E
  end.

(** Take the run [H] apart, primitive by primitive; runs of loops and of
    the modem library are left as hypotheses. *)
Ltac inv_run H :=
  lazymatch type of H with
  | bind _ _ _ = Some _ =>
      let a := fresh "a" in
      let s := fresh "s" in
      let H1 := fresh "Hrun" in
      apply bind_Some in H as (a & s & H1 & H);
      inv_run H1; inv_run H
  | ret _ _ = Some _ =>
      let E := fresh "E" in apply ret_Some in H as [E ->]; try subst
  | gets _ _ = Some _ =>
      let E := fresh "E" in apply gets_Some in H as [E ->]; try subst
  | modify _ _ = Some _ => apply modify_Some in H; try subst
  | assign _ _ = Some _ => apply modify_Some in H; try subst
  | delay _ _ = Some _ => apply modify_Some in H; try subst
  | digitalWrite _ _ _ = Some _ => apply modify_Some in H; try subst
  | pinMode _ _ _ = Some _ => apply modify_Some in H; try subst
  | ask _ _ _ = Some _ =>
      let E := fresh "E" in apply ask_Some in H as [E ->]; try subst
  | get_vbat _ _ = Some _ => apply get_vbat_Some in H; try subst
  | gnssON _ = Some _ => expand_in H; inv_run H
  | gnssOFF _ = Some _ => expand_in H; inv_run H
  | power_down _ = Some _ => expand_in H; inv_run H
  | capture_fix _ _ = Some _ => expand_in H; inv_run H
  | flash_LED _ _ = Some _ => expand_in H; inv_run H
  | (if ?b then _ else _) _ = Some _ =>
      let E := fresh "Hif" in destruct b eqn:E; inv_run H
  | _ => idtac
  end.

Create HintDb frames.

(** Decompose a goal [stable R m] along the program; [tac] shows [R] for
    the state updates. *)
Ltac stable_with tac :=
  repeat lazymatch goal with
    | |- PreOrder _ => typeclasses eauto
    | |- forall _, _ => intros ?
    | |- stable _ (bind _ _) => apply stable_bind
    | |- stable _ (ret _) => apply stable_ret
    | |- stable _ (gets _) => apply stable_gets
    | |- stable _ (while _ _ _) => apply stable_while
    | |- stable _ (repeat_n _ _) => apply stable_repeat_n
    | |- stable _ (poll_callback _ _) => apply stable_poll_callback
    | |- stable _ (modify _) => apply stable_modify
    | |- stable _ (ask _ _) => apply stable_ask
    | |- stable _ (if ?b then _ else _) => destruct b
    | |- stable _ (assign _) => unfold assign
    | |- stable _ (delay _) => unfold delay
    | |- stable _ (digitalWrite _ _) => unfold digitalWrite
    | |- stable _ (pinMode _ _) => unfold pinMode
    | |- stable _ gnssON => unfold gnssON
    | |- stable _ gnssOFF => unfold gnssOFF
    | |- stable _ power_down => unfold power_down
    | |- stable _ (flash_LED _) => unfold flash_LED
    | |- stable _ (get_vbat _) => unfold get_vbat
    | |- stable _ (ISBDCallback _) => unfold ISBDCallback
    | |- stable _ (modem_call _) => unfold modem_call
    | |- stable _ (sendSBDText _ _) => unfold sendSBDText
    | |- stable _ (capture_fix _) => unfold capture_fix
    | |- stable _ (sleep_wait _ _) => unfold sleep_wait
    | |- stable _ (deep_sleep _) => solve [eauto with frames]
    | |- stable _ (case_read_GPS _ _) => unfold case_read_GPS
    | |- stable _ (case_start_LTC3225 _ _) => unfold case_start_LTC3225
    | |- stable _ (case_wait_LTC3225 _ _) => unfold case_wait_LTC3225
    | |- stable _ (case_zzz _ _) => unfold case_zzz
    | |- stable _ (case_loop_init _) => unfold case_loop_init
    | |- stable _ (case_start_GPS _) => unfold case_start_GPS
    | |- stable _ (case_read_pressure _) => unfold case_read_pressure
    | |- stable _ (case_start_9603 _) => unfold case_start_9603
    | |- stable _ case_wake => unfold case_wake
    | |- stable _ _ => fail
    | |- _ => progress tac
    end.

(** The frame relations hold by computation. *)
Ltac frame := unfold both, keeps; repeat split; reflexivity.

Ltac total_auto :=
  repeat lazymatch goal with
    | |- forall _, _ => intros ?
    | |- total (bind _ _) => apply total_bind
    | |- total (ret _) => apply total_ret
    | |- total (gets _) => apply total_gets
    | |- total (modify _) => apply total_modify
    | |- total (ask _ _) => apply total_ask
    | |- total (repeat_n _ _) => apply total_repeat_n
    | |- total (poll_callback _ _) => apply total_poll_callback
    | |- total (if ?b then _ else _) => destruct b
    | |- total (assign _) => unfold assign
    | |- total (delay _) => unfold delay
    | |- total (digitalWrite _ _) => unfold digitalWrite
    | |- total (pinMode _ _) => unfold pinMode
    | |- total gnssON => unfold gnssON
    | |- total gnssOFF => unfold gnssOFF
    | |- total power_down => unfold power_down
    | |- total (flash_LED _) => unfold flash_LED
    | |- total (get_vbat _) => unfold get_vbat
    | |- total (ISBDCallback _) => unfold ISBDCallback
    | |- total (modem_call _) => unfold modem_call
    | |- total (sendSBDText _ _) => unfold sendSBDText
    | |- total (capture_fix _) => unfold capture_fix
    | |- total (case_loop_init _) => unfold case_loop_init
    | |- total (case_start_GPS _) => unfold case_start_GPS
    | |- total (case_read_pressure _) => unfold case_read_pressure
    | |- total (case_start_9603 _) => unfold case_start_9603
    | |- total case_wake => unfold case_wake
    end.

(** ** The switch of [loop] *)

Lemma loop_at_loop_init w fuel s :
  loop_step (mem s) = loop_init -> loop w fuel s = case_loop_init w s.
Proof. intros H. unfold loop, bind, gets. rewrite H. reflexivity. Qed.

Lemma loop_at_start_GPS w fuel s :
  loop_step (mem s) = start_GPS -> loop w fuel s = case_start_GPS w s.
Proof. intros H. unfold loop, bind, gets. rewrite H. reflexivity. Qed.

Lemma loop_at_read_GPS w fuel s :
  loop_step (mem s) = read_GPS -> loop w fuel s = case_read_GPS w fuel s.
Proof. intros H. unfold loop, bind, gets. rewrite H. reflexivity. Qed.

Lemma loop_at_read_pressure w fuel s :
  loop_step (mem s) = read_pressure -> loop w fuel s = case_read_pressure w s.
Proof. intros H. unfold loop, bind, gets. rewrite H. reflexivity. Qed.

Lemma loop_at_start_LTC3225 w fuel s :
  loop_step (mem s) = start_LTC3225 -> loop w fuel s = case_start_LTC3225 w fuel s.
Proof. intros H. unfold loop, bind, gets. rewrite H. reflexivity. Qed.

Lemma loop_at_wait_LTC3225 w fuel s :
  loop_step (mem s) = wait_LTC3225 -> loop w fuel s = case_wait_LTC3225 w fuel s.
Proof. intros H. unfold loop, bind, gets. rewrite H. reflexivity. Qed.

Lemma loop_at_start_9603 w fuel s :
  loop_step (mem s) = start_9603 -> loop w fuel s = case_start_9603 w s.
Proof. intros H. unfold loop, bind, gets. rewrite H. reflexivity. Qed.

Lemma loop_at_zzz w fuel s :
  loop_step (mem s) = zzz -> loop w fuel s = case_zzz w fuel s.
Proof. intros H. unfold loop, bind, gets. rewrite H. reflexivity. Qed.

Lemma loop_at_wake w fuel s :
  loop_step (mem s) = wake -> loop w fuel s = case_wake s.
Proof. intros H. unfold loop, bind, gets. rewrite H. reflexivity. Qed.

(** ** The interval timer *)

Lemma wrap_ulong_small z : 0 <= z < 2 ^ 32 -> wrap_ulong z = z.
Proof. intros H. unfold wrap_ulong. apply Z.mod_small. exact H. Qed.

Lemma wrap_ulong_range z : 0 <= wrap_ulong z < 2 ^ 32.
Proof. unfold wrap_ulong. apply Z.mod_pos_bound. reflexivity. Qed.

(** What one run of the interrupt routine does to the state. *)
Lemma am_rtc_isr_effect s :
  let c := wrap_ulong (seconds_count (mem s) + 1) in
  io (am_rtc_isr s) = io s /\
  same_but_timer (mem s) (mem (am_rtc_isr s)) /\
  (if INTERVAL (mem s) <=? c
   then interval_alarm (mem (am_rtc_isr s)) = true /\
        seconds_count (mem (am_rtc_isr s)) = 0
   else interval_alarm (mem (am_rtc_isr s)) = interval_alarm (mem s) /\
        seconds_count (mem (am_rtc_isr s)) = c).
Proof.
  unfold am_rtc_isr. simpl.
  destruct (INTERVAL (mem s) <=? wrap_ulong (seconds_count (mem s) + 1));
    simpl; unfold same_but_timer; simpl; intuition reflexivity.
Qed.

Lemma same_but_timer_refl g : same_but_timer g g.
Proof. unfold same_but_timer. intuition reflexivity. Qed.

Lemma same_but_timer_trans g1 g2 g3 :
  same_but_timer g1 g2 -> same_but_timer g2 g3 -> same_but_timer g1 g3.
Proof. unfold same_but_timer. intuition congruence. Qed.

(** Any number of alarms: the board and the other globals are untouched, and
    either the latch is set or the count went up by the number of alarms. *)
Lemma isr_iter_effect n s :
  timer_ok s ->
  let s1 := Nat.iter n am_rtc_isr s in
  io s1 = io s /\ same_but_timer (mem s) (mem s1) /\ timer_ok s1 /\
  (interval_alarm (mem s1) = true \/
   (interval_alarm (mem s1) = interval_alarm (mem s) /\
    seconds_count (mem s1) = seconds_count (mem s) + Z.of_nat n)).
Proof.
  intros Hok. induction n as [|n IH].
  - simpl. repeat split; try apply Hok; try apply same_but_timer_refl.
    right. split; [reflexivity|lia].
  - cbn zeta in IH |- *. rewrite Nat.iter_succ.
    set (s1 := Nat.iter n am_rtc_isr s) in *.
    destruct IH as (Hio & Hsame & [Hc Hi] & Hcases).
    pose proof (am_rtc_isr_effect s1) as (Eio & Esame & Ecases).
    assert (HI : INTERVAL (mem (am_rtc_isr s1)) = INTERVAL (mem s1)) by apply Esame.
    assert (Hw : wrap_ulong (seconds_count (mem s1) + 1) = seconds_count (mem s1) + 1)
      by (apply wrap_ulong_small; lia).
    rewrite Hw in Ecases.
    split; [congruence|]. split; [eapply same_but_timer_trans; eassumption|].
    destruct (INTERVAL (mem s1) <=? seconds_count (mem s1) + 1) eqn:Hle.
    + destruct Ecases as [Ea Es]. split; [|left; exact Ea].
      unfold timer_ok. rewrite HI, Es. lia.
    + destruct Ecases as [Ea Es]. apply Z.leb_gt in Hle. split.
      * unfold timer_ok. rewrite HI, Es. lia.
      * destruct Hcases as [Ht|[Ha Hs]]; [left; congruence|].
        right. split; [congruence|]. rewrite Es, Hs. lia.
Qed.

Lemma isr_iter_io n s : io (Nat.iter n am_rtc_isr s) = io s.
Proof.
  induction n as [|n IH]; [reflexivity|].
  rewrite Nat.iter_succ. destruct (am_rtc_isr_effect (Nat.iter n am_rtc_isr s)) as [E _].
  congruence.
Qed.

Lemma isr_iter_same n s : same_but_timer (mem s) (mem (Nat.iter n am_rtc_isr s)).
Proof.
  induction n as [|n IH]; [apply same_but_timer_refl|].
  rewrite Nat.iter_succ.
  destruct (am_rtc_isr_effect (Nat.iter n am_rtc_isr s)) as (_ & E & _).
  eapply same_but_timer_trans; eassumption.
Qed.

Lemma deep_sleep_run w s :
  deep_sleep w s =
  Some (tt, Nat.iter (wake_ticks w (tick (io s))) am_rtc_isr
              (on_io (fun b => set_tick (S (tick b)) b)
                 (emit (EvDeepSleep (pins (io s))) s))).
Proof. reflexivity. Qed.

#[export] Instance only_slept_preorder : PreOrder only_slept.
Proof.
  split.
  - intros s. repeat split. exists []. split; [reflexivity|]. intros e [].
  - intros s1 s2 s3 (Hp & Hc & n1 & Ht & Hn) (Hp' & Hc' & n2 & Ht' & Hn').
    split; [congruence|]. split; [congruence|].
    exists (n2 ++ n1). split.
    + rewrite Ht', Ht. apply app_assoc.
    + intros e He. apply in_app_or in He as [He|He].
      * rewrite <- Hp. auto.
      * auto.
Qed.

Lemma deep_sleep_only_slept w : stable only_slept (deep_sleep w).
Proof.
  intros s a s1 H. rewrite deep_sleep_run in H. injection H as _ <-.
  unfold only_slept. rewrite isr_iter_io. simpl.
  repeat split. exists [EvDeepSleep (pins (io s))]. split; [reflexivity|].
  intros e [<-|[]]. reflexivity.
Qed.

Lemma sleep_wait_only_slept w fuel : stable only_slept (sleep_wait w fuel).
Proof.
  apply stable_while; [typeclasses eauto|].
  apply stable_bind; [typeclasses eauto|apply deep_sleep_only_slept|].
  intros a. apply stable_ret. typeclasses eauto.
Qed.

Lemma deep_sleep_same w : stable (fun s s1 => same_but_timer (mem s) (mem s1)) (deep_sleep w).
Proof.
  intros s a s1 H. rewrite deep_sleep_run in H. injection H as _ <-.
  apply (isr_iter_same _ (on_io _ (emit _ s))).
Qed.


(** The wait returns once the alarms serviced reach the interval; wake-ups
    without an alarm only use fuel. *)
Lemma sleep_wait_returns w fuel : forall s,
  timer_ok s ->
  (interval_alarm (mem s) = false ->
   INTERVAL (mem s) - seconds_count (mem s) <= ticks_within w (tick (io s)) fuel) ->
  returns (sleep_wait w fuel) s.
Proof.
  induction fuel as [|f IH]; intros s Hok Hticks; unfold returns, sleep_wait;
    rewrite while_unfold; destruct (interval_alarm (mem s)) eqn:Ha; cbn [negb];
    try (do 2 eexists; reflexivity).
  - specialize (Hticks eq_refl). simpl in Hticks. destruct Hok. lia.
  - unfold bind at 1. rewrite deep_sleep_run. unfold ret at 1.
    set (s0 := on_io _ (emit _ s)).
    assert (Hok0 : timer_ok s0) by exact Hok.
    destruct (isr_iter_effect (wake_ticks w (tick (io s))) s0 Hok0)
      as (Hio & Hsame & Hok1 & Hcases).
    apply IH; [exact Hok1|]. intros Ha1.
    destruct Hcases as [Ht|[_ Hs]]; [congruence|].
    assert (HI : INTERVAL (mem (Nat.iter (wake_ticks w (tick (io s))) am_rtc_isr s0))
                 = INTERVAL (mem s)) by apply Hsame.
    rewrite HI, Hs, Hio. specialize (Hticks eq_refl). simpl in Hticks |- *. lia.
Qed.

(** ** The bounded waits return *)

Lemma elapsed_exact c0 c :
  0 <= c - c0 < 2 ^ 32 -> wrap_ulong (wrap_ulong c - wrap_ulong c0) = c - c0.
Proof.
  intros H. unfold wrap_ulong. rewrite <- Zminus_mod. apply Z.mod_small. exact H.
Qed.

(** A loop that runs while less than [T] milliseconds have passed since
    [s0], and whose full iterations take 101 ms, ends within
    [(T + 100) / 101] iterations. *)
Lemma wait_loop_returns (T : Z) cond body s0 fuel :
  0 <= T -> T + 100 < 2 ^ 32 ->
  (forall s, cond s = true -> wrap_ulong (millis s - millis s0) < T) ->
  (forall s, exists b s1, body s = Some (b, s1) /\
                          (b = false -> clock (io s1) = clock (io s) + 101)) ->
  (T + 100) / 101 < Z.of_nat fuel ->
  returns (while fuel cond body) s0.
Proof.
  intros HT Hmax Hcond Hbody Hfuel.
  apply (while_returns
           (fun s => 0 <= clock (io s) - clock (io s0) <= T + 100)
           (fun s => (T + 100 - (clock (io s) - clock (io s0))) / 101)).
  - intros s Hs Hc. apply Hcond in Hc. unfold millis in Hc.
    rewrite elapsed_exact in Hc by lia.
    split; [apply Z.div_pos; lia|].
    destruct (Hbody s) as (b & s1 & Hb & Hclock). exists b, s1. split; [exact Hb|].
    intros ->. rewrite (Hclock eq_refl). split; [lia|].
    replace (T + 100 - (clock (io s) + 101 - clock (io s0)))
      with ((T + 100 - (clock (io s) - clock (io s0))) + (-1) * 101) by ring.
    rewrite Z.div_add by lia. lia.
  - lia.
  - rewrite Z.sub_diag, Z.sub_0_r. exact Hfuel.
Qed.

(** A full iteration of a polling body takes 101 ms. *)
Ltac body_takes_101 :=
  let s := fresh "s" in
  intros s;
  lazymatch goal with
  | |- exists b s1, ?body s = Some (b, s1) /\ _ =>
      let Ht := fresh "Ht" in
      let Hb := fresh "Hb" in
      let b := fresh "b" in
      let s1 := fresh "s" in
      assert (Ht : total body) by total_auto;
      destruct (Ht s) as (b & s1 & Hb); exists b, s1; split; [exact Hb|];
      inv_run Hb; intros; try discriminate; simpl; ring
  end.

(** What is left of a case is straight-line code. *)
Ltac returns_total :=
  lazymatch goal with
  | |- returns ?m ?s =>
      let H := fresh "Ht" in
      assert (H : total m) by total_auto; exact (H s)
  end.

Lemma case_read_GPS_returns w fuel s :
  2971 < Z.of_nat fuel -> returns (case_read_GPS w fuel) s.
Proof.
  intros Hfuel. unfold case_read_GPS.
  apply returns_bind; [apply total_modify|]. intros a s1 H1.
  apply returns_bind; [apply total_gets|]. intros tnow s2 H2. inv_run H2.
  apply returns_bind.
  - apply (wait_loop_returns (GNSS_timeout * 60 * 1000));
      [vm_compute; discriminate|vm_compute; reflexivity| | |].
    + intros s0 Hc. apply andb_prop in Hc as [_ Hc]. apply Z.ltb_lt in Hc. exact Hc.
    + body_takes_101.
    + change ((GNSS_timeout * 60 * 1000 + 100) / 101) with 2971. exact Hfuel.
  - intros u s3 _. returns_total.
Qed.

Lemma case_start_LTC3225_returns w fuel s :
  1189 < Z.of_nat fuel -> returns (case_start_LTC3225 w fuel) s.
Proof.
  intros Hfuel. unfold case_start_LTC3225.
  apply returns_bind; [returns_total|]. intros a0 s0 _.
  apply returns_bind; [returns_total|]. intros a1 s1 _.
  apply returns_bind; [returns_total|]. intros a2 s2 _.
  apply returns_bind; [apply total_gets|]. intros tnow s3 H3. inv_run H3.
  apply returns_bind.
  - apply (wait_loop_returns (CHG_timeout * 60 * 1000));
      [vm_compute; discriminate|vm_compute; reflexivity| | |].
    + intros s0' Hc. apply andb_prop in Hc as [_ Hc]. apply Z.ltb_lt in Hc. exact Hc.
    + body_takes_101.
    + change ((CHG_timeout * 60 * 1000 + 100) / 101) with 1189. exact Hfuel.
  - intros u s4 _. returns_total.
Qed.

Lemma case_wait_LTC3225_returns w fuel s :
  100 < Z.of_nat fuel -> returns (case_wait_LTC3225 w fuel) s.
Proof.
  intros Hfuel. unfold case_wait_LTC3225.
  apply returns_bind; [apply total_gets|]. intros tnow s3 H3. inv_run H3.
  apply returns_bind.
  - apply (wait_loop_returns (TOPUP_timeout * 1000));
      [vm_compute; discriminate|vm_compute; reflexivity| | |].
    + intros s0' Hc. apply Z.ltb_lt in Hc. exact Hc.
    + body_takes_101.
    + change ((TOPUP_timeout * 1000 + 100) / 101) with 100. exact Hfuel.
  - intros u s4 _. returns_total.
Qed.

(** Every case but the deep sleep returns, given fuel for the longest wait. *)
Lemma loop_returns w fuel s :
  2971 < Z.of_nat fuel -> loop_step (mem s) <> zzz -> returns (loop w fuel) s.
Proof.
  intros Hfuel Hz. unfold loop.
  apply returns_bind; [apply total_gets|]. intros step s1 H. inv_run H.
  repeat lazymatch goal with
    | |- returns (if ?b then _ else _) _ => destruct b eqn:?
    end.
  - returns_total.
  - returns_total.
  - apply case_read_GPS_returns. exact Hfuel.
  - returns_total.
  - apply case_start_LTC3225_returns. lia.
  - apply case_wait_LTC3225_returns. lia.
  - returns_total.
  - apply Z.eqb_eq in Heqb6. contradiction.
  - returns_total.
  - returns_total.
Qed.

(** ** Properties of the specification *)

Lemma run_passes_spec r P :
  run_passes r P = true -> exists s', r = Some (tt, s') /\ P s' = true.
Proof.
  destruct r as [[[] s']|]; simpl; [|discriminate]. intros H. exists s'. auto.
Qed.

(** C6.  Whenever the GNSS handshake [myGPS.begin] fails in [start_GPS]
    (it is attempted once the voltage sampled after power-up is not low),
    the step returns with every fix variable at its default (latitude 0.0,
    longitude 0.0, altitude 0, speed 0.0, satellites 0, course 0, pdop 0,
    year 1970, month 1, day 1, hour 0, minute 0, second 0, milliseconds 0),
    with the GNSS enable pin back at HIGH as a pulled-up input, and with
    [read_pressure] as the next step. *)
Theorem C6_gnss_handshake_failure w fuel s :
  loop_step (mem s) = start_GPS ->
  below_VBAT_LOW (vbat_of_adc (adc w (tick (io s)))) = false ->
  gps_begin w (S (tick (io s))) = false ->
  exists s',
    loop w fuel s = Some (tt, s') /\
    fixrec (mem s') =
      {| latitude := 0; longitude := 0; altitude := 0; speed := 0; satellites := 0;
         course := 0; pdop := 0; year := 1970; month := 1; day := 1; hour := 0;
         minute := 0; second := 0; milliseconds := 0 |} /\
    level (pins (io s')) gnssEN = HIGH /\
    mode (pins (io s')) gnssEN = INPUT_PULLUP /\
    loop_step (mem s') = read_pressure.
Proof.
  intros Hstep Hv Hb. rewrite (loop_at_start_GPS _ _ _ Hstep).
  assert (Ht : total (case_start_GPS w)) by (unfold case_start_GPS; total_auto).
  destruct (Ht s) as ([] & s' & Hrun). exists s'. split; [exact Hrun|].
  expand_in Hrun. inv_run Hrun; unfold low_voltage in *; simpl in *.
  - congruence.
  - repeat split.
  - rewrite Hb in Hif0. discriminate.
Qed.

Lemma C6_witness :
  loop_step (mem (at_step start_GPS)) = start_GPS /\
  below_VBAT_LOW (vbat_of_adc (adc no_gnss (tick (io (at_step start_GPS))))) = false /\
  gps_begin no_gnss (S (tick (io (at_step start_GPS)))) = false /\
  exists s',
    loop no_gnss 0 (at_step start_GPS) = Some (tt, s') /\
    fixrec (mem s') =
      {| latitude := 0; longitude := 0; altitude := 0; speed := 0; satellites := 0;
         course := 0; pdop := 0; year := 1970; month := 1; day := 1; hour := 0;
         minute := 0; second := 0; milliseconds := 0 |} /\
    level (pins (io s')) gnssEN = HIGH /\
    mode (pins (io s')) gnssEN = INPUT_PULLUP /\
    loop_step (mem s') = read_pressure.
Proof.
  assert (H1 : loop_step (mem (at_step start_GPS)) = start_GPS) by reflexivity.
  assert (H2 : below_VBAT_LOW
                 (vbat_of_adc (adc no_gnss (tick (io (at_step start_GPS))))) = false)
    by (vm_compute; reflexivity).
  assert (H3 : gps_begin no_gnss (S (tick (io (at_step start_GPS)))) = false)
    by reflexivity.
  exact (conj H1 (conj H2 (conj H3
           (C6_gnss_handshake_failure no_gnss 0 (at_step start_GPS) H1 H2 H3)))).
Defined.

(** C9.  In [read_pressure] the sensor handshake is tried and, if it
    fails, tried once more.  When both fail (two interactions in all),
    pressure and temperature are set to 0.0; when one succeeds, the
    temperature is read first and the pressure after it, the pressure being
    the reading in hPa times 100.0, rounded to a float.  The next step is
    [start_LTC3225] in every case.  [tick] counts the interactions with the
    outside world, so [k + n] is the [n]-th interaction of this step. *)
Theorem C9_read_pressure w fuel s :
  loop_step (mem s) = read_pressure ->
  let k := tick (io s) in
  exists s',
    loop w fuel s = Some (tt, s') /\
    loop_step (mem s') = start_LTC3225 /\
    if baro_begin w k then
      tick (io s') = (k + 3)%nat /\
      tempC (mem s') = baro_temperature w (k + 1) /\
      pascals (mem s') = FP.to_float (FP.dmul (baro_pressure w (k + 2)) 100)
    else if baro_begin w (k + 1) then
      tick (io s') = (k + 4)%nat /\
      tempC (mem s') = baro_temperature w (k + 2) /\
      pascals (mem s') = FP.to_float (FP.dmul (baro_pressure w (k + 3)) 100)
    else
      tick (io s') = (k + 2)%nat /\
      pascals (mem s') = 0%Q /\ tempC (mem s') = 0%Q.
Proof.
  intros Hstep k. rewrite (loop_at_read_pressure _ _ _ Hstep).
  assert (Ht : total (case_read_pressure w)) by (unfold case_read_pressure; total_auto).
  destruct (Ht s) as ([] & s' & Hrun). exists s'. split; [exact Hrun|].
  expand_in Hrun. subst k.
  replace (tick (io s) + 1)%nat with (S (tick (io s))) by lia.
  replace (tick (io s) + 2)%nat with (S (S (tick (io s)))) by lia.
  replace (tick (io s) + 3)%nat with (S (S (S (tick (io s))))) by lia.
  replace (tick (io s) + 4)%nat with (S (S (S (S (tick (io s)))))) by lia.
  inv_run Hrun; simpl in *; try discriminate;
    repeat match goal with
      | H : negb _ = true |- _ => apply negb_true_iff in H
      | H : negb _ = false |- _ => apply negb_false_iff in H
      end;
    repeat match goal with
      | H : baro_begin _ _ = _ |- _ => rewrite H; clear H
      end;
    repeat split.
Qed.

Lemma C9_witness :
  loop_step (mem (at_step read_pressure)) = read_pressure /\
  exists s',
    loop shy_sensor 0 (at_step read_pressure) = Some (tt, s') /\
    loop_step (mem s') = start_LTC3225 /\
    tick (io s') = 4%nat /\
    tempC (mem s') = baro_temperature shy_sensor 2 /\
    pascals (mem s') = FP.to_float (FP.dmul (baro_pressure shy_sensor 3) 100).
Proof.
  split; [reflexivity|].
  destruct (C9_read_pressure shy_sensor 0 (at_step read_pressure) eq_refl)
    as (s' & Hrun & Hnext & Hrest).
  exists s'. split; [exact Hrun|]. split; [exact Hnext|]. exact Hrest.
Defined.

(** C4, as the specification words it, fails: a [float] cannot hold
    51.123456, the nearest one is 51.12345504..., and six decimals of it
    read 51.123455. *)
Lemma C4_counterexample :
  String.prefix
    "20201215093000,51.123456,-1.234567,123.00,1.50,90,2,8,101300,15.5,4.05,7"
    (format_message sample_message_state) = false.
Proof. vm_compute. reflexivity. Qed.

(** C4, amended.  The message is a function of the fix variables, pressure,
    temperature, battery voltage and iteration counter alone, and for
    2020-12-15 09:30:00, latitude 51.123456, longitude -1.234567, altitude
    123, speed 1.50, course 90, pdop 2, 8 satellites, 101300 Pa, 15.5
    degrees, 4.05 V and count 7, each decimal held in a float, it is
    [20201215093000,51.123455,-1.234567,123.00,1.50,90,2,8,101300,15.5,4.05,7]. *)
Theorem C4_message_format :
  (forall s1 s2, same_message_fields s1 s2 -> format_message s1 = format_message s2) /\
  format_message sample_message_state =
    "20201215093000,51.123455,-1.234567,123.00,1.50,90,2,8,101300,15.5,4.05,7"%string.
Proof.
  split.
  - intros s1 s2 (Hf & Hp & Ht & Hv & Hc). unfold format_message.
    rewrite Hf, Hp, Ht, Hv, Hc. reflexivity.
  - vm_compute. reflexivity.
Qed.

(** 51.123456 lies strictly between two neighbouring floats, the
    24-bit significands 13401707 and 13401708 at exponent -18, and their six
    decimals read 51.123455 and 51.123459: no [float] latitude prints as
    51.123456. *)
Lemma no_float_reads_51_123456 :
  (FP.to_float (13401707 # 262144) == 13401707 # 262144)%Q /\
  (FP.to_float (13401708 # 262144) == 13401708 # 262144)%Q /\
  2 ^ 23 <= 13401707 < 2 ^ 24 /\ 262144 = 2 ^ 18 /\
  (13401707 # 262144 < 51123456 # 1000000)%Q /\
  (51123456 # 1000000 < 13401708 # 262144)%Q /\
  Fmt.dtostrf (13401707 # 262144) 8 6 = "51.123455"%string /\
  Fmt.dtostrf (13401708 # 262144) 8 6 = "51.123459"%string.
Proof. repeat split; vm_compute; first [reflexivity | discriminate]. Qed.

(** The fix captured from the receiver's raw latitude 511234560 (in units of
    1e-7 degrees) is the float of the example. *)
Lemma captured_latitude :
  FP.to_float (FP.ddiv (FP.float_of_int 511234560) 10000000) = latitude sample_fix.
Proof. vm_compute. reflexivity. Qed.

(** [case zzz] is its wait, entered from the state that [power_down] leaves. *)
Lemma power_down_all_off s :
  exists s0,
    power_down s = Some (tt, s0) /\ all_off (pins (io s0)) /\ mem s0 = mem s /\
    tick (io s0) = tick (io s) /\
    (exists new, trace (io s0) = new ++ trace (io s) /\
                 forall p, ~ In (EvDeepSleep p) new) /\
    (all_off (pins (io s)) ->
     forall q, q <> LED -> level (pins (io s0)) q = level (pins (io s)) q).
Proof.
  assert (Ht : total power_down) by total_auto.
  destruct (Ht s) as ([] & s0 & Hrun). exists s0. split; [exact Hrun|].
  inv_run Hrun. simpl. split; [repeat split|]. split; [reflexivity|].
  split; [reflexivity|]. split.
  - eexists [_; _; _; _; _; _; _]. split; [reflexivity|].
    intros p Hin. simpl in Hin.
    repeat (destruct Hin as [Hin|Hin]; [discriminate|]). exact Hin.
  - intros (Hg & _ & Hi & Hs & Hc & Hb) q Hq.
    unfold LED, busVoltageMonEN, superCapChgEN, iridiumPwrEN, iridiumSleep, gnssEN in *.
    repeat lazymatch goal with
      | |- context [q =? ?n] => destruct (Z.eqb_spec q n); [subst q|]
      end; auto; congruence.
Qed.

(** C7.  Whatever the state in which [zzz] is entered, the step first
    reaches a state in which every peripheral power domain is off (GNSS
    enable HIGH on a pulled-up input, modem power, modem ON/OFF, charger
    enable and voltage monitor LOW) without having slept, and only then
    runs its low-power wait.  So in a run that returns, every entry into
    deep sleep and the end of the step see all domains off.  When the
    domains were off already, the power-down changes no pin level except
    possibly the LED's. *)
Theorem C7_all_off_before_sleep w fuel s :
  loop_step (mem s) = zzz ->
  exists s0,
    power_down s = Some (tt, s0) /\
    all_off (pins (io s0)) /\
    loop w fuel s =
      (sleep_wait w fuel ;;
       assign (set_interval_alarm false) ;;
       assign (set_loop_step wake)) s0 /\
    (forall s',
       loop w fuel s = Some (tt, s') ->
       all_off (pins (io s')) /\
       exists new, trace (io s') = new ++ trace (io s) /\
                   forall p, In (EvDeepSleep p) new -> all_off p) /\
    (all_off (pins (io s)) ->
     forall q, q <> LED -> level (pins (io s0)) q = level (pins (io s)) q).
Proof.
  intros Hstep. rewrite (loop_at_zzz _ _ _ Hstep).
  destruct (power_down_all_off s) as (s0 & Hrun & Hoff & _ & _ & (n0 & Ht0 & Hn0) & Hidem).
  exists s0. split; [exact Hrun|]. split; [exact Hoff|].
  assert (Hcase : case_zzz w fuel s =
                  (sleep_wait w fuel ;;
                   assign (set_interval_alarm false) ;;
                   assign (set_loop_step wake)) s0).
  { unfold case_zzz. rewrite (bind_run _ _ _ _ _ Hrun). reflexivity. }
  split; [exact Hcase|]. split; [|exact Hidem].
  intros s' Hs'. rewrite Hcase in Hs'.
  apply bind_Some in Hs' as (u & s1 & Hwait & Hs'). inv_run Hs'.
  apply sleep_wait_only_slept in Hwait as (Hp & _ & n1 & Ht1 & Hn1).
  simpl. rewrite Hp. split; [exact Hoff|].
  exists (n1 ++ n0). split.
  - rewrite Ht1, Ht0. apply app_assoc.
  - intros p Hin. apply in_app_or in Hin as [Hin|Hin].
    + apply Hn1 in Hin. injection Hin as ->. exact Hoff.
    + destruct (Hn0 _ Hin).
Qed.

(** [zzz] returns once the alarms serviced reach the interval. *)
Lemma case_zzz_returns w fuel s :
  timer_ok s ->
  (interval_alarm (mem s) = false ->
   INTERVAL (mem s) - seconds_count (mem s) <= ticks_within w (tick (io s)) fuel) ->
  returns (case_zzz w fuel) s.
Proof.
  intros Hok Hticks.
  destruct (power_down_all_off s) as (s0 & Hrun & _ & Hmem & Htick & _).
  unfold case_zzz. apply returns_bind; [do 2 eexists; exact Hrun|].
  intros a s1 H1. rewrite Hrun in H1. injection H1 as _ <-.
  apply returns_bind.
  - apply sleep_wait_returns.
    + unfold timer_ok. rewrite Hmem. exact Hok.
    + rewrite Hmem, Htick. exact Hticks.
  - intros u s2 _. returns_total.
Qed.

Lemma C7_witness :
  loop_step (mem (at_step zzz)) = zzz /\
  exists s0 s',
    power_down (at_step zzz) = Some (tt, s0) /\
    all_off (pins (io s0)) /\
    loop restless 1800 (at_step zzz) = Some (tt, s') /\
    all_off (pins (io s')) /\
    exists new, trace (io s') = new ++ trace (io (at_step zzz)) /\
                forall p, In (EvDeepSleep p) new -> all_off p.
Proof.
  split; [reflexivity|].
  destruct (C7_all_off_before_sleep restless 1800 (at_step zzz) eq_refl)
    as (s0 & Hrun & Hoff & _ & Hall & _).
  assert (Hret : returns (loop restless 1800) (at_step zzz)).
  { unfold returns. rewrite (loop_at_zzz restless 1800 (at_step zzz) eq_refl).
    apply case_zzz_returns.
    - vm_compute. repeat split; congruence.
    - intros _. vm_compute. congruence. }
  destruct Hret as ([] & s' & Hs').
  exists s0, s'. split; [exact Hrun|]. split; [exact Hoff|]. split; [exact Hs'|].
  exact (Hall s' Hs').
Defined.



(** ** The iteration counter *)

#[export] Instance adds_preorder P : PreOrder (adds P).
Proof.
  split.
  - intros s. exists []. split; [reflexivity|constructor].
  - intros s1 s2 s3 (n1 & H1 & F1) (n2 & H2 & F2). exists (n2 ++ n1). split.
    + rewrite H2, H1. apply app_assoc.
    + apply Forall_app. split; assumption.
Qed.

(** A state update adds no event or one event. *)
Ltac adds_with tac :=
  first
    [ exists []; split; [reflexivity|constructor]
    | eexists [_]; split; [reflexivity|constructor; [tac|constructor]] ].

Ltac counter_frame :=
  split; [reflexivity|adds_with ltac:(exact I)].

Lemma wrap_long_small z : - 2 ^ 31 <= z < 2 ^ 31 -> wrap_long z = z.
Proof. intros H. unfold wrap_long. rewrite Z.mod_small; lia. Qed.

Lemma modem_call_counter_kept w : stable counter_kept (modem_call w).
Proof. unfold counter_kept. stable_with counter_frame. Qed.

Lemma peel_app {A} (n rest m t : list A) : rest = m ++ t -> n ++ rest = (n ++ m) ++ t.
Proof. intros ->. apply app_assoc. Qed.

Lemma peel_cons {A} (e : A) (rest m t : list A) : rest = m ++ t -> e :: rest = (e :: m) ++ t.
Proof. intros ->. reflexivity. Qed.

Lemma peel_nil {A} (t : list A) : t = [] ++ t.
Proof. reflexivity. Qed.

(** Show [l = ?new ++ t] for a list [l] that ends in [t]. *)
Ltac peel := repeat first [eapply peel_app | eapply peel_cons]; apply peel_nil.

(** Rewrite the trace of the goal down to the trace of the first state. *)
Ltac trace_back :=
  repeat match goal with
    | H : trace (io _) = _ |- _ => rewrite H; clear H
    end.

Lemma blink_counter_kept n :
  stable counter_kept
    (repeat_n n (digitalWrite LED HIGH ;; delay 100 ;; digitalWrite LED LOW ;; delay 100)).
Proof. unfold counter_kept. stable_with counter_frame. Qed.

(** [start_9603] returns, always with [zzz] as the next step; the counter
    goes up by one when a text was handed to the modem and stays otherwise. *)
Lemma start_9603_counter w s :
  exists s' new,
    case_start_9603 w s = Some (tt, s') /\
    trace (io s') = new ++ trace (io s) /\
    ((exists msg, In (EvSend msg) new) /\
     iterationCounter (mem s') = wrap_long (iterationCounter (mem s) + 1) \/
     Forall no_send new /\
     iterationCounter (mem s') = iterationCounter (mem s)) /\
    loop_step (mem s') = zzz.
Proof.
  assert (Ht : total (case_start_9603 w)) by total_auto.
  destruct (Ht s) as ([] & s' & Hrun). exists s'.
  pose proof Hrun as Hcopy. expand_in Hcopy. inv_run Hcopy.
  all: repeat match goal with
       | H : modem_call _ _ = Some _ |- _ =>
           apply modem_call_counter_kept in H as [?Hc (?n & ?Ht & ?Hn)]
       | H : sendSBDText _ _ _ = Some _ |- _ => expand_in H; inv_run H
       | H : repeat_n _ _ _ = Some _ |- _ =>
           apply blink_counter_kept in H as [?Hc (?n & ?Ht & ?Hn)]
       end; unfold keeps in *; simpl in *.
  all: eexists; split; [exact Hrun|]; split; [trace_back; peel|];
    split; [|reflexivity].
  - right. split; [|congruence].
    repeat (apply Forall_app; split); repeat constructor; assumption.
  - left. split; [|congruence].
    eexists. rewrite ?in_app_iff. simpl. rewrite ?in_app_iff. simpl.
    repeat first [left; reflexivity | right].
  - left. split; [|congruence].
    eexists. rewrite ?in_app_iff. simpl. rewrite ?in_app_iff. simpl.
    repeat first [left; reflexivity | right].
Qed.

(** The deep sleep keeps what the interrupt routine keeps. *)
Lemma deep_sleep_keeps {X} (f : Globals -> X) w :
  (forall g g', same_but_timer g g' -> f g' = f g) ->
  stable (keeps (fun s => f (mem s))) (deep_sleep w).
Proof. intros Hf s a s1 H. apply Hf. exact (deep_sleep_same w _ _ _ H). Qed.

Lemma deep_sleep_keeps_counter w :
  stable (keeps (fun s => iterationCounter (mem s))) (deep_sleep w).
Proof. apply deep_sleep_keeps. intros g g' H. apply H. Qed.

#[export] Hint Resolve deep_sleep_keeps_counter : frames.

(** Take the run of [loop] to the run of the case it selects. *)
Ltac loop_cases H :=
  expand_in H;
  let step := fresh "step" in
  let s0 := fresh "s" in
  let Hg := fresh "Hg" in
  apply bind_Some in H as (step & s0 & Hg & H);
  apply gets_Some in Hg as [-> ->];
  repeat lazymatch type of H with
    | (if ?b then _ else _) _ = Some _ =>
        let E := fresh "Hstep" in
        destruct b eqn:E; [apply Z.eqb_eq in E|apply Z.eqb_neq in E]
    end.

Lemma other_cases_keep_counter w fuel s s' :
  loop_step (mem s) <> start_9603 ->
  loop w fuel s = Some (tt, s') ->
  iterationCounter (mem s') = iterationCounter (mem s).
Proof.
  intros Hstep Hrun.
  assert (Hk : forall (m : M unit),
             stable (keeps (fun s => iterationCounter (mem s))) m ->
             m s = Some (tt, s') ->
             iterationCounter (mem s') = iterationCounter (mem s))
    by (intros m Hm H; exact (Hm _ _ _ H)).
  loop_cases Hrun; try contradiction; revert Hrun; apply Hk; stable_with frame.
Qed.

(** C5, as the specification words it, fails: when [modem.begin] does not
    succeed, [start_9603] completes, goes on to [zzz], and the counter has
    not moved. *)
Lemma C5_counterexample :
  exists s',
    loop no_modem 0 (at_step start_9603) = Some (tt, s') /\
    loop_step (mem s') = zzz /\
    iterationCounter (mem s') = iterationCounter (mem (at_step start_9603)).
Proof.
  destruct (run_passes_spec (loop no_modem 0 (at_step start_9603))
              (fun s' => (loop_step (mem s') =? zzz)
                         && (iterationCounter (mem s') =?
                             iterationCounter (mem (at_step start_9603)))))
    as (s' & Hrun & Hp); [vm_compute; reflexivity|].
  apply andb_prop in Hp as [H1 H2]. apply Z.eqb_eq in H1, H2. eauto.
Qed.

(** ** The bounded waits and the voltage *)

(** A loop of polling rounds ends without a low sample, or on its first
    low sample and at the time of that sample. *)
Lemma poll_loop_samples cond body :
  (forall s b s1, body s = Some (b, s1) -> polled s b s1) ->
  forall fuel s0 u s1,
    while fuel cond body s0 = Some (u, s1) ->
    samples_ok_since s0 s1 \/ stopped_on_low s0 s1.
Proof.
  intros Hbody fuel s0 u s1 Hrun.
  apply (while_inv (samples_ok_since s0) (stopped_on_low s0)) in Hrun.
  - destruct Hrun as [[H _]|H]; auto.
  - intros s b s2 (new & Ht & Hok) _ Hb.
    destruct (Hbody _ _ _ Hb) as (t & n & Ht2 & Hn & Hlow & Hclock).
    destruct b.
    + split; [auto|]. exists (n ++ new). split.
      * rewrite Ht2, Ht. apply app_assoc.
      * intros t' v' Hin Hv. apply in_app_or in Hin as [Hin|Hin].
        -- destruct (Hn _ _ Hin) as [-> _]. symmetry. auto.
        -- rewrite (Hok _ _ Hin) in Hv. discriminate.
    + exists (n ++ new). split.
      * rewrite Ht2, Ht. apply app_assoc.
      * intros t' v' Hin. apply in_app_or in Hin as [Hin|Hin].
        -- destruct (Hn _ _ Hin) as [_ ->]. symmetry. exact Hlow.
        -- eauto.
  - exists []. split; [reflexivity|]. intros t v [].
Qed.

(** Show [polled] for a body whose run [H] has been taken apart. *)
Ltac polled_run :=
  unfold polled; simpl;
  eexists; eexists; split; [peel|]; split;
  [ intros t' v' Hin; simpl in Hin;
    repeat (destruct Hin as [Hin|Hin]; [try discriminate|]);
    [injection Hin as <- <-; split; reflexivity|destruct Hin]
  | split; [try assumption; symmetry; assumption|intros; try discriminate; reflexivity] ].

Lemma read_GPS_body_polled w s b s1 :
  (ft <- ask w (fun w k => getFixType (gps w k)) ;;
   assign (set_fixType ft) ;;
   get_vbat w ;;
   low <- gets low_voltage ;;
   if low then ret true
   else
     flash_LED 1000 ;;
     delay 100 ;;
     ret false) s = Some (b, s1) ->
  polled s b s1.
Proof. intros H. inv_run H; polled_run. Qed.

Lemma start_LTC3225_body_polled w s b s1 :
  (pg <- ask w pgood_pin ;;
   assign (set_PGOOD pg) ;;
   get_vbat w ;;
   low <- gets low_voltage ;;
   if low then ret true
   else
     flash_LED 500 ;;
     delay 100 ;;
     ret false) s = Some (b, s1) ->
  polled s b s1.
Proof. intros H. inv_run H; polled_run. Qed.

Lemma wait_LTC3225_body_polled w s b s1 :
  (get_vbat w ;;
   low <- gets low_voltage ;;
   if low then ret true
   else
     flash_LED 500 ;;
     delay 100 ;;
     ret false) s = Some (b, s1) ->
  polled s b s1.
Proof. intros H. inv_run H; polled_run. Qed.

(** From the loop to the step around it. *)
Lemma wait_case_samples s pre s0 s1 extra s' :
  trace (io s0) = pre ++ trace (io s) -> no_vbat pre ->
  samples_ok_since s0 s1 \/ stopped_on_low s0 s1 ->
  trace (io s') = extra ++ trace (io s1) -> no_vbat extra ->
  clock (io s') = clock (io s1) ->
  (low_voltage s1 = true -> loop_step (mem s') = zzz) ->
  exists new,
    trace (io s') = new ++ trace (io s) /\
    forall t v, In (EvVbat t v) new -> below_VBAT_LOW v = true ->
                clock (io s') = t /\ loop_step (mem s') = zzz.
Proof.
  intros Hpre Hnpre Hloop Hextra Hnextra Hclock Hnext.
  assert (Hshape : exists n, trace (io s1) = n ++ trace (io s0))
    by (destruct Hloop as [(n & H & _)|(_ & n & H & _)]; eauto).
  destruct Hshape as (n & Hn).
  exists (extra ++ n ++ pre). split.
  - rewrite Hextra, Hn, Hpre. rewrite <- !app_assoc. reflexivity.
  - intros t v Hin Hv.
    apply in_app_or in Hin as [Hin|Hin]; [destruct (Hnextra _ _ Hin)|].
    apply in_app_or in Hin as [Hin|Hin]; [|destruct (Hnpre _ _ Hin)].
    destruct Hloop as [(n1 & H1 & Hok)|(Hlow & n1 & H1 & Hstop)].
    + rewrite H1 in Hn. apply app_inv_tail in Hn. subst n1.
      rewrite (Hok _ _ Hin) in Hv. discriminate.
    + rewrite H1 in Hn. apply app_inv_tail in Hn. subst n1.
      split; [|auto]. rewrite Hclock. symmetry. eauto.
Qed.

Ltac no_vbat_list :=
  intros ? ? Hin; simpl in Hin;
  repeat (destruct Hin as [Hin|Hin]; [discriminate|]); exact Hin.

(** The run [H] keeps the projection [proj] of the state. *)
Ltac kept_by H proj :=
  lazymatch type of H with
  | ?m ?s = Some (?a, ?s1) =>
      let Hs := fresh "Hstable" in
      let Hk := fresh "Hkept" in
      assert (Hs : stable (keeps proj) m) by stable_with frame;
      pose proof (Hs s a s1 H) as Hk; clear Hs;
      unfold keeps in Hk; simpl in Hk
  end.

(** Close a goal [low_voltage_wins s s'] for a state [s'] that the code
    after the loop builds from the state [s1] after the loop. *)
Ltac after_loop s0 s1 Hsamples :=
  split;
  [ intros Hlow; unfold low_voltage in *; simpl in *;
    first [congruence | split; [reflexivity|assumption]]
  | eapply (wait_case_samples _ _ s0 s1);
    [ simpl; peel
    | no_vbat_list
    | exact Hsamples
    | simpl; peel
    | no_vbat_list
    | reflexivity
    | first [reflexivity | intros; congruence] ] ].

Lemma case_read_GPS_low_voltage w fuel s s' :
  case_read_GPS w fuel s = Some (tt, s') -> low_voltage_wins s s'.
Proof.
  intros Hrun. expand_in Hrun.
  apply bind_Some in Hrun as (a0 & s0 & H0 & Hrun). inv_run H0.
  apply bind_Some in Hrun as (tnow & s0' & H0 & Hrun). inv_run H0.
  apply bind_Some in Hrun as (u & s1 & Hloop & Hrun).
  pose proof (poll_loop_samples _ _ (read_GPS_body_polled w) _ _ _ _ Hloop) as Hsamples.
  kept_by Hloop (fun s => fixrec (mem s)).
  inv_run Hrun;
    after_loop (on_mem (set_fixType 0) s) s1 Hsamples.
Qed.

Lemma case_start_LTC3225_low_voltage w fuel s s' :
  case_start_LTC3225 w fuel s = Some (tt, s') -> low_voltage_wins s s'.
Proof.
  intros Hrun. expand_in Hrun.
  apply bind_Some in Hrun as (a0 & s0 & H0 & Hrun). inv_run H0.
  apply bind_Some in Hrun as (a1 & s0 & H0 & Hrun). inv_run H0.
  apply bind_Some in Hrun as (a2 & s0 & H0 & Hrun). inv_run H0.
  apply bind_Some in Hrun as (tnow & s0' & H0 & Hrun). inv_run H0.
  apply bind_Some in Hrun as (u & s1 & Hloop & Hrun).
  pose proof (poll_loop_samples _ _ (start_LTC3225_body_polled w) _ _ _ _ Hloop)
    as Hsamples.
  kept_by Hloop (fun s => fixrec (mem s)).
  lazymatch type of Hloop with
  | while _ _ _ ?s0 = _ => inv_run Hrun; after_loop s0 s1 Hsamples
  end.
Qed.

Lemma case_wait_LTC3225_low_voltage w fuel s s' :
  case_wait_LTC3225 w fuel s = Some (tt, s') -> low_voltage_wins s s'.
Proof.
  intros Hrun. expand_in Hrun.
  apply bind_Some in Hrun as (tnow & s0' & H0 & Hrun). inv_run H0.
  apply bind_Some in Hrun as (u & s1 & Hloop & Hrun).
  pose proof (poll_loop_samples _ _ (wait_LTC3225_body_polled w) _ _ _ _ Hloop)
    as Hsamples.
  kept_by Hloop (fun s => fixrec (mem s)).
  inv_run Hrun; after_loop s s1 Hsamples.
Qed.

(** The three cases with a bounded wait. *)
Lemma wait_cases w fuel s :
  2971 < Z.of_nat fuel ->
  loop_step (mem s) = read_GPS \/ loop_step (mem s) = start_LTC3225 \/
  loop_step (mem s) = wait_LTC3225 ->
  exists s', loop w fuel s = Some (tt, s') /\ low_voltage_wins s s'.
Proof.
  intros Hfuel Hstep.
  destruct (loop_returns w fuel s Hfuel) as ([] & s' & Hrun).
  { destruct Hstep as [H|[H|H]]; rewrite H; discriminate. }
  exists s'. split; [exact Hrun|].
  destruct Hstep as [H|[H|H]].
  - rewrite (loop_at_read_GPS _ _ _ H) in Hrun.
    exact (case_read_GPS_low_voltage _ _ _ _ Hrun).
  - rewrite (loop_at_start_LTC3225 _ _ _ H) in Hrun.
    exact (case_start_LTC3225_low_voltage _ _ _ _ Hrun).
  - rewrite (loop_at_wait_LTC3225 _ _ _ H) in Hrun.
    exact (case_wait_LTC3225_low_voltage _ _ _ _ Hrun).
Qed.

(** C10.  In the same three steps the voltage check comes first after the
    loop: if the last sample, the one left in [vbat], is below [VBAT_LOW],
    the next step is [zzz] and the fix variables are those from before the
    step, also when the fix type is 3 or PGOOD was seen. *)
Theorem C10_low_voltage_priority w fuel s :
  2971 < Z.of_nat fuel ->
  loop_step (mem s) = read_GPS \/ loop_step (mem s) = start_LTC3225 \/
  loop_step (mem s) = wait_LTC3225 ->
  exists s',
    loop w fuel s = Some (tt, s') /\
    (low_voltage s' = true ->
     loop_step (mem s') = zzz /\ fixrec (mem s') = fixrec (mem s)).
Proof.
  intros Hfuel Hstep.
  destruct (wait_cases w fuel s Hfuel Hstep) as (s' & Hrun & Hlow & _).
  exists s'. auto.
Qed.

(** With a flat battery and a receiver that reports a 3D fix at once, the
    first sample of [read_GPS] is low: the step ends at that sample, goes to
    [zzz] and leaves the fix variables alone. *)
Lemma brownout_read_GPS :
  exists s',
    loop brownout 2972 (at_step read_GPS) = Some (tt, s') /\
    (exists t v,
       In (EvVbat t v)
         (firstn (List.length (trace (io s')) -
                  List.length (trace (io (at_step read_GPS))))
            (trace (io s'))) /\
       below_VBAT_LOW v = true) /\
    fixType (mem s') = 3 /\ low_voltage s' = true.
Proof.
  destruct (run_passes_spec (loop brownout 2972 (at_step read_GPS))
              (fun s' =>
                 existsb (fun e => match e with
                                   | EvVbat t v => below_VBAT_LOW v
                                   | _ => false
                                   end)
                   (firstn (List.length (trace (io s')) -
                            List.length (trace (io (at_step read_GPS))))
                      (trace (io s')))
                 && (fixType (mem s') =? 3) && low_voltage s'))
    as (s' & Hrun & Hp); [vm_compute; reflexivity|].
  apply andb_prop in Hp as [Hp Hlow]. apply andb_prop in Hp as [Hex Hfix].
  exists s'. split; [exact Hrun|]. split.
  - apply existsb_exists in Hex as ([p|t v|m|p] & Hin & Hev); try discriminate Hev.
    exists t, v. split; assumption.
  - split; [apply Z.eqb_eq; exact Hfix|exact Hlow].
Qed.

Lemma C10_witness :
  2971 < Z.of_nat 2972 /\
  (loop_step (mem (at_step read_GPS)) = read_GPS \/
   loop_step (mem (at_step read_GPS)) = start_LTC3225 \/
   loop_step (mem (at_step read_GPS)) = wait_LTC3225) /\
  exists s',
    loop brownout 2972 (at_step read_GPS) = Some (tt, s') /\
    fixType (mem s') = 3 /\ low_voltage s' = true /\
    loop_step (mem s') = zzz /\ fixrec (mem s') = fixrec (mem (at_step read_GPS)).
Proof.
  assert (H1 : 2971 < Z.of_nat 2972) by reflexivity.
  assert (H2 : loop_step (mem (at_step read_GPS)) = read_GPS \/
               loop_step (mem (at_step read_GPS)) = start_LTC3225 \/
               loop_step (mem (at_step read_GPS)) = wait_LTC3225)
    by (left; reflexivity).
  split; [exact H1|]. split; [exact H2|].
  destruct (C10_low_voltage_priority brownout 2972 (at_step read_GPS) H1 H2)
    as (s' & Hrun & Hlow).
  destruct brownout_read_GPS as (s2 & Hrun2 & _ & Hfix & Hv).
  rewrite Hrun in Hrun2. injection Hrun2 as <-.
  exists s'. split; [exact Hrun|]. split; [exact Hfix|]. split; [exact Hv|].
  exact (Hlow Hv).
Defined.

(** ** The top-up wait *)

Lemma bind_ext {A B} (m : M A) (k k' : A -> M B) s :
  (forall a s1, k a s1 = k' a s1) -> bind m k s = bind m k' s.
Proof. intros H. unfold bind. destruct (m s) as [[a s1]|]; auto. Qed.

(** The top-up step consults the battery only: two worlds with the same
    ADC readings give the same run, whatever the charger's PGOOD pin
    shows. *)
Lemma topup_consults_adc_only w w' fuel s :
  (forall k, adc w' k = adc w k) ->
  case_wait_LTC3225 w' fuel s = case_wait_LTC3225 w fuel s.
Proof.
  intros Hadc. unfold case_wait_LTC3225.
  apply bind_ext. intros tnow s1.
  assert (Hv : forall s0, get_vbat w' s0 = get_vbat w s0).
  { intros s0. rewrite !get_vbat_run. unfold sampled. rewrite Hadc. reflexivity. }
  unfold bind at 1 3. rewrite (while_ext _ _
    (get_vbat w ;;
     low <- gets low_voltage ;;
     if low then ret true
     else
       flash_LED 500 ;;
       delay 100 ;;
       ret false)).
  - reflexivity.
  - intros s0. unfold bind at 1 5. rewrite Hv. reflexivity.
Qed.

(** The flag [PGOOD] is the one the step was entered with, and it alone,
    with the voltage, decides where the step goes. *)
Lemma topup_next w fuel s s' :
  case_wait_LTC3225 w fuel s = Some (tt, s') ->
  PGOOD (mem s') = PGOOD (mem s) /\
  loop_step (mem s') =
    if low_voltage s' then zzz else if PGOOD (mem s) then start_9603 else zzz.
Proof.
  intros Hrun. expand_in Hrun.
  apply bind_Some in Hrun as (tnow & s0' & H0 & Hrun). inv_run H0.
  apply bind_Some in Hrun as (u & s1 & Hloop & Hrun).
  kept_by Hloop (fun s => PGOOD (mem s)).
  clear Hloop.
  inv_run Hrun; unfold low_voltage in *; simpl in *; rewrite Hif; rewrite <- ?Hkept;
    try rewrite Hif0; auto.
Qed.

(** C1: the code at the failing input.  The top-up step is entered with
    [PGOOD] set, the battery is good, and the charger's PGOOD pin reads LOW
    for the whole top-up.  The step never reads the pin: it returns after the
    full 10 s with [start_9603] as the next step, not [zzz]; and in general
    its run is a function of the ADC readings alone. *)
Theorem C1_topup_ignores_ready_signal :
  (forall k, pgood_pin charge_lost k = false) /\
  (exists s',
     loop charge_lost 101 topup_entry = Some (tt, s') /\
     loop_step (mem s') = start_9603 /\
     clock (io s') = clock (io topup_entry) + 10100) /\
  (forall w w' fuel s,
     loop_step (mem s) = wait_LTC3225 ->
     (forall k, adc w' k = adc w k) ->
     loop w' fuel s = loop w fuel s).
Proof.
  split; [reflexivity|]. split.
  - destruct (run_passes_spec (loop charge_lost 101 topup_entry)
                (fun s' => (loop_step (mem s') =? start_9603)
                           && (clock (io s') =? clock (io topup_entry) + 10100)))
      as (s' & Hrun & Hp); [vm_compute; reflexivity|].
    apply andb_prop in Hp as [H1 H2]. apply Z.eqb_eq in H1, H2. eauto.
  - intros w w' fuel s Hstep Hadc.
    rewrite !(loop_at_wait_LTC3225 _ _ _ Hstep).
    apply topup_consults_adc_only. exact Hadc.
Qed.

(** ** GNSS power and modem power *)

#[export] Instance untouched_preorder pin : PreOrder (untouched pin).
Proof.
  split.
  - intros s. split; reflexivity.
  - intros s1 s2 s3 [H1 A1] [H2 A2]. split; [congruence|].
    rewrite H1 in A2. etransitivity; eassumption.
Qed.

Ltac untouched_frame :=
  split;
  [ reflexivity
  | adds_with ltac:(cbv [level_is event_pins]; first [exact I | reflexivity]) ].

Lemma deep_sleep_untouched pin w : stable (untouched pin) (deep_sleep w).
Proof.
  intros s a s1 H. destruct (deep_sleep_only_slept w _ _ _ H) as (Hp & _ & new & Ht & Hn).
  split; [rewrite Hp; reflexivity|].
  exists new. split; [exact Ht|].
  apply Forall_forall. intros e He. rewrite (Hn e He). reflexivity.
Qed.

#[export] Hint Resolve deep_sleep_untouched : frames.

(** New events that show one of the two pins at its off level are safe. *)
Lemma extend_never_both pin v s s1 :
  (forall p, level p pin = v -> both_on p = false) ->
  never_both s ->
  level (pins (io s)) pin = v ->
  untouched pin s s1 ->
  never_both s1.
Proof.
  intros Hoff [Hnow Hpast] Hv [Hlevel (new & Ht & Hnew)]. split.
  - apply Hoff. congruence.
  - rewrite Ht. apply Forall_app. split; [|exact Hpast].
    rewrite Hv in Hnew. revert Hnew. apply Forall_impl.
    intros e. unfold level_is, safe_event. destruct (event_pins e); auto.
Qed.

Lemma iridium_low_safe p : level p iridiumPwrEN = LOW -> both_on p = false.
Proof. unfold both_on. intros ->. apply andb_false_r. Qed.

Lemma gnss_high_safe p : level p gnssEN = HIGH -> both_on p = false.
Proof. unfold both_on. intros ->. reflexivity. Qed.

Lemma not_high b : b <> HIGH -> b = LOW.
Proof. destruct b; [intros H; destruct (H eq_refl)|reflexivity]. Qed.

Lemma not_low b : b <> LOW -> b = HIGH.
Proof. destruct b; [reflexivity|intros H; destruct (H eq_refl)]. Qed.

(** A case that touches neither pin keeps the invariant, when entered from
    a step other than [zzz] and [read_GPS]. *)
Lemma quiet_case_invariant (m : M unit) s s' :
  stable (untouched iridiumPwrEN) m ->
  stable (untouched gnssEN) m ->
  m s = Some (tt, s') ->
  power_invariant s ->
  loop_step (mem s) <> zzz -> loop_step (mem s) <> read_GPS ->
  power_invariant s'.
Proof.
  intros Hi Hg Hrun (Hnever & Hir & Hgn) Hz Hr.
  assert (Hlow : level (pins (io s)) iridiumPwrEN = LOW) by (apply not_high; auto).
  assert (Hhigh : level (pins (io s)) gnssEN = HIGH) by (apply not_low; auto).
  pose proof (Hi _ _ _ Hrun) as Hi'. pose proof (Hg _ _ _ Hrun) as [Hg' _].
  split; [|split].
  - exact (extend_never_both _ _ _ _ iridium_low_safe Hnever Hlow Hi').
  - destruct Hi' as [Hi' _]. rewrite Hi', Hlow. discriminate.
  - rewrite Hg', Hhigh. discriminate.
Qed.

Lemma start_GPS_gnss w s s' :
  case_start_GPS w s = Some (tt, s') ->
  level (pins (io s')) gnssEN = HIGH \/ loop_step (mem s') = read_GPS.
Proof. intros H. expand_in H. inv_run H; simpl; auto. Qed.

Lemma read_GPS_gnss w fuel s s' :
  case_read_GPS w fuel s = Some (tt, s') -> level (pins (io s')) gnssEN = HIGH.
Proof.
  intros H. expand_in H.
  do 5 (apply bind_Some in H as (? & ? & _ & H)). inv_run H. reflexivity.
Qed.

Lemma case_zzz_all_off w fuel s s' :
  case_zzz w fuel s = Some (tt, s') -> all_off (pins (io s')).
Proof.
  intros H. expand_in H.
  destruct (power_down_all_off s) as (s0 & Hrun & Hoff & _).
  rewrite (bind_run _ _ _ _ _ Hrun) in H.
  apply bind_Some in H as (u & s1 & Hwait & H). inv_run H.
  apply sleep_wait_only_slept in Hwait as (Hp & _). simpl. rewrite Hp. exact Hoff.
Qed.

Lemma case_zzz_never_both w fuel s s' :
  case_zzz w fuel s = Some (tt, s') -> never_both s -> never_both s'.
Proof.
  intros H [Hnow Hpast]. expand_in H.
  apply bind_Some in H as (a & s0 & Hpd & H). expand_in Hpd.
  apply bind_Some in Hpd as (a0 & sa & Hoff & Hpd).
  assert (Hrest : untouched gnssEN sa s').
  { transitivity s0.
    - revert Hpd. generalize sa a s0.
      change (stable (untouched gnssEN)
        (digitalWrite iridiumSleep LOW ;;
         delay 1000 ;;
         digitalWrite iridiumPwrEN LOW ;;
         delay 1000 ;;
         digitalWrite superCapChgEN LOW ;;
         digitalWrite busVoltageMonEN LOW ;;
         digitalWrite LED LOW)).
      stable_with untouched_frame.
    - revert H. generalize s0 tt s'.
      change (stable (untouched gnssEN)
        (sleep_wait w fuel ;;
         assign (set_interval_alarm false) ;;
         assign (set_loop_step wake))).
      stable_with untouched_frame. }
  inv_run Hoff.
  apply (extend_never_both gnssEN HIGH _ _ gnss_high_safe) in Hrest;
    [exact Hrest| |reflexivity].
  split; [reflexivity|]. simpl.
  repeat constructor; [|exact Hpast]. exact Hnow.
Qed.

Ltac other_step :=
  first
    [ assumption
    | match goal with
      | H : loop_step (mem ?s) = _ |- loop_step (mem ?s) <> _ =>
          rewrite H; discriminate
      end ].

Ltac quiet_case Hrun Hinv :=
  apply (quiet_case_invariant _ _ _) with (3 := Hrun) (4 := Hinv);
  [ stable_with untouched_frame | stable_with untouched_frame
  | other_step | other_step ].

(** Every pass through [loop] keeps the invariant. *)
Lemma loop_keeps_power_invariant w fuel s s' :
  power_invariant s -> loop w fuel s = Some (tt, s') -> power_invariant s'.
Proof.
  intros Hinv Hrun. loop_cases Hrun.
  - quiet_case Hrun Hinv.
  - destruct Hinv as (Hnever & Hir & Hgn).
    assert (Hlow : level (pins (io s)) iridiumPwrEN = LOW).
    { apply not_high. intros E. apply Hir in E. rewrite Hstep0 in E. discriminate. }
    assert (Hi : untouched iridiumPwrEN s s').
    { revert Hrun. generalize s tt s'.
      change (stable (untouched iridiumPwrEN) (case_start_GPS w)).
      stable_with untouched_frame. }
    split; [|split].
    + exact (extend_never_both _ _ _ _ iridium_low_safe Hnever Hlow Hi).
    + destruct Hi as [Hi _]. rewrite Hi, Hlow. discriminate.
    + destruct (start_GPS_gnss _ _ _ Hrun) as [E|E]; [rewrite E; discriminate|auto].
  - destruct Hinv as (Hnever & Hir & Hgn).
    assert (Hlow : level (pins (io s)) iridiumPwrEN = LOW).
    { apply not_high. intros E. apply Hir in E. rewrite Hstep1 in E. discriminate. }
    assert (Hi : untouched iridiumPwrEN s s').
    { revert Hrun. generalize s tt s'.
      change (stable (untouched iridiumPwrEN) (case_read_GPS w fuel)).
      stable_with untouched_frame. }
    split; [|split].
    + exact (extend_never_both _ _ _ _ iridium_low_safe Hnever Hlow Hi).
    + destruct Hi as [Hi _]. rewrite Hi, Hlow. discriminate.
    + rewrite (read_GPS_gnss _ _ _ _ Hrun). discriminate.
  - quiet_case Hrun Hinv.
  - quiet_case Hrun Hinv.
  - quiet_case Hrun Hinv.
  - destruct Hinv as (Hnever & Hir & Hgn).
    assert (Hhigh : level (pins (io s)) gnssEN = HIGH).
    { apply not_low. intros E. apply Hgn in E. rewrite Hstep5 in E. discriminate. }
    assert (Hg : untouched gnssEN s s').
    { revert Hrun. generalize s tt s'.
      change (stable (untouched gnssEN) (case_start_9603 w)).
      stable_with untouched_frame. }
    split; [|split].
    + exact (extend_never_both _ _ _ _ gnss_high_safe Hnever Hhigh Hg).
    + intros _. destruct (start_9603_counter w s) as (s2 & new & Hrun2 & _ & _ & Hz).
      rewrite Hrun in Hrun2. injection Hrun2 as <-. exact Hz.
    + destruct Hg as [Hg _]. rewrite Hg, Hhigh. discriminate.
  - destruct Hinv as (Hnever & _).
    destruct (case_zzz_all_off _ _ _ _ Hrun) as (Hg & _ & Hi & _).
    split; [|split].
    + exact (case_zzz_never_both _ _ _ _ Hrun Hnever).
    + rewrite Hi. discriminate.
    + rewrite Hg. discriminate.
  - quiet_case Hrun Hinv.
  - quiet_case Hrun Hinv.
Qed.

Lemma power_invariantb_spec s : power_invariantb s = true -> power_invariant s.
Proof.
  unfold power_invariantb, power_invariant, never_both. intros H.
  apply andb_prop in H as [H Hg]. apply andb_prop in H as [H Hi].
  apply andb_prop in H as [Hnow Hpast]. apply negb_true_iff in Hnow.
  split; [split; [exact Hnow|]|split].
  - apply Forall_forall. intros e He.
    pose proof (proj1 (forallb_forall _ _) Hpast e He) as Hs.
    unfold safe_eventb, safe_event in *. destruct (event_pins e); [|exact I].
    apply negb_true_iff. exact Hs.
  - intros E. rewrite E in Hi. apply Z.eqb_eq. exact Hi.
  - intros E. rewrite E in Hg. apply Z.eqb_eq. exact Hg.
Qed.

Lemma setup_power_invariant s :
  setup power_on = Some (tt, s) -> power_invariant s.
Proof.
  intros H.
  destruct (run_passes_spec (setup power_on) power_invariantb) as (s2 & H2 & Hp);
    [vm_compute; reflexivity|].
  rewrite H in H2. injection H2 as <-. apply power_invariantb_spec. exact Hp.
Qed.

Lemma isr_keeps_power_invariant s : power_invariant s -> power_invariant (am_rtc_isr s).
Proof.
  destruct (am_rtc_isr_effect s) as (Hio & Hsame & _).
  assert (Hstep : loop_step (mem (am_rtc_isr s)) = loop_step (mem s)) by apply Hsame.
  unfold power_invariant, never_both. rewrite Hio, Hstep. auto.
Qed.

Lemma reachable_power_invariant w s : reachable w s -> power_invariant s.
Proof.
  induction 1 as [s H|fuel s s' _ IH Hrun|s _ IH].
  - exact (setup_power_invariant s H).
  - exact (loop_keeps_power_invariant w fuel s s' IH Hrun).
  - exact (isr_keeps_power_invariant s IH).
Qed.

Lemma passes_reachable w fuel n : forall s s',
  reachable w s -> passes w fuel n s = Some s' -> reachable w s'.
Proof.
  induction n as [|n IH]; intros s s' Hs H; simpl in H.
  - injection H as <-. exact Hs.
  - destruct (loop w fuel s) as [[[] s1]|] eqn:E; [|discriminate].
    apply (IH s1); [|exact H]. exact (reach_loop w fuel s s1 Hs E).
Qed.

(** C2.  In every state the tracker reaches ([setup] from power-on, then
    passes through [loop] and RTC interrupts in any number and order, in any
    world), and at every pin operation and every entry into deep sleep on the
    way there, the GNSS enable (active low) and the modem power enable (active
    high) are not both asserted. *)
Theorem C2_gnss_and_modem_never_both w s :
  reachable w s ->
  both_on (pins (io s)) = false /\
  forall e p, In e (trace (io s)) -> event_pins e = Some p -> both_on p = false.
Proof.
  intros Hreach. destruct (reachable_power_invariant w s Hreach) as ((Hnow & Hpast) & _).
  split; [exact Hnow|]. intros e p He Hp.
  rewrite Forall_forall in Hpast. specialize (Hpast e He).
  unfold safe_event in Hpast. rewrite Hp in Hpast. exact Hpast.
Qed.

(** A whole cycle in fair weather, from [setup] back to [loop_init]. *)
Lemma fair_weather_cycle :
  exists s',
    passes fair_weather 3000 9 (at_step loop_init) = Some s' /\
    loop_step (mem s') = loop_init /\ iterationCounter (mem s') = 1.
Proof.
  destruct (passes fair_weather 3000 9 (at_step loop_init)) as [s'|] eqn:E.
  - exists s'. split; [reflexivity|].
    assert (Hp : match passes fair_weather 3000 9 (at_step loop_init) with
                 | Some s' => (loop_step (mem s') =? loop_init)
                              && (iterationCounter (mem s') =? 1)
                 | None => false
                 end = true) by (vm_compute; reflexivity).
    rewrite E in Hp. apply andb_prop in Hp as [H1 H2].
    apply Z.eqb_eq in H1, H2. auto.
  - assert (Hp : match passes fair_weather 3000 9 (at_step loop_init) with
                 | Some _ => true
                 | None => false
                 end = true) by (vm_compute; reflexivity).
    rewrite E in Hp. discriminate.
Qed.

Lemma C2_witness :
  exists s',
    passes fair_weather 3000 9 (at_step loop_init) = Some s' /\
    reachable fair_weather s' /\
    both_on (pins (io s')) = false /\
    forall e p, In e (trace (io s')) -> event_pins e = Some p -> both_on p = false.
Proof.
  destruct fair_weather_cycle as (s' & Hrun & _).
  assert (Hreach : reachable fair_weather s').
  { apply (passes_reachable fair_weather 3000 9 (at_step loop_init) s'); [|exact Hrun].
    apply reach_setup. vm_compute. reflexivity. }
  exists s'. split; [exact Hrun|]. split; [exact Hreach|].
  exact (C2_gnss_and_modem_never_both fair_weather s' Hreach).
Defined.

(** Reduce the projections of a state that the code has built, and nothing
    else. *)
Ltac project :=
  cbn [mem io pins level mode clock tick trace vbat INTERVAL seconds_count
       interval_alarm iterationCounter fixrec pascals tempC fixType PGOOD err
       loop_step on_mem on_io emit set_vbat set_pins set_clock set_tick
       set_trace set_seconds_count set_interval_alarm set_iterationCounter
       set_fixrec set_pascals set_tempC set_fixType set_PGOOD set_err
       set_loop_step write_level write_mode sampled millis] in *.

(** ** Rounding is monotone *)

Lemma pow2_Qpower e : (FP.pow2 e == 2 ^ e)%Q.
Proof.
  unfold FP.pow2. destruct (Z.leb_spec 0 e) as [H|H].
  - rewrite Zpower_Qpower by exact H. reflexivity.
  - assert (Hp : 0 < 2 ^ (- e)) by (apply Z.pow_pos_nonneg; lia).
    assert (E1 : (2 ^ e == / inject_Z (2 ^ (- e)))%Q).
    { replace e with (- (- e)) at 1 by lia. rewrite Qpower_opp.
      apply Qinv_comp. symmetry. apply Zpower_Qpower. lia. }
    rewrite E1. destruct (2 ^ (- e)) as [|p|p]; try lia. reflexivity.
Qed.

Lemma pow2_pos e : (0 < FP.pow2 e)%Q.
Proof. rewrite pow2_Qpower. apply Qpower_0_lt. reflexivity. Qed.

Lemma pow2_le a b : a <= b -> (FP.pow2 a <= FP.pow2 b)%Q.
Proof. intros H. rewrite !pow2_Qpower. apply Qpower_le_compat_l; [exact H|discriminate]. Qed.

Lemma pow2_lt a b : a < b -> (FP.pow2 a < FP.pow2 b)%Q.
Proof. intros H. rewrite !pow2_Qpower. apply Qpower_lt_compat_l; [exact H|reflexivity]. Qed.

Lemma pow2_add a b : (FP.pow2 (a + b) == FP.pow2 a * FP.pow2 b)%Q.
Proof. rewrite !pow2_Qpower. apply Qpower_plus. discriminate. Qed.

Lemma pow2_nonneg_Z e : 0 <= e -> (FP.pow2 e == inject_Z (2 ^ e))%Q.
Proof. intros H. unfold FP.pow2. destruct (Z.leb_spec 0 e); [reflexivity|lia]. Qed.

Lemma rhe_cases q :
  FP.round_half_even q = Qfloor q \/ FP.round_half_even q = Qfloor q + 1.
Proof.
  unfold FP.round_half_even.
  destruct (q - inject_Z (Qfloor q) ?= 1 # 2)%Q; auto.
  destruct (Z.even (Qfloor q)); auto.
Qed.

Lemma rhe_mono q1 q2 : (q1 <= q2)%Q -> FP.round_half_even q1 <= FP.round_half_even q2.
Proof.
  intros H. pose proof (Qfloor_resp_le _ _ H) as Hf.
  destruct (Z.eq_dec (Qfloor q1) (Qfloor q2)) as [E|E].
  - unfold FP.round_half_even. rewrite E.
    assert (Hr : (q1 - inject_Z (Qfloor q2) <= q2 - inject_Z (Qfloor q2))%Q) by lra.
    destruct (Qcompare_spec (q1 - inject_Z (Qfloor q2)) (1 # 2)) as [H1|H1|H1];
      destruct (Qcompare_spec (q2 - inject_Z (Qfloor q2)) (1 # 2)) as [H2|H2|H2];
      try lra; destruct (Z.even (Qfloor q2)); lia.
  - destruct (rhe_cases q1) as [-> | ->]; destruct (rhe_cases q2) as [-> | ->]; lia.
Qed.

Lemma rhe_Z z : FP.round_half_even (inject_Z z) = z.
Proof.
  unfold FP.round_half_even. rewrite Qfloor_Z.
  destruct (Qcompare_spec (inject_Z z - inject_Z z) (1 # 2)) as [H|H|H];
    try lra; reflexivity.
Qed.

Lemma ilog2_spec n d :
  0 < n ->
  (FP.pow2 (FP.ilog2 n (Zpos d)) <= n # d)%Q /\
  (n # d < FP.pow2 (FP.ilog2 n (Zpos d) + 1))%Q.
Proof.
  intros Hn. unfold FP.ilog2. cbn [Z.to_pos].
  set (a := Z.log2 n). set (b := Z.log2 (Zpos d)).
  assert (Ha : 2 ^ a <= n < 2 ^ (a + 1))
    by (subst a; rewrite Z.add_1_r; apply Z.log2_spec; exact Hn).
  assert (Hb : 2 ^ b <= Zpos d < 2 ^ (b + 1))
    by (subst b; rewrite Z.add_1_r; apply Z.log2_spec; reflexivity).
  assert (Ha0 : 0 <= a) by apply Z.log2_nonneg.
  assert (Hb0 : 0 <= b) by apply Z.log2_nonneg.
  assert (Qa : (FP.pow2 a <= inject_Z n)%Q /\ (inject_Z n < FP.pow2 (a + 1))%Q).
  { rewrite !pow2_nonneg_Z by lia. rewrite <- Zle_Qle, <- Zlt_Qlt. exact Ha. }
  assert (Qb : (FP.pow2 b <= inject_Z (Zpos d))%Q /\ (inject_Z (Zpos d) < FP.pow2 (b + 1))%Q).
  { rewrite !pow2_nonneg_Z by lia. rewrite <- Zle_Qle, <- Zlt_Qlt. exact Hb. }
  assert (Hd : (0 < inject_Z (Zpos d))%Q) by reflexivity.
  assert (Hq : (n # d == inject_Z n / inject_Z (Zpos d))%Q) by apply Qmake_Qdiv.
  assert (Hup : (n # d < FP.pow2 (a - b + 1))%Q).
  { rewrite Hq. apply Qlt_shift_div_r; [exact Hd|].
    pose proof (pow2_add (a - b + 1) b) as E.
    replace (a - b + 1 + b) with (a + 1) in E by ring.
    pose proof (pow2_pos (a - b + 1)). nra. }
  assert (Hlow : (FP.pow2 (a - b - 1) <= n # d)%Q).
  { rewrite Hq. apply Qle_shift_div_l; [exact Hd|].
    pose proof (pow2_add (a - b - 1) (b + 1)) as E.
    replace (a - b - 1 + (b + 1)) with a in E by ring.
    pose proof (pow2_pos (a - b - 1)). nra. }
  destruct (Qle_bool (FP.pow2 (a - b)) (n # d)) eqn:T.
  - apply Qle_bool_iff in T. split; [exact T|exact Hup].
  - split; [exact Hlow|].
    replace (a - b - 1 + 1) with (a - b) by ring.
    apply Qnot_le_lt. intros C. apply Qle_bool_iff in C. congruence.
Qed.

Lemma Qnum_pos x : (0 < x)%Q <-> 0 < Qnum x.
Proof. unfold Qlt. simpl. rewrite Z.mul_1_r. reflexivity. Qed.

(** Rounding a positive value: the binade of the value, the bounds of the
    result, and the result itself. *)
Lemma round_pos p x :
  1 <= p -> (0 < x)%Q ->
  exists k,
    (FP.pow2 k <= x)%Q /\ (x < FP.pow2 (k + 1))%Q /\
    (FP.pow2 k <= FP.round p x)%Q /\ (FP.round p x <= FP.pow2 (k + 1))%Q /\
    (FP.round p x ==
     inject_Z (FP.round_half_even (x / FP.pow2 (k - (p - 1)))) * FP.pow2 (k - (p - 1)))%Q.
Proof.
  intros Hp Hx. apply Qnum_pos in Hx. destruct x as [n d]. simpl in Hx.
  destruct (ilog2_spec n d Hx) as [Hlow Hup].
  set (k := FP.ilog2 n (Zpos d)) in *. exists k.
  set (e := k - (p - 1)).
  assert (Hr : (FP.round p (n # d) ==
                inject_Z (FP.round_half_even ((n # d) / FP.pow2 e)) * FP.pow2 e)%Q).
  { unfold FP.round. cbn [Qnum Qden].
    destruct (Z.eqb_spec n 0) as [E|_]; [lia|].
    destruct (Z.ltb_spec n 0) as [E|_]; [lia|].
    rewrite Z.abs_eq by lia. fold k. fold e. apply Qred_correct. }
  pose proof (pow2_pos e) as He.
  assert (Ek : (FP.pow2 k == FP.pow2 (p - 1) * FP.pow2 e)%Q).
  { rewrite <- pow2_add. subst e. replace (p - 1 + (k - (p - 1))) with k by ring.
    reflexivity. }
  assert (Ek1 : (FP.pow2 (k + 1) == FP.pow2 p * FP.pow2 e)%Q).
  { rewrite <- pow2_add. subst e. replace (p + (k - (p - 1))) with (k + 1) by ring.
    reflexivity. }
  assert (Hq1 : (FP.pow2 (p - 1) <= (n # d) / FP.pow2 e)%Q).
  { apply Qle_shift_div_l; [exact He|]. rewrite <- Ek. exact Hlow. }
  assert (Hq2 : ((n # d) / FP.pow2 e <= FP.pow2 p)%Q).
  { apply Qle_shift_div_r; [exact He|]. rewrite <- Ek1. apply Qlt_le_weak. exact Hup. }
  rewrite (pow2_nonneg_Z (p - 1)) in Hq1 by lia.
  rewrite (pow2_nonneg_Z p) in Hq2 by lia.
  apply rhe_mono in Hq1, Hq2. rewrite rhe_Z in Hq1, Hq2.
  split; [exact Hlow|]. split; [exact Hup|].
  rewrite Hr, Ek, Ek1.
  rewrite (pow2_nonneg_Z (p - 1)) by lia. rewrite (pow2_nonneg_Z p) by lia.
  rewrite Zle_Qle in Hq1, Hq2.
  split; [|split; [|reflexivity]].
  - apply Qmult_le_compat_r; [exact Hq1|apply Qlt_le_weak; exact He].
  - apply Qmult_le_compat_r; [exact Hq2|apply Qlt_le_weak; exact He].
Qed.

Lemma round_zero p x : (x == 0)%Q -> FP.round p x = 0%Q.
Proof.
  intros H. unfold FP.round.
  assert (E : Qnum x = 0) by (unfold Qeq in H; simpl in H; lia).
  rewrite E. reflexivity.
Qed.

Lemma round_nonneg p x : 1 <= p -> (0 <= x)%Q -> (0 <= FP.round p x)%Q.
Proof.
  intros Hp Hx. destruct (Qlt_le_dec 0 x) as [H|H].
  - destruct (round_pos p x Hp H) as (k & _ & _ & Hk & _).
    pose proof (pow2_pos k). lra.
  - rewrite round_zero by lra. discriminate.
Qed.

(** Rounding is monotone. *)
Lemma round_mono p x y :
  1 <= p -> (0 <= x)%Q -> (x <= y)%Q -> (FP.round p x <= FP.round p y)%Q.
Proof.
  intros Hp Hx Hxy. destruct (Qlt_le_dec 0 x) as [H|H].
  - assert (Hy : (0 < y)%Q) by lra.
    destruct (round_pos p x Hp H) as (kx & Lx & Ux & RLx & RUx & Ex).
    destruct (round_pos p y Hp Hy) as (ky & Ly & Uy & RLy & RUy & Ey).
    destruct (Z.lt_trichotomy kx ky) as [C|[C|C]].
    + assert (Hk : (FP.pow2 (kx + 1) <= FP.pow2 ky)%Q) by (apply pow2_le; lia). lra.
    + subst ky. rewrite Ex, Ey.
      pose proof (pow2_pos (kx - (p - 1))) as He.
      apply Qmult_le_compat_r; [|lra]. rewrite <- Zle_Qle. apply rhe_mono.
      apply Qle_shift_div_l; [exact He|].
      unfold Qdiv. rewrite <- Qmult_assoc, (Qmult_comm (/ _)), Qmult_inv_r by lra. lra.
    + assert (Hk : (FP.pow2 (ky + 1) <= FP.pow2 kx)%Q) by (apply pow2_le; lia). lra.
  - rewrite (round_zero p x) by lra. apply round_nonneg; [exact Hp|lra].
Qed.

Lemma dmul_mono x y c :
  (0 <= c)%Q -> (0 <= x)%Q -> (x <= y)%Q -> (FP.dmul x c <= FP.dmul y c)%Q.
Proof.
  intros Hc Hx Hxy. unfold FP.dmul, FP.to_double.
  apply round_mono; [lia|nra|nra].
Qed.

Lemma dmul_nonneg x c : (0 <= c)%Q -> (0 <= x)%Q -> (0 <= FP.dmul x c)%Q.
Proof.
  intros Hc Hx. unfold FP.dmul, FP.to_double. apply round_nonneg; [lia|nra].
Qed.

Lemma ddiv_mono x y c :
  (0 < c)%Q -> (0 <= x)%Q -> (x <= y)%Q -> (FP.ddiv x c <= FP.ddiv y c)%Q.
Proof.
  intros Hc Hx Hxy. unfold FP.ddiv, FP.to_double.
  assert (Hi : (0 < / c)%Q) by (apply Qinv_lt_0_compat; exact Hc).
  apply round_mono; [lia|unfold Qdiv; nra|unfold Qdiv; nra].
Qed.

Lemma ddiv_nonneg x c : (0 < c)%Q -> (0 <= x)%Q -> (0 <= FP.ddiv x c)%Q.
Proof.
  intros Hc Hx. unfold FP.ddiv, FP.to_double.
  assert (Hi : (0 < / c)%Q) by (apply Qinv_lt_0_compat; exact Hc).
  apply round_nonneg; [lia|unfold Qdiv; nra].
Qed.

Lemma to_float_mono x y :
  (0 <= x)%Q -> (x <= y)%Q -> (FP.to_float x <= FP.to_float y)%Q.
Proof. intros Hx Hxy. unfold FP.to_float. apply round_mono; [lia|exact Hx|exact Hxy]. Qed.

Lemma to_float_nonneg x : (0 <= x)%Q -> (0 <= FP.to_float x)%Q.
Proof. intros Hx. unfold FP.to_float. apply round_nonneg; [lia|exact Hx]. Qed.

Lemma float_of_int_mono a b :
  0 <= a <= b ->
  (0 <= FP.float_of_int a)%Q /\ (FP.float_of_int a <= FP.float_of_int b)%Q.
Proof.
  intros [Ha Hab]. unfold FP.float_of_int.
  assert (Qa : (0 <= inject_Z a)%Q) by (rewrite Zle_Qle in Ha; exact Ha).
  assert (Qab : (inject_Z a <= inject_Z b)%Q) by (rewrite Zle_Qle in Hab; exact Hab).
  split; [apply to_float_nonneg; exact Qa|apply to_float_mono; [exact Qa|exact Qab]].
Qed.

Lemma lit_nonneg x : (0 <= x)%Q -> (0 <= FP.lit x)%Q.
Proof. intros H. unfold FP.lit, FP.to_double. apply round_nonneg; [lia|exact H]. Qed.

(** The conversion of [get_vbat], with any non-negative correction factor,
    grows with the reading. *)
Lemma conversion_mono c a b :
  (0 <= c)%Q -> 0 <= a <= b ->
  (0 <= FP.to_float
          (FP.ddiv (FP.dmul (FP.dmul (FP.dmul (FP.float_of_int a) 3) c) 2) 16384))%Q /\
  (FP.to_float
     (FP.ddiv (FP.dmul (FP.dmul (FP.dmul (FP.float_of_int a) 3) c) 2) 16384)
   <= FP.to_float
        (FP.ddiv (FP.dmul (FP.dmul (FP.dmul (FP.float_of_int b) 3) c) 2) 16384))%Q.
Proof.
  intros Hc Hab. destruct (float_of_int_mono a b Hab) as [H0 H1].
  assert (H3' : (0 <= 3)%Q) by discriminate.
  assert (H2' : (0 <= 2)%Q) by discriminate.
  assert (H16 : (0 < 16384)%Q) by reflexivity.
  pose proof (dmul_nonneg _ _ H3' H0) as H2.
  pose proof (dmul_mono _ _ _ H3' H0 H1) as H3.
  pose proof (dmul_nonneg _ _ Hc H2) as H4.
  pose proof (dmul_mono _ _ _ Hc H2 H3) as H5.
  pose proof (dmul_nonneg _ _ H2' H4) as H6.
  pose proof (dmul_mono _ _ _ H2' H4 H5) as H7.
  pose proof (ddiv_nonneg _ _ H16 H6) as H8.
  pose proof (ddiv_mono _ _ _ H16 H6 H7) as H9.
  split; [apply to_float_nonneg; exact H8|apply to_float_mono; [exact H8|exact H9]].
Qed.

(** For this one lemma the conversion is unfolded first, to compare it with
    its body. *)
Strategy expand [vbat_of_adc].

(** The voltage grows with the reading. *)
Lemma vbat_of_adc_mono a b :
  0 <= a <= b -> (0 <= vbat_of_adc a)%Q /\ (vbat_of_adc a <= vbat_of_adc b)%Q.
Proof.
  intros H.
  assert (Hc : (0 <= 109 # 100)%Q) by discriminate.
  assert (E : vbat_of_adc =
              fun raw =>
                FP.to_float
                  (FP.ddiv
                     (FP.dmul (FP.dmul (FP.dmul (FP.float_of_int raw) 3)
                                 (FP.lit (109 # 100))) 2) 16384))
    by reflexivity.
  rewrite E. cbv beta.
  exact (conversion_mono (FP.lit (109 # 100)) a b (lit_nonneg _ Hc) H).
Qed.

Strategy 100 [vbat_of_adc].

(** ** The voltage monitor and the modem callback *)

(** X1.  [ISBDCallback].  The callback answers [false] exactly when the
    voltage it has just sampled is below [VBAT_LOW].  It takes one ADC
    reading and one millisecond, leaves the voltage monitor disabled, changes
    no pin level but the LED's and the monitor's, no pin mode, and no global
    variable but [vbat]. *)
Theorem X_callback_stops_on_low_voltage w s :
  exists ok s',
    ISBDCallback w s = Some (ok, s') /\
    vbat (mem s') = vbat_of_adc (adc w (tick (io s))) /\
    ok = negb (below_VBAT_LOW (vbat (mem s'))) /\
    same_but_vbat (mem s) (mem s') /\
    level (pins (io s')) busVoltageMonEN = LOW /\
    (forall q, q <> LED -> q <> busVoltageMonEN ->
               level (pins (io s')) q = level (pins (io s)) q) /\
    (forall q, mode (pins (io s')) q = mode (pins (io s)) q) /\
    clock (io s') = clock (io s) + 1 /\
    tick (io s') = S (tick (io s)).
Proof.
  assert (Ht : total (ISBDCallback w)) by total_auto.
  destruct (Ht s) as (ok & s' & Hrun). exists ok, s'. split; [exact Hrun|].
  expand_in Hrun. inv_run Hrun; unfold low_voltage, same_but_vbat; project;
    (repeat split; try reflexivity;
     intros q Hq1 Hq2;
     unfold LED, busVoltageMonEN in *;
     repeat lazymatch goal with
       | |- context [q =? ?n] => destruct (Z.eqb_spec q n); [contradiction|]
       end; reflexivity).
Qed.

(** X2.  The low-voltage threshold in ADC counts.  For every reading of the
    converter (any non-negative integer; the 14-bit converter gives 0 to
    16383), the voltage that [get_vbat] computes is below [VBAT_LOW]
    exactly when the reading is at most 7014: the conversion, with its
    roundings to double and to float, grows with the reading, 7014 counts
    come out below 2.8 V and 7015 counts do not.  The voltage is never
    negative and, for a 14-bit reading, at most 6.54 V. *)
Theorem X_low_voltage_threshold raw :
  0 <= raw ->
  below_VBAT_LOW (vbat_of_adc raw) = (raw <=? last_low_reading) /\
  (0 <= vbat_of_adc raw)%Q /\
  (raw < 16384 -> (vbat_of_adc raw <= 654 # 100)%Q).
Proof.
  intros Hraw.
  assert (H14 : (vbat_of_adc 7014 < VBAT_LOW)%Q) by (vm_compute; reflexivity).
  assert (H15 : (VBAT_LOW <= vbat_of_adc 7015)%Q) by (vm_compute; discriminate).
  assert (Hmax : (vbat_of_adc 16383 <= 654 # 100)%Q) by (vm_compute; discriminate).
  split; [|split].
  - unfold below_VBAT_LOW, FP.ltb, last_low_reading.
    destruct (Z.leb_spec raw 7014) as [H|H].
    + destruct (vbat_of_adc_mono raw 7014 (conj Hraw H)) as [_ Hm].
      destruct (Qle_bool VBAT_LOW (vbat_of_adc raw)) eqn:T; [|reflexivity].
      apply Qle_bool_iff in T. lra.
    + destruct (vbat_of_adc_mono 7015 raw ltac:(lia)) as [_ Hm].
      assert (T : Qle_bool VBAT_LOW (vbat_of_adc raw) = true)
        by (apply Qle_bool_iff; lra).
      rewrite T. reflexivity.
  - apply (vbat_of_adc_mono raw raw). lia.
  - intros Hlt. destruct (vbat_of_adc_mono raw 16383 ltac:(lia)) as [_ Hm]. lra.
Qed.

Lemma X_low_voltage_threshold_witness :
  0 <= 7014 /\
  below_VBAT_LOW (vbat_of_adc 7014) = (7014 <=? last_low_reading) /\
  (0 <= vbat_of_adc 7014)%Q /\
  (7014 < 16384 -> (vbat_of_adc 7014 <= 654 # 100)%Q).
Proof.
  assert (H : 0 <= 7014) by discriminate.
  exact (conj H (X_low_voltage_threshold 7014 H)).
Defined.

(** ** The first two steps *)

(** X3.  [loop_init].  The step waits a second, takes one voltage sample and
    goes to [zzz] when that sample is below [VBAT_LOW] and to [start_GPS]
    otherwise.  It switches no power domain and leaves the fix variables
    and the iteration counter alone. *)
Theorem X_loop_init_decides_on_one_sample w fuel s :
  loop_step (mem s) = loop_init ->
  exists s',
    loop w fuel s = Some (tt, s') /\
    vbat (mem s') = vbat_of_adc (adc w (tick (io s))) /\
    loop_step (mem s') = (if below_VBAT_LOW (vbat (mem s')) then zzz else start_GPS) /\
    clock (io s') = clock (io s) + 1001 /\
    tick (io s') = S (tick (io s)) /\
    domains_kept (pins (io s)) (pins (io s')) /\
    fixrec (mem s') = fixrec (mem s) /\
    iterationCounter (mem s') = iterationCounter (mem s).
Proof.
  intros Hstep. rewrite (loop_at_loop_init _ _ _ Hstep).
  assert (Ht : total (case_loop_init w)) by total_auto.
  destruct (Ht s) as ([] & s' & Hrun). exists s'. split; [exact Hrun|].
  expand_in Hrun. inv_run Hrun; unfold low_voltage in Hif; project;
    rewrite Hif; unfold domains_kept; project; repeat split; ring.
Qed.

Lemma X_loop_init_witness :
  loop_step (mem (at_step loop_init)) = loop_init /\
  exists s',
    loop fair_weather 0 (at_step loop_init) = Some (tt, s') /\
    vbat (mem s') = vbat_of_adc (adc fair_weather (tick (io (at_step loop_init)))) /\
    loop_step (mem s') = (if below_VBAT_LOW (vbat (mem s')) then zzz else start_GPS) /\
    clock (io s') = clock (io (at_step loop_init)) + 1001 /\
    tick (io s') = S (tick (io (at_step loop_init))) /\
    domains_kept (pins (io (at_step loop_init))) (pins (io s')) /\
    fixrec (mem s') = fixrec (mem (at_step loop_init)) /\
    iterationCounter (mem s') = iterationCounter (mem (at_step loop_init)).
Proof.
  assert (H : loop_step (mem (at_step loop_init)) = loop_init) by reflexivity.
  exact (conj H (X_loop_init_decides_on_one_sample fair_weather 0 (at_step loop_init) H)).
Defined.

(** X4.  [start_GPS].  The step powers the receiver, waits two seconds and
    samples the voltage.  On a low sample it powers the receiver down again
    and goes to [zzz] without talking to it.  Otherwise, when the handshake
    succeeds, it sets the dynamic model and goes to [read_GPS] with the
    receiver still powered, whatever [setDynamicModel] answers.  Neither
    branch changes the fix variables. *)
Theorem X_start_GPS_branches w fuel s :
  loop_step (mem s) = start_GPS ->
  let k := tick (io s) in
  exists s',
    loop w fuel s = Some (tt, s') /\
    vbat (mem s') = vbat_of_adc (adc w k) /\
    clock (io s') = clock (io s) + 2001 /\
    (below_VBAT_LOW (vbat (mem s')) = true ->
     loop_step (mem s') = zzz /\ tick (io s') = S k /\
     level (pins (io s')) gnssEN = HIGH /\
     mode (pins (io s')) gnssEN = INPUT_PULLUP /\
     fixrec (mem s') = fixrec (mem s)) /\
    (below_VBAT_LOW (vbat (mem s')) = false -> gps_begin w (S k) = true ->
     loop_step (mem s') = read_GPS /\ tick (io s') = S (S (S k)) /\
     level (pins (io s')) gnssEN = LOW /\
     mode (pins (io s')) gnssEN = OUTPUT /\
     fixrec (mem s') = fixrec (mem s)).
Proof.
  intros Hstep k. subst k. rewrite (loop_at_start_GPS _ _ _ Hstep).
  assert (Ht : total (case_start_GPS w)) by total_auto.
  destruct (Ht s) as ([] & s' & Hrun). exists s'. split; [exact Hrun|].
  expand_in Hrun. inv_run Hrun; unfold low_voltage in Hif; project;
    rewrite Hif; (split; [reflexivity|]); (split; [ring|]);
    (split; intros Hv; [try discriminate Hv|try discriminate Hv; intros Hb]).
  - repeat split.
  - rewrite Hb in Hif0. discriminate Hif0.
  - repeat split.
Qed.

Lemma X_start_GPS_witness :
  loop_step (mem (at_step start_GPS)) = start_GPS /\
  let s := at_step start_GPS in
  let k := tick (io s) in
  exists s',
    loop fair_weather 0 s = Some (tt, s') /\
    vbat (mem s') = vbat_of_adc (adc fair_weather k) /\
    clock (io s') = clock (io s) + 2001 /\
    (below_VBAT_LOW (vbat (mem s')) = true ->
     loop_step (mem s') = zzz /\ tick (io s') = S k /\
     level (pins (io s')) gnssEN = HIGH /\
     mode (pins (io s')) gnssEN = INPUT_PULLUP /\
     fixrec (mem s') = fixrec (mem s)) /\
    (below_VBAT_LOW (vbat (mem s')) = false -> gps_begin fair_weather (S k) = true ->
     loop_step (mem s') = read_GPS /\ tick (io s') = S (S (S k)) /\
     level (pins (io s')) gnssEN = LOW /\
     mode (pins (io s')) gnssEN = OUTPUT /\
     fixrec (mem s') = fixrec (mem s)).
Proof.
  assert (H : loop_step (mem (at_step start_GPS)) = start_GPS) by reflexivity.
  exact (conj H (X_start_GPS_branches fair_weather 0 (at_step start_GPS) H)).
Defined.

(** ** The state machine *)

Lemma loop_at_other w fuel s :
  loop_step (mem s) < loop_init \/ wake < loop_step (mem s) ->
  loop w fuel s = Some (tt, s).
Proof.
  intros H. unfold loop, bind, gets.
  unfold loop_init, start_GPS, read_GPS, read_pressure, start_LTC3225,
    wait_LTC3225, start_9603, zzz, wake in *.
  repeat lazymatch goal with
    | |- context [loop_step (mem s) =? ?n] =>
        destruct (Z.eqb_spec (loop_step (mem s)) n); [lia|]
    end.
  reflexivity.
Qed.

(** The edges of the state machine. *)
Lemma loop_edges w fuel s s' :
  loop w fuel s = Some (tt, s') ->
  let a := loop_step (mem s) in
  let b := loop_step (mem s') in
  (a = loop_init -> b = zzz \/ b = start_GPS) /\
  (a = start_GPS -> b = zzz \/ b = read_pressure \/ b = read_GPS) /\
  (a = read_GPS -> b = zzz \/ b = read_pressure) /\
  (a = read_pressure -> b = start_LTC3225) /\
  (a = start_LTC3225 -> b = zzz \/ b = wait_LTC3225) /\
  (a = wait_LTC3225 -> b = zzz \/ b = start_9603) /\
  (a = start_9603 -> b = zzz) /\
  (a = zzz -> b = wake) /\
  (a = wake -> b = loop_init) /\
  (a < loop_init \/ wake < a -> s' = s).
Proof.
  intros Hrun a b. subst a b.
  repeat lazymatch goal with |- _ /\ _ => split end; intros Hstep.
  - rewrite (loop_at_loop_init _ _ _ Hstep) in Hrun. expand_in Hrun.
    inv_run Hrun; project; auto.
  - rewrite (loop_at_start_GPS _ _ _ Hstep) in Hrun. expand_in Hrun.
    inv_run Hrun; project; auto.
  - rewrite (loop_at_read_GPS _ _ _ Hstep) in Hrun. expand_in Hrun.
    do 3 (apply bind_Some in Hrun as (? & ? & _ & Hrun)).
    inv_run Hrun; project; auto.
  - rewrite (loop_at_read_pressure _ _ _ Hstep) in Hrun. expand_in Hrun.
    inv_run Hrun; project; auto.
  - rewrite (loop_at_start_LTC3225 _ _ _ Hstep) in Hrun. expand_in Hrun.
    do 5 (apply bind_Some in Hrun as (? & ? & _ & Hrun)).
    inv_run Hrun; project; auto.
  - rewrite (loop_at_wait_LTC3225 _ _ _ Hstep) in Hrun. expand_in Hrun.
    do 2 (apply bind_Some in Hrun as (? & ? & _ & Hrun)).
    inv_run Hrun; project; auto.
  - rewrite (loop_at_start_9603 _ _ _ Hstep) in Hrun.
    destruct (start_9603_counter w s) as (s1 & new & Hrun1 & _ & _ & Hnext).
    congruence.
  - rewrite (loop_at_zzz _ _ _ Hstep) in Hrun. expand_in Hrun.
    do 2 (apply bind_Some in Hrun as (? & ? & _ & Hrun)).
    inv_run Hrun. reflexivity.
  - rewrite (loop_at_wake _ _ _ Hstep) in Hrun. expand_in Hrun.
    inv_run Hrun. reflexivity.
  - rewrite (loop_at_other _ _ _ Hstep) in Hrun. congruence.
Qed.


(** X5.  The transitions of the switch.  A pass through [loop] that returns
    moves [loop_step] along these edges only: [loop_init] to [zzz] or
    [start_GPS]; [start_GPS] to [zzz], [read_pressure] or [read_GPS];
    [read_GPS] to [zzz] or [read_pressure]; [read_pressure] to
    [start_LTC3225]; [start_LTC3225] to [zzz] or [wait_LTC3225];
    [wait_LTC3225] to [zzz] or [start_9603]; [start_9603] to [zzz];
    [zzz] to [wake]; [wake] to [loop_init].  With [loop_step] outside the
    nine values the pass does nothing at all. *)
Theorem X_switch_transitions w fuel s s' :
  loop w fuel s = Some (tt, s') ->
  let a := loop_step (mem s) in
  let b := loop_step (mem s') in
  (a = loop_init -> b = zzz \/ b = start_GPS) /\
  (a = start_GPS -> b = zzz \/ b = read_pressure \/ b = read_GPS) /\
  (a = read_GPS -> b = zzz \/ b = read_pressure) /\
  (a = read_pressure -> b = start_LTC3225) /\
  (a = start_LTC3225 -> b = zzz \/ b = wait_LTC3225) /\
  (a = wait_LTC3225 -> b = zzz \/ b = start_9603) /\
  (a = start_9603 -> b = zzz) /\
  (a = zzz -> b = wake) /\
  (a = wake -> b = loop_init) /\
  (a < loop_init \/ wake < a -> s' = s).
Proof. exact (loop_edges w fuel s s'). Qed.

Lemma X_switch_transitions_witness :
  loop fair_weather 0 (at_step wake)
  = Some (tt, on_mem (set_loop_step loop_init) (at_step wake)) /\
  loop_step (mem (on_mem (set_loop_step loop_init) (at_step wake))) = loop_init.
Proof.
  assert (Hs : loop_step (mem (at_step wake)) = wake) by reflexivity.
  pose proof (loop_at_wake fair_weather 0 _ Hs) as H.
  change (case_wake (at_step wake))
    with (Some (tt, on_mem (set_loop_step loop_init) (at_step wake))) in H.
  split; [exact H|].
  destruct (X_switch_transitions fair_weather 0 _ _ H)
    as (_ & _ & _ & _ & _ & _ & _ & _ & Hwake & _).
  apply Hwake. exact Hs.
Defined.

#[export] Instance timer_kept_preorder : PreOrder timer_kept.
Proof.
  split.
  - intros s. split; [reflexivity|auto].
  - intros s1 s2 s3 [H1 H2] [H3 H4]. split; [congruence|auto].
Qed.

Lemma deep_sleep_timer_kept w : stable timer_kept (deep_sleep w).
Proof.
  intros s a s1 H. rewrite deep_sleep_run in H. injection H as _ <-.
  set (s0 := on_io _ (emit _ s)). split.
  - apply (isr_iter_same _ s0).
  - intros Hok. apply (isr_iter_effect _ s0). exact Hok.
Qed.

#[export] Hint Resolve deep_sleep_timer_kept : frames.

Ltac timer_frame := unfold timer_kept, timer_ok; split; [reflexivity|exact (fun H => H)].

Lemma loop_timer_kept w fuel : stable timer_kept (loop w fuel).
Proof. unfold loop. stable_with timer_frame. Qed.

Lemma setup_machine_ok s s' :
  INTERVAL (mem s) = 15 * 60 -> setup s = Some (tt, s') -> machine_ok s'.
Proof.
  intros HI H.
  assert (Hk : stable (keeps (fun s => INTERVAL (mem s))) setup)
    by (unfold setup; stable_with frame).
  pose proof (Hk _ _ _ H) as HI'. unfold keeps in HI'.
  expand_in H.
  do 14 (apply bind_Some in H as (? & ? & _ & H)).
  inv_run H. unfold machine_ok in *. project.
  rewrite HI', HI. repeat split; try discriminate; reflexivity.
Qed.

Lemma isr_machine_ok s : machine_ok s -> machine_ok (am_rtc_isr s).
Proof.
  intros (Hstep & HI & Hc).
  assert (Hok : timer_ok s) by (split; [exact Hc|rewrite HI; reflexivity]).
  destruct (isr_iter_effect 1 s Hok) as (_ & Hsame & [Hc1 _] & _).
  change (Nat.iter 1 am_rtc_isr s) with (am_rtc_isr s) in *.
  destruct Hsame as (HI1 & _ & _ & _ & _ & _ & _ & _ & _ & Hstep1).
  unfold machine_ok. rewrite Hstep1. split; [exact Hstep|]. split; [congruence|exact Hc1].
Qed.

Lemma loop_machine_ok w fuel s s' :
  loop w fuel s = Some (tt, s') -> machine_ok s -> machine_ok s'.
Proof.
  intros Hrun (Hstep & HI & Hc).
  assert (Hok : timer_ok s) by (split; [exact Hc|rewrite HI; reflexivity]).
  destruct (loop_timer_kept w fuel _ _ _ Hrun) as [HI1 Hok1].
  destruct (Hok1 Hok) as [Hc1 _].
  split; [|split; [congruence|exact Hc1]].
  pose proof (loop_edges w fuel s s' Hrun) as E. cbv zeta in E.
  unfold loop_init, start_GPS, read_GPS, read_pressure, start_LTC3225,
    wait_LTC3225, start_9603, zzz, wake in *.
  assert (Hcase : loop_step (mem s) = 0 \/ loop_step (mem s) = 1 \/
                  loop_step (mem s) = 2 \/ loop_step (mem s) = 3 \/
                  loop_step (mem s) = 4 \/ loop_step (mem s) = 5 \/
                  loop_step (mem s) = 6 \/ loop_step (mem s) = 7 \/
                  loop_step (mem s) = 8) by lia.
  destruct E as (E0 & E1 & E2 & E3 & E4 & E5 & E6 & E7 & E8 & _).
  destruct Hcase as [H|[H|[H|[H|[H|[H|[H|[H|H]]]]]]]];
    [apply E0 in H|apply E1 in H|apply E2 in H|apply E3 in H|apply E4 in H
    |apply E5 in H|apply E6 in H|apply E7 in H|apply E8 in H];
    clear - H; lia.
Qed.

(** X6.  The state machine stays on its rails.  In every state the tracker
    reaches ([setup] from power-on, then passes through [loop] and RTC
    interrupts in any number and order, in any world), [loop_step] is one
    of the nine steps 0..8, [INTERVAL] is still 900 seconds, and
    [seconds_count] lies in [0, INTERVAL): no pass takes the do-nothing
    path of the switch, and the count of seconds never wraps around. *)
Theorem X_machine_stays_on_rails w s :
  reachable w s -> machine_ok s.
Proof.
  intros H. induction H as [s H|fuel s s' _ IH Hrun|s _ IH].
  - exact (setup_machine_ok power_on s eq_refl H).
  - exact (loop_machine_ok w fuel s s' Hrun IH).
  - exact (isr_machine_ok s IH).
Qed.

Lemma X_machine_witness :
  reachable fair_weather (am_rtc_isr (at_step loop_init)) /\
  machine_ok (am_rtc_isr (at_step loop_init)).
Proof.
  assert (H : reachable fair_weather (am_rtc_isr (at_step loop_init)))
    by (apply reach_tick; apply reach_setup; vm_compute; reflexivity).
  exact (conj H (X_machine_stays_on_rails fair_weather _ H)).
Defined.

(** ** [setup] *)

(** What a pin operation and an assignment do to the pins, the variables,
    the clock and the interaction counter. *)
Lemma digitalWrite_view pin v s a s1 :
  digitalWrite pin v s = Some (a, s1) ->
  pins (io s1) = write_level pin v (pins (io s)) /\ mem s1 = mem s /\
  clock (io s1) = clock (io s) /\ tick (io s1) = tick (io s).
Proof. intros H. apply modify_Some in H. subst s1. repeat split. Qed.

Lemma pinMode_view pin m s a s1 :
  pinMode pin m s = Some (a, s1) ->
  pins (io s1) = write_mode pin m (pins (io s)) /\ mem s1 = mem s /\
  clock (io s1) = clock (io s) /\ tick (io s1) = tick (io s).
Proof. intros H. apply modify_Some in H. subst s1. repeat split. Qed.

Lemma assign_view f s a s1 :
  assign f s = Some (a, s1) ->
  pins (io s1) = pins (io s) /\ mem s1 = f (mem s) /\
  clock (io s1) = clock (io s) /\ tick (io s1) = tick (io s).
Proof. intros H. apply modify_Some in H. subst s1. repeat split. Qed.

Lemma delay_view ms s a s1 :
  delay ms s = Some (a, s1) ->
  pins (io s1) = pins (io s) /\ mem s1 = mem s /\
  clock (io s1) = clock (io s) + ms /\ tick (io s1) = tick (io s).
Proof. intros H. apply modify_Some in H. subst s1. repeat split. Qed.

(** Take a run of pin operations and assignments apart, keeping these four
    components of each state and not the trace. *)
Ltac view_run H :=
  lazymatch type of H with
  | bind _ _ _ = Some _ =>
      let H1 := fresh "Hv" in
      apply bind_Some in H as (? & ? & H1 & H); view_run H1; view_run H
  | digitalWrite _ _ _ = Some _ =>
      apply digitalWrite_view in H as (?Hp & ?Hm & ?Hc & ?Ht)
  | pinMode _ _ _ = Some _ =>
      apply pinMode_view in H as (?Hp & ?Hm & ?Hc & ?Ht)
  | assign _ _ = Some _ =>
      apply assign_view in H as (?Hp & ?Hm & ?Hc & ?Ht)
  | delay _ _ = Some _ =>
      apply delay_view in H as (?Hp & ?Hm & ?Hc & ?Ht)
  | power_down _ = Some _ => expand_in H; view_run H
  | gnssOFF _ = Some _ => expand_in H; view_run H
  | gnssON _ = Some _ => expand_in H; view_run H
  end.

Ltac view_back :=
  repeat match goal with
    | H : pins (io _) = _ |- _ => rewrite H; clear H
    | H : mem _ = _ |- _ => rewrite H; clear H
    | H : clock (io _) = _ |- _ => rewrite H; clear H
    | H : tick (io _) = _ |- _ => rewrite H; clear H
    end.

(** The state that [setup] leaves. *)
Lemma setup_view s :
  exists s',
    setup s = Some (tt, s') /\
    all_off (pins (io s')) /\
    (mode (pins (io s')) LED = OUTPUT /\
     mode (pins (io s')) iridiumPwrEN = OUTPUT /\
     mode (pins (io s')) superCapChgEN = OUTPUT /\
     mode (pins (io s')) iridiumSleep = OUTPUT /\
     mode (pins (io s')) busVoltageMonEN = OUTPUT) /\
    (mode (pins (io s')) geofencePin = INPUT /\
     mode (pins (io s')) iridiumRI = INPUT /\
     mode (pins (io s')) iridiumNA = INPUT /\
     mode (pins (io s')) superCapPGOOD = INPUT) /\
    (iterationCounter (mem s') = 0 /\ loop_step (mem s') = loop_init /\
     seconds_count (mem s') = 0 /\ interval_alarm (mem s') = false) /\
    (clock (io s') = clock (io s) /\ tick (io s') = tick (io s)) /\
    (vbat (mem s') = vbat (mem s) /\ fixrec (mem s') = fixrec (mem s) /\
     INTERVAL (mem s') = INTERVAL (mem s)).
Proof.
  assert (Ht : total setup) by (unfold setup; total_auto).
  destruct (Ht s) as ([] & s' & Hrun). exists s'. split; [exact Hrun|].
  expand_in Hrun. view_run Hrun. unfold all_off. view_back.
  repeat split.
Qed.

(** X7.  [setup].  Whatever the pins and the variables held before, [setup]
    returns with every power domain off (GNSS enable HIGH on a pulled-up
    input; modem power, modem ON/OFF, charger enable and voltage monitor
    LOW, all outputs), the LED pin an output, the four signal pins inputs,
    the iteration counter 0, [loop_init] as the step, and the interval
    timer cleared.  It takes no time, reads nothing from outside, and
    leaves the voltage, the fix variables and [INTERVAL] as they were. *)
Theorem X_setup_resets s :
  exists s',
    setup s = Some (tt, s') /\
    all_off (pins (io s')) /\
    (mode (pins (io s')) LED = OUTPUT /\
     mode (pins (io s')) iridiumPwrEN = OUTPUT /\
     mode (pins (io s')) superCapChgEN = OUTPUT /\
     mode (pins (io s')) iridiumSleep = OUTPUT /\
     mode (pins (io s')) busVoltageMonEN = OUTPUT) /\
    (mode (pins (io s')) geofencePin = INPUT /\
     mode (pins (io s')) iridiumRI = INPUT /\
     mode (pins (io s')) iridiumNA = INPUT /\
     mode (pins (io s')) superCapPGOOD = INPUT) /\
    (iterationCounter (mem s') = 0 /\ loop_step (mem s') = loop_init /\
     seconds_count (mem s') = 0 /\ interval_alarm (mem s') = false) /\
    (clock (io s') = clock (io s) /\ tick (io s') = tick (io s)) /\
    (vbat (mem s') = vbat (mem s) /\ fixrec (mem s') = fixrec (mem s) /\
     INTERVAL (mem s') = INTERVAL (mem s)).
Proof. exact (setup_view s). Qed.

(** ** The period of the interval alarm *)

(** Before the interval is over the handler only counts. *)
Lemma isr_counts n : forall s,
  timer_ok s -> interval_alarm (mem s) = false ->
  Z.of_nat n < INTERVAL (mem s) - seconds_count (mem s) ->
  interval_alarm (mem (Nat.iter n am_rtc_isr s)) = false /\
  seconds_count (mem (Nat.iter n am_rtc_isr s)) = seconds_count (mem s) + Z.of_nat n /\
  INTERVAL (mem (Nat.iter n am_rtc_isr s)) = INTERVAL (mem s).
Proof.
  induction n as [|n IH]; intros s Hok Ha Hn.
  - simpl. split; [exact Ha|]. split; [lia|reflexivity].
  - destruct (IH s Hok Ha) as (Ha1 & Hc1 & HI1); [lia|].
    rewrite Nat.iter_succ. set (s1 := Nat.iter n am_rtc_isr s) in *.
    pose proof (am_rtc_isr_effect s1) as (_ & Hsame & Hcases).
    destruct Hok as [Hc HI].
    rewrite wrap_ulong_small in Hcases by lia.
    destruct (INTERVAL (mem s1) <=? seconds_count (mem s1) + 1) eqn:Hle.
    + apply Z.leb_le in Hle. lia.
    + destruct Hcases as [Ha2 Hc2]. split; [congruence|]. split; [lia|].
      destruct Hsame as [HI2 _]. congruence.
Qed.

(** The handler never clears the latch. *)
Lemma isr_latch_stays n s :
  interval_alarm (mem s) = true -> interval_alarm (mem (Nat.iter n am_rtc_isr s)) = true.
Proof.
  intros Ha. induction n as [|n IH]; [exact Ha|].
  rewrite Nat.iter_succ. set (s1 := Nat.iter n am_rtc_isr s) in *.
  pose proof (am_rtc_isr_effect s1) as (_ & _ & Hcases).
  destruct (INTERVAL (mem s1) <=? wrap_ulong (seconds_count (mem s1) + 1));
    destruct Hcases as [H _]; congruence.
Qed.

(** X8.  The period of the interval alarm.  With the latch clear and the
    count of seconds [c] below [INTERVAL], the first [INTERVAL - c - 1] RTC
    alarms only count; the alarm number [INTERVAL - c] sets the latch and
    puts the count back to 0; and since the handler never clears the latch,
    it is set after any larger number of alarms too. *)
Theorem X_alarm_period s n :
  timer_ok s -> interval_alarm (mem s) = false ->
  let d := INTERVAL (mem s) - seconds_count (mem s) in
  let s' := Nat.iter n am_rtc_isr s in
  (Z.of_nat n < d ->
   interval_alarm (mem s') = false /\
   seconds_count (mem s') = seconds_count (mem s) + Z.of_nat n) /\
  (Z.of_nat n = d -> interval_alarm (mem s') = true /\ seconds_count (mem s') = 0) /\
  (d <= Z.of_nat n -> interval_alarm (mem s') = true).
Proof.
  intros Hok Ha d s'. subst d s'.
  assert (Hat : forall m, Z.of_nat m = INTERVAL (mem s) - seconds_count (mem s) ->
                interval_alarm (mem (Nat.iter m am_rtc_isr s)) = true /\
                seconds_count (mem (Nat.iter m am_rtc_isr s)) = 0).
  { intros [|m] Hm; [destruct Hok; simpl in Hm; lia|].
    destruct (isr_counts m s Hok Ha) as (Ha1 & Hc1 & HI1); [lia|].
    rewrite Nat.iter_succ. set (s1 := Nat.iter m am_rtc_isr s) in *.
    pose proof (am_rtc_isr_effect s1) as (_ & _ & Hcases).
    destruct Hok as [Hc HI].
    rewrite wrap_ulong_small in Hcases by lia.
    destruct (INTERVAL (mem s1) <=? seconds_count (mem s1) + 1) eqn:Hle.
    - exact Hcases.
    - apply Z.leb_gt in Hle. lia. }
  split; [|split].
  - intros Hn. destruct (isr_counts n s Hok Ha Hn) as (H1 & H2 & _). auto.
  - apply Hat.
  - intros Hn.
    set (m := Z.to_nat (INTERVAL (mem s) - seconds_count (mem s))).
    assert (Hm : Z.of_nat m = INTERVAL (mem s) - seconds_count (mem s))
      by (subst m; destruct Hok; lia).
    replace n with ((n - m) + m)%nat by lia.
    rewrite Nat.iter_add. apply isr_latch_stays. apply (Hat m Hm).
Qed.

Lemma X_alarm_period_witness :
  timer_ok (at_step zzz) /\ interval_alarm (mem (at_step zzz)) = false /\
  interval_alarm (mem (Nat.iter 899 am_rtc_isr (at_step zzz))) = false /\
  interval_alarm (mem (Nat.iter 900 am_rtc_isr (at_step zzz))) = true /\
  seconds_count (mem (Nat.iter 900 am_rtc_isr (at_step zzz))) = 0.
Proof.
  assert (Hok : timer_ok (at_step zzz)) by (vm_compute; repeat split; congruence).
  assert (Ha : interval_alarm (mem (at_step zzz)) = false) by reflexivity.
  split; [exact Hok|]. split; [exact Ha|].
  destruct (X_alarm_period (at_step zzz) 899 Hok Ha) as (Hlt & _ & _).
  destruct (X_alarm_period (at_step zzz) 900 Hok Ha) as (_ & Heq & _).
  split; [apply Hlt; vm_compute; reflexivity|]. apply Heq. vm_compute. reflexivity.
Defined.

(** ** Sleeping and waking *)

Lemma deep_sleep_keeps_data w :
  stable (keeps (fun s => data_of (mem s))) (deep_sleep w).
Proof.
  apply deep_sleep_keeps.
  intros g g' (H1 & H2 & H3 & H4 & H5 & H6 & H7 & H8 & H9 & _).
  unfold data_of. congruence.
Qed.

#[export] Hint Resolve deep_sleep_keeps_data : frames.

Lemma case_zzz_keeps_data w fuel :
  stable (keeps (fun s => data_of (mem s))) (case_zzz w fuel).
Proof. stable_with frame. Qed.

Lemma case_zzz_led_off w fuel s s' :
  case_zzz w fuel s = Some (tt, s') -> level (pins (io s')) LED = LOW.
Proof.
  intros H. expand_in H.
  apply bind_Some in H as (a & s0 & Hpd & H).
  apply bind_Some in H as (u & s1 & Hwait & H). inv_run H.
  apply sleep_wait_only_slept in Hwait as (Hp & _). project. rewrite Hp.
  view_run Hpd. view_back. reflexivity.
Qed.

(** X9.  Sleeping and waking.  Entered with the timer in its working range
    and in a world whose RTC alarms reach the interval, [zzz] returns with
    every power domain and the LED off, the latch clear and [wake] next, and
    the pass through [wake] that follows goes on to [loop_init].  The
    voltage, the fix variables, pressure, temperature, the iteration counter
    and [INTERVAL] come out of the two steps as they went in, and the timer
    is still in its working range.  (What [wake] restores of the processor,
    its memory, timer clock, serial and debug pads and ADC, has no
    counterpart in the state, and nothing is said about it.) *)
Theorem X_sleep_then_wake w fuel s :
  loop_step (mem s) = zzz ->
  timer_ok s ->
  (interval_alarm (mem s) = false ->
   INTERVAL (mem s) - seconds_count (mem s) <= ticks_within w (tick (io s)) fuel) ->
  exists s1 s2,
    loop w fuel s = Some (tt, s1) /\ loop w fuel s1 = Some (tt, s2) /\
    loop_step (mem s1) = wake /\ loop_step (mem s2) = loop_init /\
    all_off (pins (io s1)) /\
    level (pins (io s1)) LED = LOW /\
    interval_alarm (mem s1) = false /\ interval_alarm (mem s2) = false /\
    data_of (mem s2) = data_of (mem s) /\
    timer_ok s2.
Proof.
  intros Hstep Hok Hticks.
  destruct (case_zzz_returns w fuel s Hok Hticks) as ([] & s1 & Hrun1).
  pose proof (case_zzz_all_off _ _ _ _ Hrun1) as Hoff.
  pose proof (case_zzz_keeps_data w fuel _ _ _ Hrun1) as Hdata. unfold keeps in Hdata.
  assert (H1 : loop w fuel s = Some (tt, s1))
    by (rewrite (loop_at_zzz _ _ _ Hstep); exact Hrun1).
  assert (Hok1 : timer_ok s1) by (apply (loop_timer_kept w fuel _ _ _ H1); exact Hok).
  assert (Hend : loop_step (mem s1) = wake /\ interval_alarm (mem s1) = false).
  { pose proof Hrun1 as H. expand_in H.
    do 2 (apply bind_Some in H as (? & ? & _ & H)). inv_run H. split; reflexivity. }
  destruct Hend as [Hwake Hlatch].
  exists s1, (on_mem (set_loop_step loop_init) s1).
  split; [exact H1|]. split; [rewrite (loop_at_wake _ _ _ Hwake); reflexivity|].
  split; [exact Hwake|]. split; [reflexivity|].
  split; [exact Hoff|]. split; [exact (case_zzz_led_off _ _ _ _ Hrun1)|].
  split; [exact Hlatch|]. split; [exact Hlatch|]. split; [exact Hdata|exact Hok1].
Qed.

Lemma X_sleep_then_wake_witness :
  loop_step (mem (at_step zzz)) = zzz /\
  timer_ok (at_step zzz) /\
  exists s1 s2,
    loop restless 1800 (at_step zzz) = Some (tt, s1) /\
    loop restless 1800 s1 = Some (tt, s2) /\
    loop_step (mem s1) = wake /\ loop_step (mem s2) = loop_init /\
    all_off (pins (io s1)) /\
    level (pins (io s1)) LED = LOW /\
    interval_alarm (mem s1) = false /\ interval_alarm (mem s2) = false /\
    data_of (mem s2) = data_of (mem (at_step zzz)) /\
    timer_ok s2.
Proof.
  assert (Hok : timer_ok (at_step zzz)) by (vm_compute; repeat split; congruence).
  split; [reflexivity|]. split; [exact Hok|].
  apply (X_sleep_then_wake restless 1800 (at_step zzz) eq_refl Hok).
  intros _. vm_compute. congruence.
Defined.

(** ** How long the bounded waits take *)

(** A polling loop with time-out [T] ends within [T + 100] ms of its
    start; it ends on a low sample, or else with its flag down or the
    time-out reached.  The elapsed time is computed modulo 2^32, as the
    sketch does with [millis() - tnow]. *)
Lemma poll_loop_duration T (flag : state -> bool) body :
  0 <= T -> T + 100 < 2 ^ 32 ->
  (forall s b s1, body s = Some (b, s1) -> round_of s b s1) ->
  forall fuel s0 u s1,
    while fuel (fun s => flag s && (wrap_ulong (millis s - millis s0) <? T)) body s0
    = Some (u, s1) ->
    (0 <= clock (io s1) - clock (io s0) <= T + 100 /\
     (s1 = s0 \/ low_voltage s1 = false) /\
     (flag s1 = false \/ T <= clock (io s1) - clock (io s0))) \/
    (0 <= clock (io s1) - clock (io s0) <= T /\ low_voltage s1 = true).
Proof.
  intros HT Hmax Hbody fuel s0 u s1 Hrun.
  apply (while_inv
           (fun s => 0 <= clock (io s) - clock (io s0) <= T + 100 /\
                     (s = s0 \/ low_voltage s = false))
           (fun s => 0 <= clock (io s) - clock (io s0) <= T /\ low_voltage s = true))
    in Hrun.
  - destruct Hrun as [[[Hd Hl] Hc]|H]; [left|right; exact H].
    split; [exact Hd|]. split; [exact Hl|].
    apply andb_false_iff in Hc as [Hc|Hc]; [left; exact Hc|right].
    apply Z.ltb_ge in Hc. unfold millis in Hc. rewrite elapsed_exact in Hc by lia.
    exact Hc.
  - intros s b s2 [Hd _] Hc Hb. apply andb_prop in Hc as [_ Hc].
    apply Z.ltb_lt in Hc. unfold millis in Hc. rewrite elapsed_exact in Hc by lia.
    destruct (Hbody _ _ _ Hb) as [Hlow Hclock].
    destruct b; rewrite Hclock; (split; [lia|auto]).
  - split; [lia|left; reflexivity].
Qed.

(** Show [round_of] for a body whose run has been taken apart. *)
Ltac round_run :=
  unfold round_of, low_voltage in *; project;
  split; [first [reflexivity | symmetry; assumption | assumption]|ring].

Lemma read_GPS_body_round w s b s1 :
  (ft <- ask w (fun w k => getFixType (gps w k)) ;;
   assign (set_fixType ft) ;;
   get_vbat w ;;
   low <- gets low_voltage ;;
   if low then ret true
   else
     flash_LED 1000 ;;
     delay 100 ;;
     ret false) s = Some (b, s1) ->
  round_of s b s1.
Proof. intros H. inv_run H; round_run. Qed.

Lemma start_LTC3225_body_round w s b s1 :
  (pg <- ask w pgood_pin ;;
   assign (set_PGOOD pg) ;;
   get_vbat w ;;
   low <- gets low_voltage ;;
   if low then ret true
   else
     flash_LED 500 ;;
     delay 100 ;;
     ret false) s = Some (b, s1) ->
  round_of s b s1.
Proof. intros H. inv_run H; round_run. Qed.

Lemma wait_LTC3225_body_round w s b s1 :
  (get_vbat w ;;
   low <- gets low_voltage ;;
   if low then ret true
   else
     flash_LED 500 ;;
     delay 100 ;;
     ret false) s = Some (b, s1) ->
  round_of s b s1.
Proof. intros H. inv_run H; round_run. Qed.

Lemma case_wait_LTC3225_timing w fuel s s' :
  case_wait_LTC3225 w fuel s = Some (tt, s') ->
  PGOOD (mem s') = PGOOD (mem s) /\
  domains_kept (pins (io s)) (pins (io s')) /\
  0 <= clock (io s') - clock (io s) <= TOPUP_timeout * 1000 + 100 /\
  (low_voltage s' = false ->
   TOPUP_timeout * 1000 <= clock (io s') - clock (io s) /\
   loop_step (mem s') = if PGOOD (mem s) then start_9603 else zzz).
Proof.
  intros Hrun. expand_in Hrun.
  apply bind_Some in Hrun as (tnow & s0 & H0 & Hrun). inv_run H0.
  apply bind_Some in Hrun as (u & s1 & Hloop & Hrun).
  pose proof (poll_loop_duration (TOPUP_timeout * 1000) (fun _ => true) _
                ltac:(vm_compute; discriminate) ltac:(vm_compute; reflexivity)
                (wait_LTC3225_body_round w) fuel s u s1 Hloop) as Htime.
  kept_by Hloop (fun s => (PGOOD (mem s), level (pins (io s)) gnssEN,
                           level (pins (io s)) iridiumPwrEN,
                           level (pins (io s)) iridiumSleep,
                           level (pins (io s)) superCapChgEN)).
  injection Hkept as Hpg Hg Hi Hs Hc. clear Hloop.
  assert (Hshape : clock (io s') = clock (io s1) /\ pins (io s') = pins (io s1) /\
                   PGOOD (mem s') = PGOOD (mem s1) /\ low_voltage s' = low_voltage s1 /\
                   (low_voltage s1 = false ->
                    loop_step (mem s') = if PGOOD (mem s1) then start_9603 else zzz)).
  { inv_run Hrun; unfold low_voltage in *; project; rewrite ?Hif0;
      repeat split; intros; congruence. }
  destruct Hshape as (Hclock & Hpins & Hpg' & Hlow & Hnext).
  rewrite Hclock, Hpins, Hpg', Hlow, Hpg. unfold domains_kept.
  split; [reflexivity|]. split; [auto|].
  destruct Htime as [(Hd & _ & [Hf|HT])|[Hd Hl]].
  - discriminate Hf.
  - split; [exact Hd|]. intros Hv. split; [exact HT|]. rewrite <- Hpg. auto.
  - split; [lia|]. intros Hv. congruence.
Qed.

(** X10.  The top-up wait.  Given fuel for the wait, [wait_LTC3225] returns
    within [TOPUP_timeout] seconds and 100 ms.  Unless it ends on a low
    voltage sample, it has lasted the full [TOPUP_timeout] seconds, and the
    next step is [start_9603] if [PGOOD] was set on entry and [zzz] if not.
    The step changes neither [PGOOD] nor the level of any power-domain pin.
    Time is that of the millisecond clock, which the delays advance. *)
Theorem X_topup_lasts_its_time w fuel s :
  100 < Z.of_nat fuel ->
  loop_step (mem s) = wait_LTC3225 ->
  exists s',
    loop w fuel s = Some (tt, s') /\
    PGOOD (mem s') = PGOOD (mem s) /\
    domains_kept (pins (io s)) (pins (io s')) /\
    0 <= clock (io s') - clock (io s) <= 10100 /\
    (low_voltage s' = false ->
     10000 <= clock (io s') - clock (io s) /\
     loop_step (mem s') = if PGOOD (mem s) then start_9603 else zzz).
Proof.
  intros Hfuel Hstep. rewrite (loop_at_wait_LTC3225 _ _ _ Hstep).
  destruct (case_wait_LTC3225_returns w fuel s Hfuel) as ([] & s' & Hrun).
  exists s'. split; [exact Hrun|]. exact (case_wait_LTC3225_timing w fuel s s' Hrun).
Qed.

Lemma X_topup_witness :
  100 < Z.of_nat 101 /\ loop_step (mem topup_entry) = wait_LTC3225 /\
  exists s',
    loop charge_lost 101 topup_entry = Some (tt, s') /\
    PGOOD (mem s') = PGOOD (mem topup_entry) /\
    domains_kept (pins (io topup_entry)) (pins (io s')) /\
    0 <= clock (io s') - clock (io topup_entry) <= 10100 /\
    (low_voltage s' = false ->
     10000 <= clock (io s') - clock (io topup_entry) /\
     loop_step (mem s') = if PGOOD (mem topup_entry) then start_9603 else zzz).
Proof.
  assert (H1 : 100 < Z.of_nat 101) by reflexivity.
  assert (H2 : loop_step (mem topup_entry) = wait_LTC3225) by reflexivity.
  exact (conj H1 (conj H2 (X_topup_lasts_its_time charge_lost 101 topup_entry H1 H2))).
Defined.

Lemma case_start_LTC3225_timing w fuel s s' :
  case_start_LTC3225 w fuel s = Some (tt, s') ->
  level (pins (io s')) superCapChgEN = HIGH /\
  (level (pins (io s')) gnssEN = level (pins (io s)) gnssEN /\
   level (pins (io s')) iridiumPwrEN = level (pins (io s)) iridiumPwrEN /\
   level (pins (io s')) iridiumSleep = level (pins (io s)) iridiumSleep) /\
  2000 <= clock (io s') - clock (io s) <= 2000 + (CHG_timeout * 60 * 1000 + 100) /\
  (low_voltage s' = false ->
   loop_step (mem s') = (if PGOOD (mem s') then wait_LTC3225 else zzz) /\
   (PGOOD (mem s') = false ->
    2000 + CHG_timeout * 60 * 1000 <= clock (io s') - clock (io s))).
Proof.
  intros Hrun. expand_in Hrun.
  apply bind_Some in Hrun as (a0 & s0 & H0 & Hrun). inv_run H0.
  apply bind_Some in Hrun as (a1 & s0 & H0 & Hrun). inv_run H0.
  apply bind_Some in Hrun as (a2 & s0 & H0 & Hrun). inv_run H0.
  apply bind_Some in Hrun as (tnow & s0 & H0 & Hrun). inv_run H0.
  apply bind_Some in Hrun as (u & s1 & Hloop & Hrun).
  pose proof (poll_loop_duration (CHG_timeout * 60 * 1000)
                (fun s => negb (PGOOD (mem s))) _
                ltac:(vm_compute; discriminate) ltac:(vm_compute; reflexivity)
                (start_LTC3225_body_round w) fuel _ u s1 Hloop) as Htime.
  kept_by Hloop (fun s => (level (pins (io s)) gnssEN,
                           level (pins (io s)) iridiumPwrEN,
                           level (pins (io s)) iridiumSleep,
                           level (pins (io s)) superCapChgEN)).
  injection Hkept as Hg Hi Hs Hc. clear Hloop. project.
  assert (Hshape : clock (io s') = clock (io s1) /\ pins (io s') = pins (io s1) /\
                   PGOOD (mem s') = PGOOD (mem s1) /\ low_voltage s' = low_voltage s1 /\
                   (low_voltage s1 = false ->
                    loop_step (mem s') = if PGOOD (mem s1) then wait_LTC3225 else zzz)).
  { inv_run Hrun; unfold low_voltage in *; project; rewrite ?Hif0;
      repeat split; intros; congruence. }
  destruct Hshape as (Hclock & Hpins & Hpg' & Hlow & Hnext).
  rewrite Hclock, Hpins, Hpg', Hlow.
  split; [exact Hc|]. split; [auto|].
  destruct Htime as [(Hd & _ & [Hf|HT])|[Hd Hl]].
  - split; [lia|]. intros Hv. split; [auto|]. intros Hpg.
    rewrite Hpg in Hf. discriminate Hf.
  - split; [lia|]. intros Hv. split; [auto|]. intros _. lia.
  - split; [lia|]. intros Hv. congruence.
Qed.

(** X11.  Charging the capacitors.  Given fuel for the wait, [start_LTC3225]
    returns with the charger enabled, after the two seconds it gives the
    charger and at most [CHG_timeout] minutes and 100 ms of polling.  Unless
    it ends on a low voltage sample, the next step is [wait_LTC3225] when
    the last reading of the PGOOD pin was HIGH and [zzz] when it was not,
    and the charge is given up only after the full [CHG_timeout] minutes.
    The levels of the GNSS and modem pins are not changed.  Time is that of
    the millisecond clock, which the delays advance. *)
Theorem X_charge_outcome w fuel s :
  1189 < Z.of_nat fuel ->
  loop_step (mem s) = start_LTC3225 ->
  exists s',
    loop w fuel s = Some (tt, s') /\
    level (pins (io s')) superCapChgEN = HIGH /\
    (level (pins (io s')) gnssEN = level (pins (io s)) gnssEN /\
     level (pins (io s')) iridiumPwrEN = level (pins (io s)) iridiumPwrEN /\
     level (pins (io s')) iridiumSleep = level (pins (io s)) iridiumSleep) /\
    2000 <= clock (io s') - clock (io s) <= 122100 /\
    (low_voltage s' = false ->
     loop_step (mem s') = (if PGOOD (mem s') then wait_LTC3225 else zzz) /\
     (PGOOD (mem s') = false -> 122000 <= clock (io s') - clock (io s))).
Proof.
  intros Hfuel Hstep. rewrite (loop_at_start_LTC3225 _ _ _ Hstep).
  destruct (case_start_LTC3225_returns w fuel s Hfuel) as ([] & s' & Hrun).
  exists s'. split; [exact Hrun|]. exact (case_start_LTC3225_timing w fuel s s' Hrun).
Qed.

Lemma X_charge_witness :
  1189 < Z.of_nat 1190 /\ loop_step (mem (at_step start_LTC3225)) = start_LTC3225 /\
  exists s',
    loop charge_lost 1190 (at_step start_LTC3225) = Some (tt, s') /\
    level (pins (io s')) superCapChgEN = HIGH /\
    (level (pins (io s')) gnssEN = level (pins (io (at_step start_LTC3225))) gnssEN /\
     level (pins (io s')) iridiumPwrEN
     = level (pins (io (at_step start_LTC3225))) iridiumPwrEN /\
     level (pins (io s')) iridiumSleep
     = level (pins (io (at_step start_LTC3225))) iridiumSleep) /\
    2000 <= clock (io s') - clock (io (at_step start_LTC3225)) <= 122100 /\
    (low_voltage s' = false ->
     loop_step (mem s') = (if PGOOD (mem s') then wait_LTC3225 else zzz) /\
     (PGOOD (mem s') = false ->
      122000 <= clock (io s') - clock (io (at_step start_LTC3225)))).
Proof.
  assert (H1 : 1189 < Z.of_nat 1190) by reflexivity.
  assert (H2 : loop_step (mem (at_step start_LTC3225)) = start_LTC3225) by reflexivity.
  exact (conj H1 (conj H2
           (X_charge_outcome charge_lost 1190 (at_step start_LTC3225) H1 H2))).
Defined.

Lemma case_read_GPS_outcome w fuel s s' :
  case_read_GPS w fuel s = Some (tt, s') ->
  level (pins (io s')) gnssEN = HIGH /\
  mode (pins (io s')) gnssEN = INPUT_PULLUP /\
  0 <= clock (io s') - clock (io s) <= GNSS_timeout * 60 * 1000 + 100 /\
  (low_voltage s' = false ->
   loop_step (mem s') = read_pressure /\
   if fixType (mem s') =? 3 then
     exists k, tick (io s') = (k + 14)%nat /\ fixrec (mem s') = fix_read_at w k
   else
     fixrec (mem s') = default_fix /\
     GNSS_timeout * 60 * 1000 <= clock (io s') - clock (io s)).
Proof.
  intros Hrun. expand_in Hrun.
  apply bind_Some in Hrun as (a0 & s0 & H0 & Hrun). inv_run H0.
  apply bind_Some in Hrun as (tnow & s0 & H0 & Hrun). inv_run H0.
  apply bind_Some in Hrun as (u & s1 & Hloop & Hrun).
  pose proof (poll_loop_duration (GNSS_timeout * 60 * 1000)
                (fun s => negb (fixType (mem s) =? 3)) _
                ltac:(vm_compute; discriminate) ltac:(vm_compute; reflexivity)
                (read_GPS_body_round w) fuel _ u s1 Hloop) as Htime.
  clear Hloop. project.
  assert (Hshape : clock (io s') = clock (io s1) /\
                   level (pins (io s')) gnssEN = HIGH /\
                   mode (pins (io s')) gnssEN = INPUT_PULLUP /\
                   fixType (mem s') = fixType (mem s1) /\
                   low_voltage s' = low_voltage s1 /\
                   (low_voltage s1 = false ->
                    loop_step (mem s') = read_pressure /\
                    if fixType (mem s1) =? 3 then
                      tick (io s') = (tick (io s1) + 14)%nat /\
                      fixrec (mem s') = fix_read_at w (tick (io s1))
                    else fixrec (mem s') = default_fix)).
  { inv_run Hrun; unfold low_voltage in *; project; rewrite ?Hif0;
      repeat split; try congruence.
    - rewrite ?Nat.add_succ_r, Nat.add_0_r. reflexivity.
    - unfold fix_read_at. rewrite ?Nat.add_succ_r, ?Nat.add_0_r. reflexivity. }
  destruct Hshape as (Hclock & Hlevel & Hmode & Hft & Hlow & Hnext).
  rewrite Hclock, Hft, Hlow.
  split; [exact Hlevel|]. split; [exact Hmode|].
  assert (Hd : 0 <= clock (io s1) - clock (io s) <= GNSS_timeout * 60 * 1000 + 100)
    by (destruct Htime as [(Hd & _)|[Hd _]]; lia).
  split; [exact Hd|]. intros Hv. destruct (Hnext Hv) as [Hstep Hfix].
  split; [exact Hstep|].
  destruct (fixType (mem s1) =? 3) eqn:E.
  - exists (tick (io s1)). exact Hfix.
  - split; [exact Hfix|].
    destruct Htime as [(_ & _ & [Hf|HT])|[_ Hl]];
      [discriminate Hf|exact HT|congruence].
Qed.

(** X12.  What [read_GPS] leaves.  Given fuel for the wait, [read_GPS] returns
    within [GNSS_timeout] minutes and 100 ms with the receiver powered down
    (enable HIGH on a pulled-up input), whatever happened.  Unless the last
    voltage sample is low, the next step is [read_pressure]; when the last
    fix type reported is 3, the fix variables are those of the fourteen
    getter calls that end the step, the time first, latitude, longitude and
    speed scaled to a float and altitude, heading and PDOP by truncating
    integer division; otherwise the fix variables are the defaults and the
    full [GNSS_timeout] minutes have passed.  Time is that of the
    millisecond clock, which the delays advance. *)
Theorem X_read_GPS_outcome w fuel s :
  2971 < Z.of_nat fuel ->
  loop_step (mem s) = read_GPS ->
  exists s',
    loop w fuel s = Some (tt, s') /\
    level (pins (io s')) gnssEN = HIGH /\
    mode (pins (io s')) gnssEN = INPUT_PULLUP /\
    0 <= clock (io s') - clock (io s) <= 300100 /\
    (low_voltage s' = false ->
     loop_step (mem s') = read_pressure /\
     if fixType (mem s') =? 3 then
       exists k, tick (io s') = (k + 14)%nat /\ fixrec (mem s') = fix_read_at w k
     else
       fixrec (mem s') = default_fix /\
       300000 <= clock (io s') - clock (io s)).
Proof.
  intros Hfuel Hstep. rewrite (loop_at_read_GPS _ _ _ Hstep).
  destruct (case_read_GPS_returns w fuel s Hfuel) as ([] & s' & Hrun).
  exists s'. split; [exact Hrun|]. exact (case_read_GPS_outcome w fuel s s' Hrun).
Qed.

Lemma X_read_GPS_witness :
  2971 < Z.of_nat 2972 /\ loop_step (mem (at_step read_GPS)) = read_GPS /\
  exists s',
    loop fair_weather 2972 (at_step read_GPS) = Some (tt, s') /\
    level (pins (io s')) gnssEN = HIGH /\
    mode (pins (io s')) gnssEN = INPUT_PULLUP /\
    0 <= clock (io s') - clock (io (at_step read_GPS)) <= 300100 /\
    (low_voltage s' = false ->
     loop_step (mem s') = read_pressure /\
     if fixType (mem s') =? 3 then
       exists k, tick (io s') = (k + 14)%nat /\
                 fixrec (mem s') = fix_read_at fair_weather k
     else
       fixrec (mem s') = default_fix /\
       300000 <= clock (io s') - clock (io (at_step read_GPS))).
Proof.
  assert (H1 : 2971 < Z.of_nat 2972) by reflexivity.
  assert (H2 : loop_step (mem (at_step read_GPS)) = read_GPS) by reflexivity.
  exact (conj H1 (conj H2
           (X_read_GPS_outcome fair_weather 2972 (at_step read_GPS) H1 H2))).
Defined.

(** ** The message that is sent *)

#[export] Instance sampling_preorder : PreOrder sampling.
Proof.
  split.
  - intros s. exists []. split; [reflexivity|]. split; [constructor|left; reflexivity].
  - intros s1 s2 s3 (n1 & H1 & F1 & V1) (n2 & H2 & F2 & V2). exists (n2 ++ n1).
    split; [rewrite H2, H1; apply app_assoc|].
    split; [apply Forall_app; split; assumption|].
    destruct V2 as [V2|(t & V2)].
    + rewrite V2. destruct V1 as [V1|(t & V1)]; [left; exact V1|right].
      exists t. apply in_or_app. right. exact V1.
    + right. exists t. apply in_or_app. left. exact V2.
Qed.

Ltac sampling_frame :=
  first
    [ exists []; split; [reflexivity|]; split; [constructor|left; reflexivity]
    | eexists [_]; split; [reflexivity|]; split;
      [constructor; [exact I|constructor]
      |first [left; reflexivity|right; eexists; left; reflexivity]] ].

Lemma modem_call_sampling w : stable (both (keeps modem_frame) sampling) (modem_call w).
Proof. stable_with ltac:(split; [reflexivity|sampling_frame]). Qed.

Lemma blink_sampling n :
  stable (both (keeps modem_frame) sampling)
    (repeat_n n (digitalWrite LED HIGH ;; delay 100 ;; digitalWrite LED LOW ;; delay 100)).
Proof. stable_with ltac:(split; [reflexivity|sampling_frame]). Qed.

Lemma sends_app l1 l2 : sends (l1 ++ l2) = sends l1 ++ sends l2.
Proof.
  induction l1 as [|[p|t v|msg|p] l1 IH]; simpl; rewrite ?IH; reflexivity.
Qed.

Lemma sends_quiet l : Forall no_send l -> sends l = [].
Proof.
  induction 1 as [|[p|t v|msg|p] l He _ IH]; simpl; try exact IH; try reflexivity.
  destruct He.
Qed.

(** [start_9603] hands at most one text to the modem, made from the
    variables as the step found them and the latest voltage sample. *)
Lemma start_9603_message w s :
  exists s' new,
    case_start_9603 w s = Some (tt, s') /\
    trace (io s') = new ++ trace (io s) /\
    level (pins (io s')) iridiumPwrEN = HIGH /\
    (sends new = [] /\ iterationCounter (mem s') = iterationCounter (mem s) \/
     exists sm,
       sends new = [format_message sm] /\
       iterationCounter (mem s') = wrap_long (iterationCounter (mem s) + 1) /\
       fixrec (mem sm) = fixrec (mem s) /\ pascals (mem sm) = pascals (mem s) /\
       tempC (mem sm) = tempC (mem s) /\
       iterationCounter (mem sm) = iterationCounter (mem s) /\
       (vbat (mem sm) = vbat (mem s) \/
        exists t, In (EvVbat t (vbat (mem sm))) new)).
Proof.
  assert (Ht : total (case_start_9603 w)) by total_auto.
  destruct (Ht s) as ([] & s' & Hrun). exists s'.
  pose proof Hrun as Hcopy. expand_in Hcopy. inv_run Hcopy.
  all: repeat match goal with
       | H : modem_call _ _ = Some _ |- _ =>
           apply modem_call_sampling in H as [?Hk (?n & ?Ht & ?Hn & ?Hv)]
       | H : sendSBDText _ _ _ = Some _ |- _ => expand_in H; inv_run H
       | H : repeat_n _ _ _ = Some _ |- _ =>
           apply blink_sampling in H as [?Hk (?n & ?Ht & ?Hn & ?Hv)]
       end; unfold keeps, modem_frame in *; project.
  all: change (iridiumPwrEN =? iridiumPwrEN) with true in *;
    change (iridiumPwrEN =? LED) with false in *; cbv iota in *.
  all: eexists; split; [exact Hrun|]; split; [trace_back; peel|].
  all: repeat match goal with
       | H : (_, _) = (_, _) |- _ => injection H as ? ? ? ? ?
       end.
  all: split; [congruence|].
  all: repeat (rewrite sends_app || cbn [sends app]).
  all: repeat match goal with
       | H : Forall no_send ?l |- context [sends ?l] => rewrite (sends_quiet l H)
       end; cbn [app].
  - left. split; [reflexivity|congruence].
  - right.
    lazymatch goal with |- context [EvSend (format_message ?sm)] => exists sm end.
    project. split; [reflexivity|]. repeat (split; [congruence|]).
    lazymatch goal with
    | H : vbat (mem ?x) = vbat (mem s) \/ _ |- vbat (mem ?x) = vbat (mem s) \/ _ =>
        destruct H as [H|(t & H)]; [left; exact H|right; exists t]
    end.
    repeat (rewrite in_app_iff || cbn [In]). tauto.
  - right.
    lazymatch goal with |- context [EvSend (format_message ?sm)] => exists sm end.
    project. split; [reflexivity|]. repeat (split; [congruence|]).
    lazymatch goal with
    | H : vbat (mem ?x) = vbat (mem s) \/ _ |- vbat (mem ?x) = vbat (mem s) \/ _ =>
        destruct H as [H|(t & H)]; [left; exact H|right; exists t]
    end.
    repeat (rewrite in_app_iff || cbn [In]). tauto.
Qed.

(** ** The modem and its capacitors *)

Lemma extend_never_starved pin v s s1 :
  (forall p, level p pin = v -> starved p = false) ->
  never_starved s ->
  level (pins (io s)) pin = v ->
  untouched pin s s1 ->
  never_starved s1.
Proof.
  intros Hoff [Hnow Hpast] Hv [Hlevel (new & Ht & Hnew)]. split.
  - apply Hoff. congruence.
  - rewrite Ht. apply Forall_app. split; [|exact Hpast].
    rewrite Hv in Hnew. revert Hnew. apply Forall_impl.
    intros e. unfold level_is, fed_event. destruct (event_pins e); auto.
Qed.

Lemma modem_off_fed p : level p iridiumPwrEN = LOW -> starved p = false.
Proof. unfold starved. intros ->. reflexivity. Qed.

Lemma charger_on_fed p : level p superCapChgEN = HIGH -> starved p = false.
Proof. unfold starved. intros ->. apply andb_false_r. Qed.

(** A case entered with the modem off, and that does not touch its power,
    starves nothing. *)
Lemma modem_off_case (m : M unit) s s' :
  stable (untouched iridiumPwrEN) m ->
  m s = Some (tt, s') ->
  power_invariant s -> loop_step (mem s) <> zzz ->
  never_starved s -> never_starved s'.
Proof.
  intros Hm Hrun (_ & Hir & _) Hz Hs.
  assert (Hlow : level (pins (io s)) iridiumPwrEN = LOW) by (apply not_high; auto).
  exact (extend_never_starved _ _ _ _ modem_off_fed Hs Hlow (Hm _ _ _ Hrun)).
Qed.

(** Only [start_LTC3225] and [wait_LTC3225] lead into the two steps that
    need the charger. *)
Lemma charged_next w fuel s s' :
  loop w fuel s = Some (tt, s') ->
  loop_step (mem s') = wait_LTC3225 \/ loop_step (mem s') = start_9603 ->
  loop_step (mem s) = start_LTC3225 \/ loop_step (mem s) = wait_LTC3225 \/ s' = s.
Proof.
  intros Hrun Hnext. pose proof (loop_edges w fuel s s' Hrun) as E. cbv zeta in E.
  destruct E as (E0 & E1 & E2 & E3 & E4 & E5 & E6 & E7 & E8 & Eout).
  unfold loop_init, start_GPS, read_GPS, read_pressure, start_LTC3225,
    wait_LTC3225, start_9603, zzz, wake in *.
  assert (Hcase : loop_step (mem s) = 0 \/ loop_step (mem s) = 1 \/
                  loop_step (mem s) = 2 \/ loop_step (mem s) = 3 \/
                  loop_step (mem s) = 4 \/ loop_step (mem s) = 5 \/
                  loop_step (mem s) = 6 \/ loop_step (mem s) = 7 \/
                  loop_step (mem s) = 8 \/
                  (loop_step (mem s) < 0 \/ 8 < loop_step (mem s))) by lia.
  destruct Hcase as [H|[H|[H|[H|[H|[H|[H|[H|[H|H]]]]]]]]]; auto;
    [apply E0 in H|apply E1 in H|apply E2 in H|apply E3 in H
    |apply E6 in H|apply E7 in H|apply E8 in H];
    clear - H Hnext; lia.
Qed.

Lemma case_zzz_never_starved w fuel s s' :
  case_zzz w fuel s = Some (tt, s') -> never_starved s -> never_starved s'.
Proof.
  intros H [Hnow Hpast]. expand_in H.
  apply bind_Some in H as (a & s0 & Hpd & H). expand_in Hpd.
  apply bind_Some in Hpd as (a0 & sa & H1 & Hpd).
  apply bind_Some in Hpd as (a1 & sb & H2 & Hpd).
  apply bind_Some in Hpd as (a2 & sc & H3 & Hpd).
  apply bind_Some in Hpd as (a3 & sd & H4 & Hpd).
  assert (Hrest : untouched iridiumPwrEN sd s').
  { transitivity s0.
    - revert Hpd. generalize sd a s0.
      change (stable (untouched iridiumPwrEN)
        (delay 1000 ;;
         digitalWrite superCapChgEN LOW ;;
         digitalWrite busVoltageMonEN LOW ;;
         digitalWrite LED LOW)).
      stable_with untouched_frame.
    - revert H. generalize s0 tt s'.
      change (stable (untouched iridiumPwrEN)
        (sleep_wait w fuel ;;
         assign (set_interval_alarm false) ;;
         assign (set_loop_step wake))).
      stable_with untouched_frame. }
  inv_run H1. inv_run H2. inv_run H3. inv_run H4.
  apply (extend_never_starved iridiumPwrEN LOW _ _ modem_off_fed) in Hrest;
    [exact Hrest| |reflexivity].
  split; [reflexivity|]. project.
  repeat constructor; try exact Hpast; exact Hnow.
Qed.

Ltac modem_off Hrun :=
  apply (modem_off_case _ _ _) with (2 := Hrun);
  [stable_with untouched_frame|assumption|other_step|assumption].

Lemma loop_keeps_supply w fuel s s' :
  power_invariant s -> supply_invariant s ->
  loop w fuel s = Some (tt, s') -> supply_invariant s'.
Proof.
  intros Hpow [Hfed Hchg] Hrun. split.
  - loop_cases Hrun.
    + modem_off Hrun.
    + modem_off Hrun.
    + modem_off Hrun.
    + modem_off Hrun.
    + modem_off Hrun.
    + modem_off Hrun.
    + assert (Hc : untouched superCapChgEN s s').
      { revert Hrun. generalize s tt s'.
        change (stable (untouched superCapChgEN) (case_start_9603 w)).
        stable_with untouched_frame. }
      exact (extend_never_starved _ _ _ _ charger_on_fed Hfed (Hchg (or_intror Hstep5)) Hc).
    + exact (case_zzz_never_starved _ _ _ _ Hrun Hfed).
    + modem_off Hrun.
    + apply ret_Some in Hrun as [_ <-]. exact Hfed.
  - intros Hnext.
    destruct (charged_next w fuel s s' Hrun Hnext) as [H|[H|H]].
    + rewrite (loop_at_start_LTC3225 _ _ _ H) in Hrun.
      apply (case_start_LTC3225_timing w fuel s s' Hrun).
    + rewrite (loop_at_wait_LTC3225 _ _ _ H) in Hrun.
      destruct (case_wait_LTC3225_timing w fuel s s' Hrun) as (_ & (_ & _ & _ & Hc) & _).
      rewrite Hc. auto.
    + subst s'. auto.
Qed.

Lemma supply_invariantb_spec s : supply_invariantb s = true -> supply_invariant s.
Proof.
  unfold supply_invariantb, supply_invariant, never_starved. intros H.
  apply andb_prop in H as [H Hc]. apply andb_prop in H as [Hnow Hpast].
  apply negb_true_iff in Hnow.
  split; [split; [exact Hnow|]|].
  - apply Forall_forall. intros e He.
    pose proof (proj1 (forallb_forall _ _) Hpast e He) as Hs.
    unfold fed_eventb, fed_event in *. destruct (event_pins e); [|exact I].
    apply negb_true_iff. exact Hs.
  - intros [E|E]; rewrite E in Hc; exact Hc.
Qed.

Lemma setup_supply_invariant s :
  setup power_on = Some (tt, s) -> supply_invariant s.
Proof.
  intros H.
  destruct (run_passes_spec (setup power_on) supply_invariantb) as (s2 & H2 & Hp);
    [vm_compute; reflexivity|].
  rewrite H in H2. injection H2 as <-. apply supply_invariantb_spec. exact Hp.
Qed.

Lemma isr_keeps_supply s : supply_invariant s -> supply_invariant (am_rtc_isr s).
Proof.
  destruct (am_rtc_isr_effect s) as (Hio & Hsame & _).
  assert (Hstep : loop_step (mem (am_rtc_isr s)) = loop_step (mem s)) by apply Hsame.
  unfold supply_invariant, never_starved. rewrite Hio, Hstep. auto.
Qed.

(** X13.  The modem is never powered without its charger.  In every state the
    tracker reaches, and at every pin operation and every entry into deep
    sleep on the way there, the modem power enable is not HIGH while the
    supercapacitor charger enable is LOW: the charger is switched on two
    steps before the modem and off after it. *)
Theorem X_modem_never_without_charger w s :
  reachable w s ->
  starved (pins (io s)) = false /\
  forall e p, In e (trace (io s)) -> event_pins e = Some p -> starved p = false.
Proof.
  intros Hreach.
  assert (Hinv : supply_invariant s).
  { induction Hreach as [s H|fuel s s' Hreach IH Hrun|s _ IH].
    - exact (setup_supply_invariant s H).
    - exact (loop_keeps_supply w fuel s s' (reachable_power_invariant w s Hreach) IH Hrun).
    - exact (isr_keeps_supply s IH). }
  destruct Hinv as ((Hnow & Hpast) & _).
  split; [exact Hnow|]. intros e p He Hp.
  rewrite Forall_forall in Hpast. specialize (Hpast e He).
  unfold fed_event in Hpast. rewrite Hp in Hpast. exact Hpast.
Qed.

Lemma X_modem_witness :
  exists s',
    passes fair_weather 3000 9 (at_step loop_init) = Some s' /\
    reachable fair_weather s' /\
    starved (pins (io s')) = false /\
    forall e p, In e (trace (io s')) -> event_pins e = Some p -> starved p = false.
Proof.
  destruct fair_weather_cycle as (s' & Hrun & _).
  assert (Hreach : reachable fair_weather s').
  { apply (passes_reachable fair_weather 3000 9 (at_step loop_init) s'); [|exact Hrun].
    apply reach_setup. vm_compute. reflexivity. }
  exists s'. split; [exact Hrun|]. split; [exact Hreach|].
  exact (X_modem_never_without_charger fair_weather s' Hreach).
Defined.

(** The values of the formatting example fit the arrays. *)
Lemma sample_fits_buffers : fits_buffers sample_message_state = true.
Proof. vm_compute. reflexivity. Qed.

(** X14.  The message of a pass.  [start_9603] returns with the modem still
    powered and has handed at most one text to the modem; the iteration
    counter stays when it handed none and goes up by one (modulo 2^32) when
    it handed one.  The text is made from the fix variables, the pressure,
    the temperature and the iteration counter as they were when the step
    began (the counter before its increment), and from the voltage in [vbat]
    when the modem had started: the one from before the step, or a sample
    that the callback took during the step.  When each converted number and
    the whole message fit the character array that the sketch gives them,
    the text is the message formatted from these values; for values that
    overflow an array nothing is said about the text. *)
Theorem X_message_of_a_pass w fuel s :
  loop_step (mem s) = start_9603 ->
  exists s' new,
    loop w fuel s = Some (tt, s') /\
    trace (io s') = new ++ trace (io s) /\
    level (pins (io s')) iridiumPwrEN = HIGH /\
    (sends new = [] /\ iterationCounter (mem s') = iterationCounter (mem s) \/
     exists sm msg,
       sends new = [msg] /\
       iterationCounter (mem s') = wrap_long (iterationCounter (mem s) + 1) /\
       fixrec (mem sm) = fixrec (mem s) /\ pascals (mem sm) = pascals (mem s) /\
       tempC (mem sm) = tempC (mem s) /\
       iterationCounter (mem sm) = iterationCounter (mem s) /\
       (vbat (mem sm) = vbat (mem s) \/
        exists t, In (EvVbat t (vbat (mem sm))) new) /\
       (fits_buffers sm = true -> msg = format_message sm)).
Proof.
  intros Hstep. rewrite (loop_at_start_9603 _ _ _ Hstep).
  destruct (start_9603_message w s) as (s' & new & Hrun & Ht & Hp & Hcases).
  exists s', new. split; [exact Hrun|]. split; [exact Ht|]. split; [exact Hp|].
  destruct Hcases as [H|(sm & Hs & Hc & Hf & Hpa & Hte & Hi & Hv)]; [left; exact H|].
  right. exists sm, (format_message sm). auto 10.
Qed.

Lemma X_message_witness :
  loop_step (mem sample_message_state) = start_9603 /\
  exists s' new,
    loop fair_weather 0 sample_message_state = Some (tt, s') /\
    trace (io s') = new ++ trace (io sample_message_state) /\
    level (pins (io s')) iridiumPwrEN = HIGH /\
    (sends new = [] /\
     iterationCounter (mem s') = iterationCounter (mem sample_message_state) \/
     exists sm msg,
       sends new = [msg] /\
       iterationCounter (mem s')
       = wrap_long (iterationCounter (mem sample_message_state) + 1) /\
       fixrec (mem sm) = fixrec (mem sample_message_state) /\
       pascals (mem sm) = pascals (mem sample_message_state) /\
       tempC (mem sm) = tempC (mem sample_message_state) /\
       iterationCounter (mem sm) = iterationCounter (mem sample_message_state) /\
       (vbat (mem sm) = vbat (mem sample_message_state) \/
        exists t, In (EvVbat t (vbat (mem sm))) new) /\
       (fits_buffers sm = true -> msg = format_message sm)).
Proof.
  assert (H : loop_step (mem sample_message_state) = start_9603) by reflexivity.
  exact (conj H (X_message_of_a_pass fair_weather 0 sample_message_state H)).
Defined.

(** ** The counter and the messages *)

Lemma wrap_long_succ a : wrap_long (wrap_long a + 1) = wrap_long (a + 1).
Proof.
  unfold wrap_long.
  replace ((a + 2 ^ 31) mod 2 ^ 32 - 2 ^ 31 + 1 + 2 ^ 31)
    with ((a + 2 ^ 31) mod 2 ^ 32 + 1) by ring.
  rewrite Zplus_mod_idemp_l. f_equal. f_equal. ring.
Qed.

Lemma deep_sleep_counter_kept w : stable counter_kept (deep_sleep w).
Proof.
  intros s a s1 H. split.
  - exact (deep_sleep_keeps_counter w _ _ _ H).
  - destruct (deep_sleep_only_slept w _ _ _ H) as (_ & _ & new & Ht & Hn).
    exists new. split; [exact Ht|].
    apply Forall_forall. intros e He. rewrite (Hn e He). exact I.
Qed.

#[export] Hint Resolve deep_sleep_counter_kept : frames.

Lemma quiet_counts s s' :
  counter_kept s s' -> counts_messages s -> counts_messages s'.
Proof.
  intros [Hc (new & Ht & Hn)] Hs. unfold counts_messages, keeps in *.
  rewrite Hc, Ht, sends_app, (sends_quiet _ Hn). exact Hs.
Qed.

Lemma loop_keeps_count w fuel s s' :
  counts_messages s -> loop w fuel s = Some (tt, s') -> counts_messages s'.
Proof.
  intros Hs Hrun.
  assert (Hq : forall (m : M unit),
             stable counter_kept m -> m s = Some (tt, s') -> counts_messages s')
    by (intros m Hm H; exact (quiet_counts _ _ (Hm _ _ _ H) Hs)).
  loop_cases Hrun;
    try solve [revert Hrun; apply Hq; unfold counter_kept; stable_with counter_frame].
  destruct (start_9603_message w s) as (s2 & new & Hrun2 & Ht & _ & Hcases).
  rewrite Hrun in Hrun2. injection Hrun2 as <-.
  unfold counts_messages in *. rewrite Ht, sends_app.
  destruct Hcases as [[Hn Hc]|(sm & Hn & Hc & _)]; rewrite Hn, Hc.
  - exact Hs.
  - rewrite Hs, wrap_long_succ. f_equal. cbn [app List.length]. lia.
Qed.

Lemma setup_counts s : setup power_on = Some (tt, s) -> counts_messages s.
Proof.
  intros H.
  destruct (run_passes_spec (setup power_on) counts_messagesb) as (s2 & H2 & Hp);
    [vm_compute; reflexivity|].
  rewrite H in H2. injection H2 as <-. apply Z.eqb_eq. exact Hp.
Qed.

(** X15.  The counter counts the messages.  In every state the tracker
    reaches, the iteration counter is the number of texts it has handed to
    the modem since power-on (as a [long], so modulo 2^32), whatever
    became of them. *)
Theorem X_counter_counts_messages w s :
  reachable w s ->
  iterationCounter (mem s)
  = wrap_long (Z.of_nat (List.length (sends (trace (io s))))).
Proof.
  intros Hreach. induction Hreach as [s H|fuel s s' _ IH Hrun|s _ IH].
  - exact (setup_counts s H).
  - exact (loop_keeps_count w fuel s s' IH Hrun).
  - destruct (am_rtc_isr_effect s) as (Hio & Hsame & _).
    rewrite Hio. destruct Hsame as (_ & Hc & _). rewrite Hc. exact IH.
Qed.

Lemma X_counter_witness :
  exists s',
    passes fair_weather 3000 9 (at_step loop_init) = Some s' /\
    reachable fair_weather s' /\
    iterationCounter (mem s')
    = wrap_long (Z.of_nat (List.length (sends (trace (io s'))))).
Proof.
  destruct fair_weather_cycle as (s' & Hrun & _).
  assert (Hreach : reachable fair_weather s').
  { apply (passes_reachable fair_weather 3000 9 (at_step loop_init) s'); [|exact Hrun].
    apply reach_setup. vm_compute. reflexivity. }
  exists s'. split; [exact Hrun|]. split; [exact Hreach|].
  exact (X_counter_counts_messages fair_weather s' Hreach).
Defined.

(** ** Every cycle ends in [zzz] *)

(** A pass from a step before [zzz] moves to a later step. *)
Lemma loop_moves_on w fuel s s' :
  loop w fuel s = Some (tt, s') ->
  loop_init <= loop_step (mem s) < zzz ->
  loop_step (mem s) < loop_step (mem s') <= zzz.
Proof.
  intros Hrun Hstep. pose proof (loop_edges w fuel s s' Hrun) as E. cbv zeta in E.
  destruct E as (E0 & E1 & E2 & E3 & E4 & E5 & E6 & _).
  unfold loop_init, start_GPS, read_GPS, read_pressure, start_LTC3225,
    wait_LTC3225, start_9603, zzz, wake in *.
  assert (Hcase : loop_step (mem s) = 0 \/ loop_step (mem s) = 1 \/
                  loop_step (mem s) = 2 \/ loop_step (mem s) = 3 \/
                  loop_step (mem s) = 4 \/ loop_step (mem s) = 5 \/
                  loop_step (mem s) = 6) by lia.
  destruct Hcase as [H|[H|[H|[H|[H|[H|H]]]]]]; rewrite H;
    [apply E0 in H|apply E1 in H|apply E2 in H|apply E3 in H
    |apply E4 in H|apply E5 in H|apply E6 in H];
    clear - H; lia.
Qed.

Lemma reaches_zzz w fuel :
  2971 < Z.of_nat fuel ->
  forall m s,
    loop_init <= loop_step (mem s) <= zzz ->
    zzz - loop_step (mem s) <= Z.of_nat m ->
    exists n s',
      Z.of_nat n <= zzz - loop_step (mem s) /\
      passes w fuel n s = Some s' /\ loop_step (mem s') = zzz.
Proof.
  intros Hfuel m. induction m as [|m IH]; intros s Hstep Hm.
  - exists 0%nat, s. split; [lia|]. split; [reflexivity|lia].
  - destruct (Z.eq_dec (loop_step (mem s)) zzz) as [Hz|Hz].
    + exists 0%nat, s. split; [lia|]. split; [reflexivity|exact Hz].
    + destruct (loop_returns w fuel s Hfuel Hz) as ([] & s1 & Hrun).
      assert (Hlt : loop_init <= loop_step (mem s) < zzz) by lia.
      pose proof (loop_moves_on w fuel s s1 Hrun Hlt) as Hnext.
      destruct (IH s1) as (n & s' & Hn & Hpass & Hend); [lia|lia|].
      exists (S n), s'. split; [lia|]. split; [|exact Hend].
      simpl. rewrite Hrun. exact Hpass.
Qed.

(** X16.  Every cycle ends in [zzz].  From any of the steps [loop_init] to
    [start_9603], in any world and whatever the variables hold, the passes
    through [loop] return (given fuel for the longest wait) and reach [zzz]
    after at most [zzz - loop_step] of them, seven from [loop_init]: each
    pass moves to a later step, and no step can repeat or go back before
    the sleep. *)
Theorem X_every_cycle_ends_in_zzz w fuel s :
  2971 < Z.of_nat fuel ->
  loop_init <= loop_step (mem s) <= zzz ->
  exists n s',
    Z.of_nat n <= zzz - loop_step (mem s) /\
    passes w fuel n s = Some s' /\ loop_step (mem s') = zzz.
Proof.
  intros Hfuel Hstep.
  apply (reaches_zzz w fuel Hfuel (Z.to_nat (zzz - loop_step (mem s))) s Hstep).
  unfold zzz in *. lia.
Qed.

Lemma X_every_cycle_witness :
  2971 < Z.of_nat 2972 /\
  loop_init <= loop_step (mem (at_step loop_init)) <= zzz /\
  exists n s',
    Z.of_nat n <= zzz - loop_step (mem (at_step loop_init)) /\
    passes brownout 2972 n (at_step loop_init) = Some s' /\ loop_step (mem s') = zzz.
Proof.
  assert (H1 : 2971 < Z.of_nat 2972) by reflexivity.
  assert (H2 : loop_init <= loop_step (mem (at_step loop_init)) <= zzz)
    by (split; discriminate).
  exact (conj H1 (conj H2
           (X_every_cycle_ends_in_zzz brownout 2972 (at_step loop_init) H1 H2))).
Defined.

(** ** The GNSS power switch *)

(** X17.  The GNSS power switch.  [gnssON] leaves the enable pin LOW and an
    output, [gnssOFF] leaves it HIGH and a pulled-up input, whatever it was
    before; so [gnssOFF] undoes [gnssON], and switching off twice is
    switching off once.  Neither touches another pin, a variable, the clock
    or the outside world. *)
Theorem X_gnss_switch s :
  exists s1 s2,
    gnssON s = Some (tt, s1) /\ gnssOFF s1 = Some (tt, s2) /\
    (level (pins (io s1)) gnssEN = LOW /\ mode (pins (io s1)) gnssEN = OUTPUT) /\
    (level (pins (io s2)) gnssEN = HIGH /\
     mode (pins (io s2)) gnssEN = INPUT_PULLUP) /\
    (forall q, q <> gnssEN ->
       level (pins (io s1)) q = level (pins (io s)) q /\
       mode (pins (io s1)) q = mode (pins (io s)) q /\
       level (pins (io s2)) q = level (pins (io s)) q /\
       mode (pins (io s2)) q = mode (pins (io s)) q) /\
    (mem s1 = mem s /\ mem s2 = mem s /\
     clock (io s2) = clock (io s) /\ tick (io s2) = tick (io s)) /\
    (forall s3, gnssOFF s = Some (tt, s3) ->
       forall q, level (pins (io s3)) q = level (pins (io s2)) q /\
                 mode (pins (io s3)) q = mode (pins (io s2)) q) /\
    (forall s4, gnssOFF s2 = Some (tt, s4) ->
       forall q, level (pins (io s4)) q = level (pins (io s2)) q /\
                 mode (pins (io s4)) q = mode (pins (io s2)) q).
Proof.
  assert (Hon : total gnssON) by total_auto.
  assert (Hoff : total gnssOFF) by total_auto.
  destruct (Hon s) as ([] & s1 & H1). destruct (Hoff s1) as ([] & s2 & H2).
  exists s1, s2. split; [exact H1|]. split; [exact H2|].
  view_run H1. view_run H2.
  assert (Hq : forall q, q <> gnssEN -> (q =? gnssEN) = false)
    by (intros q Hq; apply Z.eqb_neq; exact Hq).
  split; [view_back; split; reflexivity|].
  split; [view_back; split; reflexivity|].
  split; [intros q Hne; view_back; project; rewrite (Hq q Hne); repeat split|].
  split; [view_back; repeat split|].
  split; intros s' H'; view_run H'; intros q; view_back; project;
    destruct (q =? gnssEN); split; reflexivity.
Qed.

(** ** A low voltage stops the modem before the message *)

Lemma samples_ok_since_refl s : samples_ok_since s s.
Proof. exists []. split; [reflexivity|]. intros t v []. Qed.

Lemma samples_ok_since_trans s1 s2 s3 :
  samples_ok_since s1 s2 -> samples_ok_since s2 s3 -> samples_ok_since s1 s3.
Proof.
  intros (n1 & H1 & F1) (n2 & H2 & F2). exists (n2 ++ n1). split.
  - rewrite H2, H1. apply app_assoc.
  - intros t v Hin. apply in_app_or in Hin as [Hin|Hin]; eauto.
Qed.

Lemma callback_true_ok w s s1 :
  ISBDCallback w s = Some (true, s1) -> samples_ok_since s s1.
Proof.
  intros H. expand_in H. inv_run H; unfold low_voltage in *; project.
  all: symmetry in E; apply negb_true_iff in E.
  all: eexists; split; [peel|];
    intros t v Hin; cbn [In app] in Hin;
    repeat (destruct Hin as [Hin|Hin]; [try discriminate Hin|]);
    try (injection Hin as <- <-; exact E); destruct Hin.
Qed.

(** The callbacks of a modem call that is not cancelled saw no low voltage. *)
Lemma poll_callback_true_ok w n : forall s s1,
  poll_callback w n s = Some (true, s1) -> samples_ok_since s s1.
Proof.
  induction n as [|n IH]; intros s s1 H; simpl in H.
  - apply ret_Some in H as [_ ->]. apply samples_ok_since_refl.
  - apply bind_Some in H as (ok & s0 & Hc & H). destruct ok.
    + apply (samples_ok_since_trans _ s0); [exact (callback_true_ok _ _ _ Hc)|eauto].
    + apply ret_Some in H as [H _]. discriminate H.
Qed.

Lemma modem_call_success w s e s1 :
  modem_call w s = Some (e, s1) -> e = ISBD_SUCCESS -> samples_ok_since s s1.
Proof.
  intros H He. subst e. expand_in H. inv_run H.
  lazymatch goal with
  | Hp : poll_callback _ _ _ = Some (?ok, _), E : _ = (if ?ok then _ else _) |- _ =>
      destruct ok; [apply poll_callback_true_ok in Hp as (n & Ht & Hok)|discriminate E]
  end.
  project. eexists. split; [project; rewrite Ht; peel|].
  intros t v Hin. cbn [In app] in Hin.
  destruct Hin as [Hin|Hin]; [discriminate Hin|].
  rewrite ?app_nil_r in Hin. exact (Hok t v Hin).
Qed.

Lemma split_app {A} (n rest a b : list A) x :
  rest = a ++ x :: b -> n ++ rest = (n ++ a) ++ x :: b.
Proof. intros ->. apply app_assoc. Qed.

Lemma split_cons {A} (e : A) (rest a b : list A) x :
  rest = a ++ x :: b -> e :: rest = (e :: a) ++ x :: b.
Proof. intros ->. reflexivity. Qed.

Lemma split_send msg (b : list event) : EvSend msg :: b = [] ++ EvSend msg :: b.
Proof. reflexivity. Qed.

(** Show [l = ?after ++ EvSend ?msg :: ?before] at the first text in [l]. *)
Ltac split_at_send :=
  repeat first [apply split_send | eapply split_app | eapply split_cons].

(** The events since [s], from an equation between two traces. *)
Ltac new_events Hnew :=
  lazymatch type of Hnew with
  | ?l = ?new ++ ?t =>
      let Hm := fresh "Hm" in
      eassert (Hm : l = _ ++ t) by peel;
      rewrite Hm in Hnew; apply app_inv_tail in Hnew; subst new; clear Hm
  end.

(** A text is handed to the modem only after a [modem.begin] whose
    callbacks saw no low voltage. *)
Lemma start_9603_guard w s s' new :
  case_start_9603 w s = Some (tt, s') ->
  trace (io s') = new ++ trace (io s) ->
  sends new = [] \/
  exists msg before after,
    new = after ++ EvSend msg :: before /\
    forall t v, In (EvVbat t v) before -> below_VBAT_LOW v = false.
Proof.
  intros Hrun Hnew. expand_in Hrun.
  do 3 (apply bind_Some in Hrun as (? & ? & ?Hpre & Hrun)).
  apply bind_Some in Hrun as (e & sb & Hbegin & Hrun).
  pose proof (modem_call_success _ _ _ _ Hbegin) as Hok.
  inv_run Hpre. inv_run Hpre0. inv_run Hpre1. inv_run Hrun.
  all: repeat match goal with
       | H : modem_call _ _ = Some _ |- _ =>
           apply modem_call_sampling in H as [_ (?n & ?Ht & ?Hn & _)]
       | H : sendSBDText _ _ _ = Some _ |- _ => expand_in H; inv_run H
       | H : repeat_n _ _ _ = Some _ |- _ =>
           apply blink_sampling in H as [_ (?n & ?Ht & ?Hn & _)]
       end; project.
  - left. revert Hnew. trace_back. intros Hnew. new_events Hnew.
    rewrite sends_app, (sends_quiet _ Hn). reflexivity.
  - right. apply negb_false_iff, Z.eqb_eq in Hif.
    destruct (Hok Hif) as (nb & Htb & Hsamples). project.
    match goal with
    | H : trace (io sb) = _ |- _ =>
        tryif constr_eq H Htb then fail
        else (rewrite H in Htb; apply app_inv_tail in Htb; subst nb)
    end.
    revert Hnew. trace_back. intros Hnew. new_events Hnew.
    eexists _, _, _. split; [split_at_send|].
    intros t v Hin. apply in_app_or in Hin as [Hin|[Hin|[]]]; [eauto|discriminate Hin].
  - right. apply negb_false_iff, Z.eqb_eq in Hif.
    destruct (Hok Hif) as (nb & Htb & Hsamples). project.
    match goal with
    | H : trace (io sb) = _ |- _ =>
        tryif constr_eq H Htb then fail
        else (rewrite H in Htb; apply app_inv_tail in Htb; subst nb)
    end.
    revert Hnew. trace_back. intros Hnew. new_events Hnew.
    eexists _, _, _. split; [split_at_send|].
    intros t v Hin. apply in_app_or in Hin as [Hin|[Hin|[]]]; [eauto|discriminate Hin].
Qed.

(** X18.  A low voltage stops the send.  The modem library ends a call with
    [ISBD_CANCELLED] once [ISBDCallback] has answered [false].  So when
    [start_9603] hands a text to the modem, every voltage sample taken
    before, since the step began, was at or above [VBAT_LOW]: a low sample
    during [modem.begin] makes the step skip the message. *)
Theorem X_low_voltage_stops_the_send w fuel s :
  loop_step (mem s) = start_9603 ->
  exists s' new,
    loop w fuel s = Some (tt, s') /\
    trace (io s') = new ++ trace (io s) /\
    (sends new = [] \/
     exists msg before after,
       new = after ++ EvSend msg :: before /\
       forall t v, In (EvVbat t v) before -> below_VBAT_LOW v = false).
Proof.
  intros Hstep. rewrite (loop_at_start_9603 _ _ _ Hstep).
  destruct (start_9603_message w s) as (s' & new & Hrun & Hnew & _).
  exists s', new. split; [exact Hrun|]. split; [exact Hnew|].
  exact (start_9603_guard w s s' new Hrun Hnew).
Qed.

Lemma X_low_voltage_stops_the_send_witness :
  loop_step (mem (at_step start_9603)) = start_9603 /\
  exists s' new,
    loop brownout 0 (at_step start_9603) = Some (tt, s') /\
    trace (io s') = new ++ trace (io (at_step start_9603)) /\
    (sends new = [] \/
     exists msg before after,
       new = after ++ EvSend msg :: before /\
       forall t v, In (EvVbat t v) before -> below_VBAT_LOW v = false).
Proof.
  assert (H : loop_step (mem (at_step start_9603)) = start_9603) by reflexivity.
  exact (conj H (X_low_voltage_stops_the_send brownout 0 (at_step start_9603) H)).
Defined.

(** ** The polls of a bounded wait, reading by reading *)

Section Polls.

Variable w : World.
Variable T : Z.
Variable flag : state -> bool.
Variable body : M bool.

(** A round takes [r] interactions, the ADC reading being number [o] of
    them, and [go k] tells whether the round that starts at interaction [k]
    leaves the flag of the loop up. *)
Variables r o : nat.
Variable go : nat -> bool.

Hypothesis HT : T < 2 ^ 32.

Hypothesis body_low : forall s,
  below_VBAT_LOW (vbat_of_adc (adc w (tick (io s) + o))) = true ->
  exists s2,
    body s = Some (true, s2) /\
    clock (io s2) = clock (io s) + 1 /\
    vbat (mem s2) = vbat_of_adc (adc w (tick (io s) + o)).

Hypothesis body_ok : forall s,
  below_VBAT_LOW (vbat_of_adc (adc w (tick (io s) + o))) = false ->
  exists s2,
    body s = Some (false, s2) /\
    clock (io s2) = clock (io s) + 101 /\
    tick (io s2) = (tick (io s) + r)%nat /\
    flag s2 = go (tick (io s)).

(** The loop, entered at [s1] with [i] more rounds to go before a low
    reading, ends at that reading. *)
Lemma polls_until_low s0 : forall i fuel s1,
  (i < fuel)%nat ->
  0 <= clock (io s1) - clock (io s0) ->
  clock (io s1) - clock (io s0) + 101 * Z.of_nat i < T ->
  flag s1 = true ->
  (forall j, (j < i)%nat ->
     go (tick (io s1) + r * j) = true /\
     below_VBAT_LOW (vbat_of_adc (adc w (tick (io s1) + r * j + o))) = false) ->
  below_VBAT_LOW (vbat_of_adc (adc w (tick (io s1) + r * i + o))) = true ->
  exists s2,
    while fuel (fun s => flag s && (wrap_ulong (millis s - millis s0) <? T)) body s1
    = Some (tt, s2) /\
    clock (io s2) = clock (io s1) + 101 * Z.of_nat i + 1 /\
    vbat (mem s2) = vbat_of_adc (adc w (tick (io s1) + r * i + o)).
Proof.
  induction i as [|i IH]; intros fuel s1 Hfuel H0 Hlt Hflag Hbefore Hlow;
    (destruct fuel as [|fuel]; [lia|]);
    rewrite while_unfold;
    assert (Hcond : flag s1 && (wrap_ulong (millis s1 - millis s0) <? T) = true)
      by (rewrite Hflag; unfold millis; rewrite elapsed_exact by lia;
          apply Z.ltb_lt; lia);
    rewrite Hcond.
  - rewrite Nat.mul_0_r, Nat.add_0_r in Hlow.
    destruct (body_low s1 Hlow) as (s2 & Hb & Hc & Hv). rewrite Hb.
    exists s2. rewrite Nat.mul_0_r, Nat.add_0_r.
    split; [reflexivity|]. split; [lia|exact Hv].
  - destruct (Hbefore 0%nat ltac:(lia)) as [Hgo Hok].
    rewrite Nat.mul_0_r, Nat.add_0_r in Hgo, Hok.
    destruct (body_ok s1 Hok) as (s1' & Hb & Hc & Ht & Hf). rewrite Hb.
    destruct (IH fuel s1') as (s2 & Hrun & Hc2 & Hv2).
    + lia.
    + lia.
    + lia.
    + rewrite Hf. exact Hgo.
    + intros j Hj. rewrite Ht.
      replace (tick (io s1) + r + r * j)%nat with (tick (io s1) + r * S j)%nat
        by (rewrite Nat.mul_succ_r; lia).
      apply Hbefore. lia.
    + rewrite Ht.
      replace (tick (io s1) + r + r * i)%nat with (tick (io s1) + r * S i)%nat
        by (rewrite Nat.mul_succ_r; lia).
      exact Hlow.
    + exists s2. split; [exact Hrun|]. rewrite Hc2, Hc, Hv2, Ht.
      replace (tick (io s1) + r + r * i)%nat with (tick (io s1) + r * S i)%nat
        by (rewrite Nat.mul_succ_r; lia).
      split; [lia|reflexivity].
Qed.

End Polls.

(** Replace the program of the goal by its definition. *)
Ltac expand_goal :=
  lazymatch goal with
  | |- ?m ?s = ?r =>
      let m' := eval red in m in
      let E := fresh "E" in
      assert (E : m = m') by reflexivity; rewrite E; clear E
  end.

(** Run the first command of the goal, which returns [a] in state [s1]. *)
Ltac run_first a s1 :=
  lazymatch goal with
  | |- bind ?m ?k ?s = _ => rewrite (bind_run m k s a s1) by reflexivity
  end.

Lemma read_GPS_round_low w s :
  below_VBAT_LOW (vbat_of_adc (adc w (tick (io s) + 1))) = true ->
  exists s2,
    (ft <- ask w (fun w k => getFixType (gps w k)) ;;
     assign (set_fixType ft) ;;
     get_vbat w ;;
     low <- gets low_voltage ;;
     if low then ret true
     else
       flash_LED 1000 ;;
       delay 100 ;;
       ret false) s = Some (true, s2) /\
    clock (io s2) = clock (io s) + 1 /\
    vbat (mem s2) = vbat_of_adc (adc w (tick (io s) + 1)).
Proof.
  rewrite Nat.add_1_r. intros Hlow.
  lazymatch goal with
  | |- exists s2, ?body s = _ /\ _ =>
      assert (Ht : total body) by total_auto;
      destruct (Ht s) as (b & s2 & Hb); exists s2; rewrite Hb
  end.
  inv_run Hb; unfold low_voltage in *; project; [repeat split|congruence..].
Qed.

Lemma read_GPS_round_ok w s :
  below_VBAT_LOW (vbat_of_adc (adc w (tick (io s) + 1))) = false ->
  exists s2,
    (ft <- ask w (fun w k => getFixType (gps w k)) ;;
     assign (set_fixType ft) ;;
     get_vbat w ;;
     low <- gets low_voltage ;;
     if low then ret true
     else
       flash_LED 1000 ;;
       delay 100 ;;
       ret false) s = Some (false, s2) /\
    clock (io s2) = clock (io s) + 101 /\
    tick (io s2) = (tick (io s) + 2)%nat /\
    (fun s => negb (fixType (mem s) =? 3)) s2
    = (fun k => negb (getFixType (gps w k) =? 3)) (tick (io s)).
Proof.
  rewrite Nat.add_1_r. intros Hok.
  lazymatch goal with
  | |- exists s2, ?body s = _ /\ _ =>
      assert (Ht : total body) by total_auto;
      destruct (Ht s) as (b & s2 & Hb); exists s2; rewrite Hb
  end.
  inv_run Hb; unfold low_voltage in *; project; try congruence;
    (split; [reflexivity|]); (split; [ring|]); (split; [lia|reflexivity]).
Qed.

Lemma case_read_GPS_low_reading w fuel s i :
  (i < fuel)%nat ->
  101 * Z.of_nat i < GNSS_timeout * 60 * 1000 ->
  (forall j, (j < i)%nat ->
     getFixType (gps w (tick (io s) + 2 * j)) <> 3 /\
     below_VBAT_LOW (vbat_of_adc (adc w (tick (io s) + 2 * j + 1))) = false) ->
  below_VBAT_LOW (vbat_of_adc (adc w (tick (io s) + 2 * i + 1))) = true ->
  exists s',
    case_read_GPS w fuel s = Some (tt, s') /\
    clock (io s') = clock (io s) + 101 * Z.of_nat i + 1 /\
    loop_step (mem s') = zzz /\
    vbat (mem s') = vbat_of_adc (adc w (tick (io s) + 2 * i + 1)).
Proof.
  intros Hfuel Hi Hbefore Hlow.
  set (s1 := on_mem (set_fixType 0) s).
  destruct (polls_until_low w (GNSS_timeout * 60 * 1000)
              (fun s => negb (fixType (mem s) =? 3)) _ 2 1
              (fun k => negb (getFixType (gps w k) =? 3))
              ltac:(reflexivity) (read_GPS_round_low w) (read_GPS_round_ok w)
              s1 i fuel s1 Hfuel)
    as (s2 & Hloop & Hc & Hv).
  - lia.
  - replace (clock (io s1) - clock (io s1)) with 0 by ring. exact Hi.
  - reflexivity.
  - intros j Hj. destruct (Hbefore j Hj) as [Hft Hok]. split; [|exact Hok].
    apply negb_true_iff, Z.eqb_neq. exact Hft.
  - exact Hlow.
  - assert (Hl : low_voltage s2 = true) by (unfold low_voltage; rewrite Hv; exact Hlow).
    eexists. split.
    + expand_goal. run_first tt s1. run_first (millis s1) s1.
      rewrite (bind_run _ _ _ _ _ Hloop).
      run_first (low_voltage s2) s2. rewrite Hl. reflexivity.
    + project. split; [exact Hc|]. split; [reflexivity|exact Hv].
Qed.

Lemma start_LTC3225_round_low w s :
  below_VBAT_LOW (vbat_of_adc (adc w (tick (io s) + 1))) = true ->
  exists s2,
    (pg <- ask w pgood_pin ;;
     assign (set_PGOOD pg) ;;
     get_vbat w ;;
     low <- gets low_voltage ;;
     if low then ret true
     else
       flash_LED 500 ;;
       delay 100 ;;
       ret false) s = Some (true, s2) /\
    clock (io s2) = clock (io s) + 1 /\
    vbat (mem s2) = vbat_of_adc (adc w (tick (io s) + 1)).
Proof.
  rewrite Nat.add_1_r. intros Hlow.
  lazymatch goal with
  | |- exists s2, ?body s = _ /\ _ =>
      assert (Ht : total body) by total_auto;
      destruct (Ht s) as (b & s2 & Hb); exists s2; rewrite Hb
  end.
  inv_run Hb; unfold low_voltage in *; project; [repeat split|congruence..].
Qed.

Lemma start_LTC3225_round_ok w s :
  below_VBAT_LOW (vbat_of_adc (adc w (tick (io s) + 1))) = false ->
  exists s2,
    (pg <- ask w pgood_pin ;;
     assign (set_PGOOD pg) ;;
     get_vbat w ;;
     low <- gets low_voltage ;;
     if low then ret true
     else
       flash_LED 500 ;;
       delay 100 ;;
       ret false) s = Some (false, s2) /\
    clock (io s2) = clock (io s) + 101 /\
    tick (io s2) = (tick (io s) + 2)%nat /\
    (fun s => negb (PGOOD (mem s))) s2 = (fun k => negb (pgood_pin w k)) (tick (io s)).
Proof.
  rewrite Nat.add_1_r. intros Hok.
  lazymatch goal with
  | |- exists s2, ?body s = _ /\ _ =>
      assert (Ht : total body) by total_auto;
      destruct (Ht s) as (b & s2 & Hb); exists s2; rewrite Hb
  end.
  inv_run Hb; unfold low_voltage in *; project; try congruence;
    (split; [reflexivity|]); (split; [ring|]); (split; [lia|reflexivity]).
Qed.

Lemma case_start_LTC3225_low_reading w fuel s i :
  (i < fuel)%nat ->
  101 * Z.of_nat i < CHG_timeout * 60 * 1000 ->
  (forall j, (j < i)%nat ->
     pgood_pin w (tick (io s) + 2 * j) = false /\
     below_VBAT_LOW (vbat_of_adc (adc w (tick (io s) + 2 * j + 1))) = false) ->
  below_VBAT_LOW (vbat_of_adc (adc w (tick (io s) + 2 * i + 1))) = true ->
  exists s',
    case_start_LTC3225 w fuel s = Some (tt, s') /\
    clock (io s') = clock (io s) + 2000 + 101 * Z.of_nat i + 1 /\
    loop_step (mem s') = zzz /\
    vbat (mem s') = vbat_of_adc (adc w (tick (io s) + 2 * i + 1)).
Proof.
  intros Hfuel Hi Hbefore Hlow.
  destruct (total_modify
              (fun s => let p := write_level superCapChgEN HIGH (pins (io s)) in
                        emit (EvPins p) (on_io (set_pins p) s)) s)
    as ([] & sa & Ha).
  pose proof Ha as Ea. apply modify_Some in Ea.
  set (sb := on_io (fun b => set_clock (clock b + 2000) b) sa).
  set (s1 := on_mem (set_PGOOD false) sb).
  assert (Hs1 : clock (io s1) = clock (io s) + 2000 /\ tick (io s1) = tick (io s))
    by (subst s1 sb sa; split; reflexivity).
  destruct Hs1 as [Hc1 Ht1].
  destruct (polls_until_low w (CHG_timeout * 60 * 1000)
              (fun s => negb (PGOOD (mem s))) _ 2 1
              (fun k => negb (pgood_pin w k))
              ltac:(reflexivity) (start_LTC3225_round_low w) (start_LTC3225_round_ok w)
              s1 i fuel s1 Hfuel)
    as (s2 & Hloop & Hc & Hv).
  - lia.
  - replace (clock (io s1) - clock (io s1)) with 0 by ring. exact Hi.
  - reflexivity.
  - intros j Hj. rewrite Ht1. destruct (Hbefore j Hj) as [Hpg Hok]. split; [|exact Hok].
    rewrite Hpg. reflexivity.
  - rewrite Ht1. exact Hlow.
  - rewrite Ht1 in Hv.
    assert (Hl : low_voltage s2 = true) by (unfold low_voltage; rewrite Hv; exact Hlow).
    eexists. split.
    + expand_goal. unfold digitalWrite at 1. rewrite (bind_run _ _ _ _ _ Ha).
      run_first tt sb. run_first tt s1. run_first (millis s1) s1.
      rewrite (bind_run _ _ _ _ _ Hloop).
      run_first (low_voltage s2) s2. rewrite Hl. reflexivity.
    + project. split; [lia|]. split; [reflexivity|exact Hv].
Qed.

Lemma wait_LTC3225_round_low w s :
  below_VBAT_LOW (vbat_of_adc (adc w (tick (io s) + 0))) = true ->
  exists s2,
    (get_vbat w ;;
     low <- gets low_voltage ;;
     if low then ret true
     else
       flash_LED 500 ;;
       delay 100 ;;
       ret false) s = Some (true, s2) /\
    clock (io s2) = clock (io s) + 1 /\
    vbat (mem s2) = vbat_of_adc (adc w (tick (io s) + 0)).
Proof.
  rewrite Nat.add_0_r. intros Hlow.
  lazymatch goal with
  | |- exists s2, ?body s = _ /\ _ =>
      assert (Ht : total body) by total_auto;
      destruct (Ht s) as (b & s2 & Hb); exists s2; rewrite Hb
  end.
  inv_run Hb; unfold low_voltage in *; project; [repeat split|congruence..].
Qed.

Lemma wait_LTC3225_round_ok w s :
  below_VBAT_LOW (vbat_of_adc (adc w (tick (io s) + 0))) = false ->
  exists s2,
    (get_vbat w ;;
     low <- gets low_voltage ;;
     if low then ret true
     else
       flash_LED 500 ;;
       delay 100 ;;
       ret false) s = Some (false, s2) /\
    clock (io s2) = clock (io s) + 101 /\
    tick (io s2) = (tick (io s) + 1)%nat /\
    (fun _ : state => true) s2 = (fun _ : nat => true) (tick (io s)).
Proof.
  rewrite Nat.add_0_r. intros Hok.
  lazymatch goal with
  | |- exists s2, ?body s = _ /\ _ =>
      assert (Ht : total body) by total_auto;
      destruct (Ht s) as (b & s2 & Hb); exists s2; rewrite Hb
  end.
  inv_run Hb; unfold low_voltage in *; project; try congruence;
    (split; [reflexivity|]); (split; [ring|]); (split; [lia|reflexivity]).
Qed.

Lemma case_wait_LTC3225_low_reading w fuel s i :
  (i < fuel)%nat ->
  101 * Z.of_nat i < TOPUP_timeout * 1000 ->
  (forall j, (j < i)%nat ->
     below_VBAT_LOW (vbat_of_adc (adc w (tick (io s) + j))) = false) ->
  below_VBAT_LOW (vbat_of_adc (adc w (tick (io s) + i))) = true ->
  exists s',
    case_wait_LTC3225 w fuel s = Some (tt, s') /\
    clock (io s') = clock (io s) + 101 * Z.of_nat i + 1 /\
    loop_step (mem s') = zzz /\
    vbat (mem s') = vbat_of_adc (adc w (tick (io s) + i)).
Proof.
  intros Hfuel Hi Hbefore Hlow.
  destruct (polls_until_low w (TOPUP_timeout * 1000)
              (fun _ => true) _ 1 0 (fun _ => true)
              ltac:(reflexivity) (wait_LTC3225_round_low w) (wait_LTC3225_round_ok w)
              s i fuel s Hfuel)
    as (s2 & Hloop & Hc & Hv).
  - lia.
  - replace (clock (io s) - clock (io s)) with 0 by ring. exact Hi.
  - reflexivity.
  - intros j Hj. rewrite Nat.mul_1_l, Nat.add_0_r. split; [reflexivity|auto].
  - rewrite Nat.mul_1_l, Nat.add_0_r. exact Hlow.
  - rewrite Nat.mul_1_l, Nat.add_0_r in Hv.
    assert (Hl : low_voltage s2 = true) by (unfold low_voltage; rewrite Hv; exact Hlow).
    eexists. split.
    + expand_goal. run_first (millis s) s.
      rewrite (bind_run _ _ _ _ _ Hloop).
      run_first (low_voltage s2) s2. rewrite Hl. reflexivity.
    + project. split; [exact Hc|]. split; [reflexivity|exact Hv].
Qed.

(** C3.  In each step with a bounded wait ([read_GPS], [start_LTC3225],
    [wait_LTC3225]), given fuel for the longest wait, the step returns, and
    a low voltage ends it at once.  Every round of the loop reads the ADC
    (after the fix type in [read_GPS] and after the PGOOD pin in
    [start_LTC3225], so it is the second interaction of the round there and
    the only one in [wait_LTC3225]).  If the reading of round [i], which
    starts before the time-out, is the first that [get_vbat] turns into a
    voltage below [VBAT_LOW], the rounds before it not having ended the loop
    by a 3D fix or a HIGH on PGOOD, then the step ends one millisecond into
    that round, the settling time of the monitor (so well within the poll
    interval of 100 ms), with that voltage in [vbat] and [zzz] as the next
    step.  And whenever a sample logged during the step is below
    [VBAT_LOW], the step ends at the clock value of that sample with [zzz]
    next. *)
Theorem C3_low_sample_ends_wait w fuel s :
  2971 < Z.of_nat fuel ->
  loop_step (mem s) = read_GPS \/ loop_step (mem s) = start_LTC3225 \/
  loop_step (mem s) = wait_LTC3225 ->
  exists s' new,
    loop w fuel s = Some (tt, s') /\
    trace (io s') = new ++ trace (io s) /\
    (forall t v, In (EvVbat t v) new -> below_VBAT_LOW v = true ->
                 clock (io s') = t /\ loop_step (mem s') = zzz) /\
    (loop_step (mem s) = read_GPS ->
     forall i,
       101 * Z.of_nat i < 300000 ->
       (forall j, (j < i)%nat ->
          getFixType (gps w (tick (io s) + 2 * j)) <> 3 /\
          below_VBAT_LOW (vbat_of_adc (adc w (tick (io s) + 2 * j + 1))) = false) ->
       below_VBAT_LOW (vbat_of_adc (adc w (tick (io s) + 2 * i + 1))) = true ->
       clock (io s') = clock (io s) + 101 * Z.of_nat i + 1 /\
       loop_step (mem s') = zzz /\
       vbat (mem s') = vbat_of_adc (adc w (tick (io s) + 2 * i + 1))) /\
    (loop_step (mem s) = start_LTC3225 ->
     forall i,
       101 * Z.of_nat i < 120000 ->
       (forall j, (j < i)%nat ->
          pgood_pin w (tick (io s) + 2 * j) = false /\
          below_VBAT_LOW (vbat_of_adc (adc w (tick (io s) + 2 * j + 1))) = false) ->
       below_VBAT_LOW (vbat_of_adc (adc w (tick (io s) + 2 * i + 1))) = true ->
       clock (io s') = clock (io s) + 2000 + 101 * Z.of_nat i + 1 /\
       loop_step (mem s') = zzz /\
       vbat (mem s') = vbat_of_adc (adc w (tick (io s) + 2 * i + 1))) /\
    (loop_step (mem s) = wait_LTC3225 ->
     forall i,
       101 * Z.of_nat i < 10000 ->
       (forall j, (j < i)%nat ->
          below_VBAT_LOW (vbat_of_adc (adc w (tick (io s) + j))) = false) ->
       below_VBAT_LOW (vbat_of_adc (adc w (tick (io s) + i))) = true ->
       clock (io s') = clock (io s) + 101 * Z.of_nat i + 1 /\
       loop_step (mem s') = zzz /\
       vbat (mem s') = vbat_of_adc (adc w (tick (io s) + i))).
Proof.
  intros Hfuel Hstep.
  destruct (wait_cases w fuel s Hfuel Hstep) as (s' & Hrun & _ & new & Ht & Hlow).
  exists s', new. split; [exact Hrun|]. split; [exact Ht|]. split; [exact Hlow|].
  split; [|split]; intros Hs i Hi Hbefore Hlowi.
  - rewrite (loop_at_read_GPS _ _ _ Hs) in Hrun.
    destruct (case_read_GPS_low_reading w fuel s i ltac:(lia) Hi Hbefore Hlowi)
      as (s2 & Hrun2 & H2).
    rewrite Hrun in Hrun2. injection Hrun2 as <-. exact H2.
  - rewrite (loop_at_start_LTC3225 _ _ _ Hs) in Hrun.
    destruct (case_start_LTC3225_low_reading w fuel s i ltac:(lia) Hi Hbefore Hlowi)
      as (s2 & Hrun2 & H2).
    rewrite Hrun in Hrun2. injection Hrun2 as <-. exact H2.
  - rewrite (loop_at_wait_LTC3225 _ _ _ Hs) in Hrun.
    destruct (case_wait_LTC3225_low_reading w fuel s i ltac:(lia) Hi Hbefore Hlowi)
      as (s2 & Hrun2 & H2).
    rewrite Hrun in Hrun2. injection Hrun2 as <-. exact H2.
Qed.

(** With a flat battery the first reading ends each of the three waits. *)
Lemma C3_witness :
  2971 < Z.of_nat 2972 /\
  (exists s',
     loop brownout 2972 (at_step read_GPS) = Some (tt, s') /\
     clock (io s') = clock (io (at_step read_GPS)) + 1 /\
     loop_step (mem s') = zzz) /\
  (exists s',
     loop brownout 2972 (at_step start_LTC3225) = Some (tt, s') /\
     clock (io s') = clock (io (at_step start_LTC3225)) + 2001 /\
     loop_step (mem s') = zzz) /\
  (exists s',
     loop brownout 2972 (at_step wait_LTC3225) = Some (tt, s') /\
     clock (io s') = clock (io (at_step wait_LTC3225)) + 1 /\
     loop_step (mem s') = zzz).
Proof.
  assert (H1 : 2971 < Z.of_nat 2972) by reflexivity.
  assert (Hflat : forall k, below_VBAT_LOW (vbat_of_adc (adc brownout k)) = true)
    by (intros k; vm_compute; reflexivity).
  split; [exact H1|]. split; [|split].
  - destruct (C3_low_sample_ends_wait brownout 2972 (at_step read_GPS) H1
                (or_introl eq_refl))
      as (s' & new & Hrun & _ & _ & Hgps & _).
    destruct (Hgps eq_refl 0%nat eq_refl) as (Hc & Hz & _);
      [intros j Hj; inversion Hj|apply Hflat|].
    exists s'. split; [exact Hrun|]. split; [exact Hc|exact Hz].
  - destruct (C3_low_sample_ends_wait brownout 2972 (at_step start_LTC3225) H1
                (or_intror (or_introl eq_refl)))
      as (s' & new & Hrun & _ & _ & _ & Hchg & _).
    destruct (Hchg eq_refl 0%nat eq_refl) as (Hc & Hz & _);
      [intros j Hj; inversion Hj|apply Hflat|].
    exists s'. split; [exact Hrun|]. split; [exact Hc|exact Hz].
  - destruct (C3_low_sample_ends_wait brownout 2972 (at_step wait_LTC3225) H1
                (or_intror (or_intror eq_refl)))
      as (s' & new & Hrun & _ & _ & _ & _ & Htop).
    destruct (Htop eq_refl 0%nat eq_refl) as (Hc & Hz & _);
      [intros j Hj; inversion Hj|apply Hflat|].
    exists s'. split; [exact Hrun|]. split; [exact Hc|exact Hz].
Defined.

(** ** The counter and the start of the modem *)

(** [start_9603] by the outcome of [modem.begin]: the step powers the
    modem, waits two seconds and calls [modem.begin]; when that call does
    not return [ISBD_SUCCESS] nothing is handed to the modem and the counter
    stays, and when it does, one text is handed over and the counter goes up
    by one, whatever the later calls return. *)
Lemma start_9603_by_begin w s :
  exists s0 e sb,
    (digitalWrite iridiumPwrEN HIGH ;; delay 1000 ;; delay 1000) s = Some (tt, s0) /\
    modem_call w s0 = Some (e, sb) /\
    exists s' new,
    case_start_9603 w s = Some (tt, s') /\
    trace (io s') = new ++ trace (io s) /\
    loop_step (mem s') = zzz /\
    (e <> ISBD_SUCCESS ->
     sends new = [] /\ Forall no_send new /\
     iterationCounter (mem s') = iterationCounter (mem s) /\
     err (mem s') = e) /\
    (e = ISBD_SUCCESS ->
     (exists msg, sends new = [msg] /\ In (EvSend msg) new) /\
     iterationCounter (mem s') = wrap_long (iterationCounter (mem s) + 1)).
Proof.
  assert (Ht : total (case_start_9603 w)) by total_auto.
  destruct (Ht s) as ([] & s' & Hrun).
  pose proof Hrun as Hcopy. expand_in Hcopy.
  do 3 (apply bind_Some in Hcopy as (? & ? & ?Hpre & Hcopy)).
  apply bind_Some in Hcopy as (e & sb & Hbegin & Hcopy).
  inv_run Hpre. inv_run Hpre0. inv_run Hpre1.
  eexists _, e, sb. split; [reflexivity|]. split; [exact Hbegin|]. exists s'.
  apply modem_call_sampling in Hbegin as [Hkb (nb & Htb & Hnb & _)].
  inv_run Hcopy.
  all: repeat match goal with
       | H : modem_call _ _ = Some _ |- _ =>
           apply modem_call_sampling in H as [?Hk (?n & ?Ht & ?Hn & _)]
       | H : sendSBDText _ _ _ = Some _ |- _ => expand_in H; inv_run H
       | H : repeat_n _ _ _ = Some _ |- _ =>
           apply blink_sampling in H as [?Hk (?n & ?Ht & ?Hn & _)]
       end; unfold keeps, modem_frame in *; project.
  all: eexists; split; [exact Hrun|]; split; [trace_back; peel|].
  all: repeat match goal with
       | H : (_, _) = (_, _) |- _ => injection H as ? ? ? ? ?
       end.
  all: split; [reflexivity|].
  - apply negb_true_iff, Z.eqb_neq in Hif. split; [intros _|intros E; contradiction].
    split; [rewrite sends_app, (sends_quiet _ Hnb); reflexivity|].
    split; [apply Forall_app; split; [exact Hnb|repeat constructor]|].
    split; [assumption|reflexivity].
  - apply negb_false_iff, Z.eqb_eq in Hif. split; [intros E; contradiction|intros _].
    split; [|congruence].
    eexists. split.
    + repeat (rewrite sends_app || cbn [sends app]).
      repeat match goal with
        | H : Forall no_send ?l |- context [sends ?l] => rewrite (sends_quiet l H)
        end; cbn [app]. reflexivity.
    + repeat (rewrite in_app_iff || cbn [In]). tauto.
  - apply negb_false_iff, Z.eqb_eq in Hif. split; [intros E; contradiction|intros _].
    split; [|congruence].
    eexists. split.
    + repeat (rewrite sends_app || cbn [sends app]).
      repeat match goal with
        | H : Forall no_send ?l |- context [sends ?l] => rewrite (sends_quiet l H)
        end; cbn [app]. reflexivity.
    + repeat (rewrite in_app_iff || cbn [In]). tauto.
Qed.

Lemma begin_status_run w s s0 e sb :
  (digitalWrite iridiumPwrEN HIGH ;; delay 1000 ;; delay 1000) s = Some (tt, s0) ->
  modem_call w s0 = Some (e, sb) ->
  begin_status w s = Some e.
Proof.
  intros Hpre Hb. unfold begin_status.
  apply bind_Some in Hpre as (a & s1 & H1 & Hpre).
  apply bind_Some in Hpre as (a1 & s2 & H2 & H3).
  rewrite (bind_run _ _ _ _ _ H1), (bind_run _ _ _ _ _ H2), (bind_run _ _ _ _ _ H3), Hb.
  reflexivity.
Qed.

(** C5, amended.  [start_9603] powers the modem, waits two seconds and
    calls [modem.begin]; it always returns, with [zzz] next.  When
    [modem.begin] returns [ISBD_SUCCESS], the step hands exactly one text to
    the modem and the counter goes up by exactly one (one modulo 2^32 at the
    end of the range of [long]), in every world, so whatever [sendSBDText],
    [clearBuffers] and [sleep] return.  When [modem.begin] returns anything
    else, nothing is handed to the modem, [err] keeps that status and the
    counter stays.  No other case of the switch and no run of the tick
    handler changes the counter, and [setup], as the static initialiser,
    sets it to 0. *)
Theorem C5_iteration_counter :
  (forall w fuel s,
     loop_step (mem s) = start_9603 ->
     exists s0 e sb,
       (digitalWrite iridiumPwrEN HIGH ;; delay 1000 ;; delay 1000) s = Some (tt, s0) /\
       modem_call w s0 = Some (e, sb) /\
       exists s' new,
         loop w fuel s = Some (tt, s') /\
         trace (io s') = new ++ trace (io s) /\
         loop_step (mem s') = zzz /\
         (e <> ISBD_SUCCESS ->
          sends new = [] /\ Forall no_send new /\
          iterationCounter (mem s') = iterationCounter (mem s) /\
          err (mem s') = e) /\
         (e = ISBD_SUCCESS ->
          (exists msg, sends new = [msg] /\ In (EvSend msg) new) /\
          iterationCounter (mem s') = wrap_long (iterationCounter (mem s) + 1))) /\
  (forall z, - 2 ^ 31 <= z < 2 ^ 31 - 1 -> wrap_long (z + 1) = z + 1) /\
  (forall w fuel s s',
     loop_step (mem s) <> start_9603 ->
     loop w fuel s = Some (tt, s') ->
     iterationCounter (mem s') = iterationCounter (mem s)) /\
  (forall s, iterationCounter (mem (am_rtc_isr s)) = iterationCounter (mem s)) /\
  (forall s s', setup s = Some (tt, s') -> iterationCounter (mem s') = 0) /\
  iterationCounter initial_globals = 0.
Proof.
  split; [|split; [|split; [|split; [|split]]]].
  - intros w fuel s Hstep. rewrite (loop_at_start_9603 _ _ _ Hstep).
    apply start_9603_by_begin.
  - intros z Hz. apply wrap_long_small. lia.
  - apply other_cases_keep_counter.
  - intros s. apply (am_rtc_isr_effect s).
  - intros s s' H. expand_in H.
    do 14 (apply bind_Some in H as (? & ? & _ & H)). inv_run H. reflexivity.
  - reflexivity.
Qed.

(** With the modem that starts and then fails, the step ends with the
    status of a failed call in [err]. *)
Lemma send_fails_err :
  exists s',
    loop send_fails 0 (at_step start_9603) = Some (tt, s') /\
    (err (mem s') =? 7) = true.
Proof.
  apply (run_passes_spec (loop send_fails 0 (at_step start_9603))).
  vm_compute. reflexivity.
Qed.

(** From the state after [setup]: a modem that works, a modem that starts
    and then fails every call, and a modem that does not start. *)
Lemma C5_witness :
  loop_step (mem (at_step start_9603)) = start_9603 /\
  (begin_status fair_weather (at_step start_9603) = Some ISBD_SUCCESS /\
   exists s' new msg,
     loop fair_weather 0 (at_step start_9603) = Some (tt, s') /\
     trace (io s') = new ++ trace (io (at_step start_9603)) /\
     sends new = [msg] /\ iterationCounter (mem s') = 1 /\
     loop_step (mem s') = zzz) /\
  (begin_status send_fails (at_step start_9603) = Some ISBD_SUCCESS /\
   exists s' new msg,
     loop send_fails 0 (at_step start_9603) = Some (tt, s') /\
     trace (io s') = new ++ trace (io (at_step start_9603)) /\
     sends new = [msg] /\ iterationCounter (mem s') = 1 /\ err (mem s') = 7 /\
     loop_step (mem s') = zzz) /\
  (begin_status no_modem (at_step start_9603) = Some 3 /\
   exists s' new,
     loop no_modem 0 (at_step start_9603) = Some (tt, s') /\
     trace (io s') = new ++ trace (io (at_step start_9603)) /\
     sends new = [] /\ iterationCounter (mem s') = 0 /\ err (mem s') = 3 /\
     loop_step (mem s') = zzz).
Proof.
  assert (Hstep : loop_step (mem (at_step start_9603)) = start_9603) by reflexivity.
  assert (B1 : begin_status fair_weather (at_step start_9603) = Some ISBD_SUCCESS)
    by (vm_compute; reflexivity).
  assert (B2 : begin_status send_fails (at_step start_9603) = Some ISBD_SUCCESS)
    by (vm_compute; reflexivity).
  assert (B3 : begin_status no_modem (at_step start_9603) = Some 3)
    by (vm_compute; reflexivity).
  destruct C5_iteration_counter as (Hsend & _).
  split; [exact Hstep|]. split; [|split].
  - split; [exact B1|].
    destruct (Hsend fair_weather 0%nat (at_step start_9603) Hstep)
      as (s0 & e & sb & Hpre & Hb & s' & new & Hrun & Ht & Hz & _ & Hok).
    rewrite (begin_status_run _ _ _ _ _ Hpre Hb) in B1. injection B1 as ->.
    destruct (Hok eq_refl) as ((msg & Hmsg & _) & Hc).
    exists s', new, msg. repeat split; assumption.
  - split; [exact B2|].
    destruct (Hsend send_fails 0%nat (at_step start_9603) Hstep)
      as (s0 & e & sb & Hpre & Hb & s' & new & Hrun & Ht & Hz & _ & Hok).
    rewrite (begin_status_run _ _ _ _ _ Hpre Hb) in B2. injection B2 as ->.
    destruct (Hok eq_refl) as ((msg & Hmsg & _) & Hc).
    destruct send_fails_err as (s2 & Hrun2 & He).
    rewrite Hrun in Hrun2. injection Hrun2 as <-. apply Z.eqb_eq in He.
    exists s', new, msg. repeat split; assumption.
  - split; [exact B3|].
    destruct (Hsend no_modem 0%nat (at_step start_9603) Hstep)
      as (s0 & e & sb & Hpre & Hb & s' & new & Hrun & Ht & Hz & Hfail & _).
    rewrite (begin_status_run _ _ _ _ _ Hpre Hb) in B3. injection B3 as ->.
    destruct (Hfail ltac:(discriminate)) as (Hs & _ & Hc & He).
    exists s', new. repeat split; assumption.
Defined.
